(** * google-docs-mcp: the markdown <-> Google Docs transformer

    A shallow embedding of
      - [src/markdown-transformer/markdownToDocsRequests.ts] (the forward
        compiler: markdown-it tokens to Docs batch-update requests), and
      - [src/markdown-transformer/docsToMarkdown.ts] (the reverse renderer:
        Docs JSON to markdown text),
    followed by the properties the specification states about them.

    Conventions.  A JavaScript string is a [string]; one character stands for
    one UTF-16 code unit, so [String.length] is the [.length] of the source.
    Offsets into the document are [Z].  An array that the source grows with
    [push] is a list extended at its end; an array element mutated through a
    reference is a list updated in place with stdpp's [<[i:=x]>]. *)

From Stdlib Require Import ZArith Lia Ascii String DecimalString DecimalNat DecimalFacts.
From stdpp Require Import base option list sorting strings gmap.

Local Open Scope Z_scope.

(** ** JavaScript string primitives used by both directions *)

Module JS.

Definition LF : ascii := Ascii.ascii_of_nat 10.
Definition newline : string := String LF "".

(** White space as matched by [\s] and removed by [String.prototype.trim],
    restricted to the code units below 256: TAB, LF, VT, FF, CR, SPACE and
    NBSP. *)
Definition isWhiteSpace (c : ascii) : bool :=
  let n := Ascii.nat_of_ascii c in
  ((9 <=? n)%nat && (n <=? 13)%nat) || (n =? 32)%nat || (n =? 160)%nat.

Definition len (s : string) : Z := Z.of_nat (String.length s).

(** [s.endsWith(suffix)] *)
Fixpoint endsWith (s suffix : string) : bool :=
  if String.eqb s suffix then true
  else match s with
       | "" => false
       | String _ s' => endsWith s' suffix
       end.

(** [s.startsWith(prefix)] *)
Fixpoint startsWith (s prefix : string) : bool :=
  match prefix, s with
  | "", _ => true
  | String p prefix', String c s' => Ascii.eqb p c && startsWith s' prefix'
  | String _ _, "" => false
  end.

(** [s.includes(sub)] *)
Fixpoint includes (s sub : string) : bool :=
  if startsWith s sub then true
  else match s with
       | "" => false
       | String _ s' => includes s' sub
       end.

(** [s.slice(0, -1)] *)
Fixpoint dropLast (s : string) : string :=
  match s with
  | "" => ""
  | String c "" => ""
  | String c s' => String c (dropLast s')
  end.

(** [s.slice(n)] for [0 <= n] *)
Fixpoint sliceFrom (n : nat) (s : string) : string :=
  match n, s with
  | O, _ => s
  | S n', String _ s' => sliceFrom n' s'
  | S _, "" => ""
  end.

(** [s.split(sep)] for a one-character separator; never returns []. *)
Fixpoint split (sep : ascii) (s : string) : list string :=
  match s with
  | "" => [""]
  | String c s' =>
      if Ascii.eqb c sep then "" :: split sep s'
      else match split sep s' with
           | h :: t => String c h :: t
           | [] => [String c ""]
           end
  end.

(** [s.repeat(n)] *)
Fixpoint repeat (s : string) (n : nat) : string :=
  match n with
  | O => ""
  | S n' => s +:+ repeat s n'
  end.

Fixpoint trimStart (s : string) : string :=
  match s with
  | "" => ""
  | String c s' => if isWhiteSpace c then trimStart s' else s
  end.

Fixpoint trimEnd (s : string) : string :=
  match s with
  | "" => ""
  | String c s' =>
      match trimEnd s' with
      | "" => if isWhiteSpace c then "" else String c ""
      | r => String c r
      end
  end.

(** [s.trim()] *)
Definition trim (s : string) : string := trimEnd (trimStart s).

(** Nothing but white space: what [trim] reduces to the empty string. *)
Definition allWhiteSpace (s : string) : Prop := trimStart s = "".

(** [s.replace(/\n/g, ' ')] *)
Fixpoint replaceNewlines (s : string) : string :=
  match s with
  | "" => ""
  | String c s' =>
      String (if Ascii.eqb c LF then " "%char else c) (replaceNewlines s')
  end.

(** Truthiness of a string value: the empty string is falsy. *)
Definition truthy (s : string) : bool := negb (String.eqb s "").

Definition isDigit (c : ascii) : bool :=
  let n := Ascii.nat_of_ascii c in (48 <=? n)%nat && (n <=? 57)%nat.

(** [parseInt(c, 10)] on a single decimal digit. *)
Definition digitValue (c : ascii) : nat := (Ascii.nat_of_ascii c - 48)%nat.

(** Decimal rendering of a number inside a template literal. *)
Definition natToString (n : nat) : string :=
  NilZero.string_of_uint (Nat.to_uint n).

(** The last element of an array, [a[a.length - 1]]. *)
Definition lastOf {A} (l : list A) : option A := List.last (Some <$> l) None.

(** [a.pop()] as far as the array is concerned. *)
Definition pop {A} (l : list A) : list A := List.removelast l.

End JS.

(** ** The forward compiler: [markdownToDocsRequests.ts] *)

Module MarkdownToDocs.
Import JS.

(** *** Tokens of markdown-it, as far as the compiler reads them.
    [attrs] is nullable in markdown-it; a null [children] and an empty one
    are the same to the compiler (its loop runs zero times), so they are
    one list here. *)
Local Unset Elimination Schemes.
Inductive Token : Type :=
  mkToken { type : string;
            tag : string;
            attrs : option (list (string * string));
            content : string;
            children : list Token }.
Local Set Elimination Schemes.

(** *** Internal types *)

Record FormattingState := mkFormatting {
  bold : option bool;
  italic : option bool;
  strikethrough : option bool;
  link : option string;
  code : option bool }.

Definition noFormatting : FormattingState := mkFormatting None None None None None.

Record TextRange := mkTextRange {
  tr_startIndex : Z;
  tr_endIndex : Z;
  formatting : FormattingState }.

Record ParagraphRange := mkParagraphRange {
  pr_startIndex : Z;
  pr_endIndex : Z;
  namedStyleType : option string }.

Inductive ListType := bullet | ordered.

Record ListState := mkListState { ls_type : ListType; level : nat }.

Inductive BulletPreset :=
| NUMBERED_DECIMAL_ALPHA_ROMAN
| BULLET_DISC_CIRCLE_SQUARE
| BULLET_CHECKBOX.

Definition BulletPreset_eqb (a b : BulletPreset) : bool :=
  match a, b with
  | NUMBERED_DECIMAL_ALPHA_ROMAN, NUMBERED_DECIMAL_ALPHA_ROMAN
  | BULLET_DISC_CIRCLE_SQUARE, BULLET_DISC_CIRCLE_SQUARE
  | BULLET_CHECKBOX, BULLET_CHECKBOX => true
  | _, _ => false
  end.

Record PendingListItem := mkPendingListItem {
  li_startIndex : Z;
  li_endIndex : option Z;
  nestingLevel : nat;
  bulletPreset : BulletPreset;
  taskPrefixProcessed : bool }.

Record ConversionOptions := mkOptions { opt_firstHeadingAsTitle : option bool }.

(** *** The requests of the Docs API the compiler emits *)

Record Location := mkLocation { index : Z; loc_tabId : option string }.

Record Range := mkRange { startIndex : Z; endIndex : Z; tabId_of : option string }.

Record TextStyleArgs := mkTextStyleArgs {
  ts_bold : option bool;
  ts_italic : option bool;
  ts_strikethrough : option bool;
  ts_fontFamily : option string;
  ts_foregroundColor : option string;
  ts_backgroundColor : option string;
  ts_linkUrl : option string }.

Inductive ParagraphStyle :=
| NamedStyle (style : string)
| BorderBottom.

Inductive Request :=
| InsertTextRequest (location : Location) (text : string)
| UpdateTextStyleRequest (range : Range) (textStyle : TextStyleArgs)
| UpdateParagraphStyleRequest (range : Range) (paragraphStyle : ParagraphStyle)
| CreateParagraphBulletsRequest (range : Range) (preset : BulletPreset).

Record ConversionContext := mkContext {
  currentIndex : Z;
  insertRequests : list Request;
  formatRequests : list Request;
  textRanges : list TextRange;
  formattingStack : list FormattingState;
  listStack : list ListState;
  paragraphRanges : list ParagraphRange;
  pendingListItems : list PendingListItem;
  openListItemStack : list nat;
  hrRanges : list (Z * Z);
  tabId : option string;
  currentParagraphStart : option Z;
  currentHeadingLevel : option nat;
  titleConsumed : bool;
  firstHeadingAsTitle : bool }.

(** Field assignments [context.f = v]. *)
Definition set_insert (i : Z) (rs : list Request) (c : ConversionContext) :=
  mkContext i rs (formatRequests c) (textRanges c) (formattingStack c)
    (listStack c) (paragraphRanges c) (pendingListItems c) (openListItemStack c)
    (hrRanges c) (tabId c) (currentParagraphStart c) (currentHeadingLevel c)
    (titleConsumed c) (firstHeadingAsTitle c).
Definition set_formatRequests (rs : list Request) (c : ConversionContext) :=
  mkContext (currentIndex c) (insertRequests c) rs (textRanges c) (formattingStack c)
    (listStack c) (paragraphRanges c) (pendingListItems c) (openListItemStack c)
    (hrRanges c) (tabId c) (currentParagraphStart c) (currentHeadingLevel c)
    (titleConsumed c) (firstHeadingAsTitle c).
Definition set_textRanges (v : list TextRange) (c : ConversionContext) :=
  mkContext (currentIndex c) (insertRequests c) (formatRequests c) v (formattingStack c)
    (listStack c) (paragraphRanges c) (pendingListItems c) (openListItemStack c)
    (hrRanges c) (tabId c) (currentParagraphStart c) (currentHeadingLevel c)
    (titleConsumed c) (firstHeadingAsTitle c).
Definition set_formattingStack (v : list FormattingState) (c : ConversionContext) :=
  mkContext (currentIndex c) (insertRequests c) (formatRequests c) (textRanges c) v
    (listStack c) (paragraphRanges c) (pendingListItems c) (openListItemStack c)
    (hrRanges c) (tabId c) (currentParagraphStart c) (currentHeadingLevel c)
    (titleConsumed c) (firstHeadingAsTitle c).
Definition set_listStack (v : list ListState) (c : ConversionContext) :=
  mkContext (currentIndex c) (insertRequests c) (formatRequests c) (textRanges c)
    (formattingStack c) v (paragraphRanges c) (pendingListItems c) (openListItemStack c)
    (hrRanges c) (tabId c) (currentParagraphStart c) (currentHeadingLevel c)
    (titleConsumed c) (firstHeadingAsTitle c).
Definition set_paragraphRanges (v : list ParagraphRange) (c : ConversionContext) :=
  mkContext (currentIndex c) (insertRequests c) (formatRequests c) (textRanges c)
    (formattingStack c) (listStack c) v (pendingListItems c) (openListItemStack c)
    (hrRanges c) (tabId c) (currentParagraphStart c) (currentHeadingLevel c)
    (titleConsumed c) (firstHeadingAsTitle c).
Definition set_pendingListItems (v : list PendingListItem) (c : ConversionContext) :=
  mkContext (currentIndex c) (insertRequests c) (formatRequests c) (textRanges c)
    (formattingStack c) (listStack c) (paragraphRanges c) v (openListItemStack c)
    (hrRanges c) (tabId c) (currentParagraphStart c) (currentHeadingLevel c)
    (titleConsumed c) (firstHeadingAsTitle c).
Definition set_openListItemStack (v : list nat) (c : ConversionContext) :=
  mkContext (currentIndex c) (insertRequests c) (formatRequests c) (textRanges c)
    (formattingStack c) (listStack c) (paragraphRanges c) (pendingListItems c) v
    (hrRanges c) (tabId c) (currentParagraphStart c) (currentHeadingLevel c)
    (titleConsumed c) (firstHeadingAsTitle c).
Definition set_hrRanges (v : list (Z * Z)) (c : ConversionContext) :=
  mkContext (currentIndex c) (insertRequests c) (formatRequests c) (textRanges c)
    (formattingStack c) (listStack c) (paragraphRanges c) (pendingListItems c)
    (openListItemStack c) v (tabId c) (currentParagraphStart c) (currentHeadingLevel c)
    (titleConsumed c) (firstHeadingAsTitle c).
Definition set_currentParagraphStart (v : option Z) (c : ConversionContext) :=
  mkContext (currentIndex c) (insertRequests c) (formatRequests c) (textRanges c)
    (formattingStack c) (listStack c) (paragraphRanges c) (pendingListItems c)
    (openListItemStack c) (hrRanges c) (tabId c) v (currentHeadingLevel c)
    (titleConsumed c) (firstHeadingAsTitle c).
Definition set_currentHeadingLevel (v : option nat) (c : ConversionContext) :=
  mkContext (currentIndex c) (insertRequests c) (formatRequests c) (textRanges c)
    (formattingStack c) (listStack c) (paragraphRanges c) (pendingListItems c)
    (openListItemStack c) (hrRanges c) (tabId c) (currentParagraphStart c) v
    (titleConsumed c) (firstHeadingAsTitle c).
Definition set_titleConsumed (v : bool) (c : ConversionContext) :=
  mkContext (currentIndex c) (insertRequests c) (formatRequests c) (textRanges c)
    (formattingStack c) (listStack c) (paragraphRanges c) (pendingListItems c)
    (openListItemStack c) (hrRanges c) (tabId c) (currentParagraphStart c)
    (currentHeadingLevel c) v (firstHeadingAsTitle c).

Definition CODE_FONT_FAMILY : string := "Roboto Mono".
Definition CODE_TEXT_HEX : string := "#188038".
Definition CODE_BACKGROUND_HEX : string := "#F1F3F4".

(** *** Exceptions.  The compiler throws [MarkdownConversionError] itself;
    [OtherError] is any other [Error] value and [NonError] a thrown value
    that is not an [Error]. *)
Inductive Exception :=
| MarkdownConversionError (message : string)
| OtherError (message : string)
| NonError.

Inductive Result (A : Type) :=
| Ok (a : A)
| Throw (e : Exception).
Arguments Ok {A} a.
Arguments Throw {A} e.

Definition bind {A B} (r : Result A) (k : A -> Result B) : Result B :=
  match r with
  | Ok a => k a
  | Throw e => Throw e
  end.

(** [a] when the optional string is truthy, as in [if (context.tabId)]. *)
Definition truthyString (o : option string) : option string :=
  match o with
  | Some s => if truthy s then Some s else None
  | None => None
  end.

Definition isTrue (o : option bool) : bool :=
  match o with Some true => true | _ => false end.

(** *** Token accessors *)

Definition getLinkHref (token : Token) : option string :=
  if negb (String.eqb (type token) "link_open") then None
  else match attrs token with
       | None => None
       | Some l =>
           match List.find (fun attr => String.eqb (fst attr) "href") l with
           | Some hrefAttr => Some (snd hrefAttr)
           | None => None
           end
       end.

(** The capture of [/h(\d)/]: the digit after the first [h] that has one. *)
Fixpoint matchHDigit (s : string) : option ascii :=
  match s with
  | "" => None
  | String c s' =>
      match s' with
      | String d _ =>
          if Ascii.eqb c "h"%char && isDigit d then Some d else matchHDigit s'
      | "" => None
      end
  end.

Definition getHeadingLevel (token : Token) : option nat :=
  if negb (startsWith (type token) "heading_") then None
  else match matchHDigit (tag token) with
       | Some d => Some (digitValue d)
       | None => None
       end.

(** *** Utility *)

Definition getCurrentOpenListItem (context : ConversionContext) : option PendingListItem :=
  match lastOf (openListItemStack context) with
  | None => None
  | Some openIndex => pendingListItems context !! openIndex
  end.

Definition lastInsertText (context : ConversionContext) : option string :=
  match lastOf (insertRequests context) with
  | Some (InsertTextRequest _ text) => Some text
  | _ => None
  end.

Definition lastInsertEndsWithNewline (context : ConversionContext) : bool :=
  match lastInsertText context with
  | Some lastInsert => truthy lastInsert && endsWith lastInsert newline
  | None => false
  end.

Definition lastInsertEndsWithDoubleNewline (context : ConversionContext) : bool :=
  match lastInsertText context with
  | Some lastInsert => truthy lastInsert && endsWith lastInsert (newline +:+ newline)
  | None => false
  end.

(** *** Insert helper *)

Definition insertText (text : string) (context : ConversionContext) : ConversionContext :=
  let location := mkLocation (currentIndex context) (truthyString (tabId context)) in
  set_insert (currentIndex context + len text)
             (insertRequests context ++ [InsertTextRequest location text])
             context.

(** *** Formatting stack *)

Definition override {A} (later earlier : option A) : option A :=
  match later with
  | Some _ => later
  | None => earlier
  end.

Definition mergeFormattingStack (stack : list FormattingState) : FormattingState :=
  fold_left
    (fun merged state =>
       mkFormatting (override (bold state) (bold merged))
                    (override (italic state) (italic merged))
                    (override (strikethrough state) (strikethrough merged))
                    (override (link state) (link merged))
                    (override (code state) (code merged)))
    stack noFormatting.

Definition hasFormatting (f : FormattingState) : bool :=
  isTrue (bold f) || isTrue (italic f) || isTrue (strikethrough f)
  || isTrue (code f) || bool_decide (is_Some (link f)).

(** [keyof FormattingState] *)
Inductive FormattingKey := key_bold | key_italic | key_strikethrough | key_link | key_code.

Definition defines (k : FormattingKey) (f : FormattingState) : bool :=
  match k with
  | key_bold => bool_decide (is_Some (bold f))
  | key_italic => bool_decide (is_Some (italic f))
  | key_strikethrough => bool_decide (is_Some (strikethrough f))
  | key_link => bool_decide (is_Some (link f))
  | key_code => bool_decide (is_Some (code f))
  end.

Fixpoint removeFirst {A} (p : A -> bool) (l : list A) : list A :=
  match l with
  | [] => []
  | x :: l' => if p x then l' else x :: removeFirst p l'
  end.

(** The loop runs from the top of the stack down and splices out the first
    entry that defines [type]. *)
Definition popFormatting (context : ConversionContext) (k : FormattingKey) : ConversionContext :=
  set_formattingStack
    (rev (removeFirst (defines k) (rev (formattingStack context)))) context.

Definition pushFormatting (f : FormattingState) (context : ConversionContext) :=
  set_formattingStack (formattingStack context ++ [f]) context.

(** *** Heading handlers *)

Definition handleHeadingOpen (token : Token) (context : ConversionContext) : ConversionContext :=
  match getHeadingLevel token with
  | Some (S l) =>
      set_currentParagraphStart (Some (currentIndex context))
        (set_currentHeadingLevel (Some (S l)) context)
  | _ => context
  end.

Definition headingStyleName (lvl : nat) : string := "HEADING_" +:+ natToString lvl.

Definition handleHeadingClose (context : ConversionContext) : ConversionContext :=
  match currentHeadingLevel context, currentParagraphStart context with
  | Some (S l), Some paragraphStart =>
      let useTitle :=
        firstHeadingAsTitle context && negb (titleConsumed context) && Nat.eqb (S l) 1 in
      let context := if useTitle then set_titleConsumed true context else context in
      let context :=
        set_paragraphRanges
          (paragraphRanges context ++
             [mkParagraphRange paragraphStart (currentIndex context)
                (Some (if useTitle then "TITLE" else headingStyleName (S l)))])
          context in
      let context := insertText newline context in
      set_currentParagraphStart None (set_currentHeadingLevel None context)
  | _, _ => context
  end.

(** *** Horizontal rule *)

Definition handleHorizontalRule (context : ConversionContext) : ConversionContext :=
  let context :=
    if negb (lastInsertEndsWithNewline context) then insertText newline context
    else context in
  let start := currentIndex context in
  let context := insertText newline context in
  set_hrRanges (hrRanges context ++ [(start, currentIndex context)]) context.

(** *** Paragraph handlers *)

Definition handleParagraphOpen (context : ConversionContext) : ConversionContext :=
  if Nat.eqb (length (listStack context)) 0
  then set_currentParagraphStart (Some (currentIndex context)) context
  else context.

(** [currentListItem] aliases the element of [pendingListItems] at the index
    on top of [openListItemStack]; a write through it is a write to that
    element. *)
Definition updateCurrentOpenListItem
    (f : PendingListItem -> PendingListItem) (context : ConversionContext) : ConversionContext :=
  match lastOf (openListItemStack context) with
  | None => context
  | Some openIndex =>
      match pendingListItems context !! openIndex with
      | None => context
      | Some item =>
          set_pendingListItems (<[openIndex := f item]> (pendingListItems context)) context
      end
  end.

Definition set_endIndex (e : Z) (i : PendingListItem) : PendingListItem :=
  mkPendingListItem (li_startIndex i) (Some e) (nestingLevel i) (bulletPreset i)
    (taskPrefixProcessed i).
Definition set_taskPrefixProcessed (i : PendingListItem) : PendingListItem :=
  mkPendingListItem (li_startIndex i) (li_endIndex i) (nestingLevel i) (bulletPreset i) true.
Definition set_bulletPreset (p : BulletPreset) (i : PendingListItem) : PendingListItem :=
  mkPendingListItem (li_startIndex i) (li_endIndex i) (nestingLevel i) p
    (taskPrefixProcessed i).

Definition handleParagraphClose (context : ConversionContext) : ConversionContext :=
  let context :=
    if negb (lastInsertEndsWithNewline context) then insertText newline context
    else context in
  let context :=
    match getCurrentOpenListItem context with
    | Some currentListItem =>
        let paragraphEndIndex :=
          if lastInsertEndsWithNewline context then currentIndex context - 1
          else currentIndex context in
        if li_startIndex currentListItem <? paragraphEndIndex
        then updateCurrentOpenListItem (set_endIndex paragraphEndIndex) context
        else context
    | None => context
    end in
  set_currentParagraphStart None context.

(** *** List handlers *)

Definition listItemOutsideList : Exception :=
  MarkdownConversionError "List item found outside of list context".

Definition handleListItemOpen (context : ConversionContext) : Result ConversionContext :=
  match lastOf (listStack context) with
  | None => Throw listItemOutsideList
  | Some currentList =>
      let itemStart := currentIndex context in
      let context :=
        if (0 <? level currentList)%nat
        then insertText (repeat (String (Ascii.ascii_of_nat 9) "") (level currentList)) context
        else context in
      let listItem :=
        mkPendingListItem itemStart None (level currentList)
          (match ls_type currentList with
           | ordered => NUMBERED_DECIMAL_ALPHA_ROMAN
           | bullet => BULLET_DISC_CIRCLE_SQUARE
           end)
          false in
      let context := set_pendingListItems (pendingListItems context ++ [listItem]) context in
      Ok (set_openListItemStack
            (openListItemStack context ++ [(length (pendingListItems context) - 1)%nat])
            context)
  end.

(** Reading [listItem.endIndex] of an [undefined] element would be a
    [TypeError]; that branch is kept, and shown unreachable below. *)
Definition handleListItemClose (context : ConversionContext) : Result ConversionContext :=
  match lastOf (openListItemStack context) with
  | None => Ok context
  | Some openIndex =>
      let context := set_openListItemStack (pop (openListItemStack context)) context in
      match pendingListItems context !! openIndex with
      | None => Throw (OtherError "Cannot read properties of undefined (reading 'endIndex')")
      | Some listItem =>
          let context :=
            match li_endIndex listItem with
            | None =>
                let computedEndIndex :=
                  if lastInsertEndsWithNewline context then currentIndex context - 1
                  else currentIndex context in
                if li_startIndex listItem <? computedEndIndex
                then set_pendingListItems
                       (<[openIndex := set_endIndex computedEndIndex listItem]>
                          (pendingListItems context)) context
                else context
            | Some _ => context
            end in
          Ok (if negb (lastInsertEndsWithNewline context) then insertText newline context
              else context)
      end
  end.

(** *** Text handling *)

Fixpoint countWhiteSpace (s : string) : nat :=
  match s with
  | String c s' => if isWhiteSpace c then S (countWhiteSpace s') else O
  | "" => O
  end.

(** The length of the match of [/^\[( |x|X)\]\s+/], if there is one. *)
Definition matchTaskPrefix (text : string) : option nat :=
  match text with
  | String b (String c (String e rest)) =>
      if Ascii.eqb b "["%char
         && (Ascii.eqb c " "%char || Ascii.eqb c "x"%char || Ascii.eqb c "X"%char)
         && Ascii.eqb e "]"%char
      then match countWhiteSpace rest with
           | O => None
           | S n => Some (3 + S n)%nat
           end
      else None
  | _ => None
  end.

(** The part of [handleTextToken] after the task-prefix block. *)
Definition emitText (text : string) (context : ConversionContext) : ConversionContext :=
  let startIndex := currentIndex context in
  let endIndex := startIndex + len text in
  let context := insertText text context in
  let currentFormatting := mergeFormattingStack (formattingStack context) in
  if hasFormatting currentFormatting
  then set_textRanges
         (textRanges context ++ [mkTextRange startIndex endIndex currentFormatting]) context
  else context.

Definition handleTextToken (token : Token) (context : ConversionContext) : ConversionContext :=
  let text := content token in
  if negb (truthy text) then context
  else
    match getCurrentOpenListItem context with
    | Some currentListItem =>
        if negb (taskPrefixProcessed currentListItem) then
          let context := updateCurrentOpenListItem set_taskPrefixProcessed context in
          match matchTaskPrefix text with
          | Some n =>
              let context :=
                updateCurrentOpenListItem (set_bulletPreset BULLET_CHECKBOX) context in
              let text := sliceFrom n text in
              if negb (truthy text) then context else emitText text context
          | None => emitText text context
          end
        else emitText text context
    | None => emitText text context
    end.

Definition handleCodeInlineToken (token : Token) (context : ConversionContext) : ConversionContext :=
  let context := pushFormatting (mkFormatting None None None None (Some true)) context in
  let context := handleTextToken token context in
  popFormatting context key_code.

Definition codeOnly : FormattingState := mkFormatting None None None None (Some true).

(** The body of the [for (const line of lines)] loop. *)
Definition emitCodeLine (context : ConversionContext) (line : string) : ConversionContext :=
  let startIndex := currentIndex context in
  let context :=
    if (0 <? String.length line)%nat then insertText line context
    else insertText " " context in
  let context :=
    set_textRanges
      (textRanges context ++ [mkTextRange startIndex (currentIndex context) codeOnly])
      context in
  insertText newline context.

Definition codeBlockLines (tokenContent : string) : list string :=
  let normalizedContent :=
    if endsWith tokenContent newline then dropLast tokenContent else tokenContent in
  if (0 <? String.length normalizedContent)%nat then split LF normalizedContent else [""].

Definition handleCodeBlockToken (token : Token) (context : ConversionContext) : ConversionContext :=
  let lines := codeBlockLines (content token) in
  let context := fold_left emitCodeLine lines context in
  if negb (lastInsertEndsWithDoubleNewline context) then insertText newline context
  else context.

(** *** Token processing *)

(** The arms of [switch (token.type)]. *)
Inductive TokenKind :=
| heading_open | heading_close
| paragraph_open | paragraph_close
| text | code_inline
| strong_open | strong_close | em_open | em_close | s_open | s_close
| link_open | link_close
| bullet_list_open | bullet_list_close | ordered_list_open | ordered_list_close
| list_item_open | list_item_close
| softbreak | hardbreak
| inline
| table_structure
| fence | code_block
| hr
| blockquote
| unknown.

Definition caseTable : list (string * TokenKind) :=
  [ ("heading_open", heading_open); ("heading_close", heading_close);
    ("paragraph_open", paragraph_open); ("paragraph_close", paragraph_close);
    ("text", text); ("code_inline", code_inline);
    ("strong_open", strong_open); ("strong_close", strong_close);
    ("em_open", em_open); ("em_close", em_close);
    ("s_open", s_open); ("s_close", s_close);
    ("link_open", link_open); ("link_close", link_close);
    ("bullet_list_open", bullet_list_open); ("bullet_list_close", bullet_list_close);
    ("ordered_list_open", ordered_list_open); ("ordered_list_close", ordered_list_close);
    ("list_item_open", list_item_open); ("list_item_close", list_item_close);
    ("softbreak", softbreak); ("hardbreak", hardbreak);
    ("inline", inline);
    ("table_open", table_structure); ("tbody_open", table_structure);
    ("tbody_close", table_structure); ("thead_open", table_structure);
    ("thead_close", table_structure); ("tr_open", table_structure);
    ("tr_close", table_structure); ("th_open", table_structure);
    ("th_close", table_structure); ("td_open", table_structure);
    ("td_close", table_structure); ("table_close", table_structure);
    ("fence", fence); ("code_block", code_block);
    ("hr", hr);
    ("blockquote_open", blockquote); ("blockquote_close", blockquote) ].

Definition kindOf (tokenType : string) : TokenKind :=
  match List.find (fun c => String.eqb (fst c) tokenType) caseTable with
  | Some c => snd c
  | None => unknown
  end.

Definition pushList (t : ListType) (context : ConversionContext) : ConversionContext :=
  set_listStack
    (listStack context ++ [mkListState t (length (listStack context))]) context.

Definition popList (context : ConversionContext) : ConversionContext :=
  set_listStack (pop (listStack context)) context.

(** Every arm of the switch but [inline], which recurses. *)
Definition processLeaf (k : TokenKind) (token : Token) (context : ConversionContext)
  : Result ConversionContext :=
  match k with
  | heading_open => Ok (handleHeadingOpen token context)
  | heading_close => Ok (handleHeadingClose context)
  | paragraph_open => Ok (handleParagraphOpen context)
  | paragraph_close => Ok (handleParagraphClose context)
  | text => Ok (handleTextToken token context)
  | code_inline => Ok (handleCodeInlineToken token context)
  | strong_open => Ok (pushFormatting (mkFormatting (Some true) None None None None) context)
  | strong_close => Ok (popFormatting context key_bold)
  | em_open => Ok (pushFormatting (mkFormatting None (Some true) None None None) context)
  | em_close => Ok (popFormatting context key_italic)
  | s_open => Ok (pushFormatting (mkFormatting None None (Some true) None None) context)
  | s_close => Ok (popFormatting context key_strikethrough)
  | link_open =>
      match getLinkHref token with
      | Some href =>
          if truthy href
          then Ok (pushFormatting (mkFormatting None None None (Some href) None) context)
          else Ok context
      | None => Ok context
      end
  | link_close => Ok (popFormatting context key_link)
  | bullet_list_open => Ok (pushList bullet context)
  | bullet_list_close => Ok (popList context)
  | ordered_list_open => Ok (pushList ordered context)
  | ordered_list_close => Ok (popList context)
  | list_item_open => handleListItemOpen context
  | list_item_close => handleListItemClose context
  | softbreak => Ok (insertText " " context)
  | hardbreak => Ok (insertText newline context)
  | fence | code_block => Ok (handleCodeBlockToken token context)
  | hr => Ok (handleHorizontalRule context)
  | inline | table_structure | blockquote | unknown => Ok context
  end.

Fixpoint processToken (token : Token) (context : ConversionContext) {struct token}
  : Result ConversionContext :=
  match kindOf (type token) with
  | inline =>
      (fix processChildren (cs : list Token) (context : ConversionContext)
         : Result ConversionContext :=
         match cs with
         | [] => Ok context
         | child :: cs' =>
             bind (processToken child context) (processChildren cs')
         end) (children token) context
  | k => processLeaf k token context
  end.

(** [for (const token of tokens) processToken(token, context)] *)
Fixpoint processTokens (tokens : list Token) (context : ConversionContext)
  : Result ConversionContext :=
  match tokens with
  | [] => Ok context
  | token :: rest => bind (processToken token context) (processTokens rest)
  end.

(** *** Request builders of [googleDocsApiHelpers.ts] *)

(** Modelled from the spec: [buildUpdateTextStyleRequest] of
    [googleDocsApiHelpers.ts], which is not among the sources.  Section 4.1
    (Finalization, step 1) has one style operation per call, over the range
    it is given, carrying the style it is given; section 6 attaches the
    sub-document identifier to every operation. *)
Definition buildUpdateTextStyleRequest
    (startIndex endIndex : Z) (style : TextStyleArgs) (tabId : option string)
  : option Request :=
  Some (UpdateTextStyleRequest (mkRange startIndex endIndex (truthyString tabId)) style).

(** Modelled from the spec: [buildUpdateParagraphStyleRequest] of
    [googleDocsApiHelpers.ts], which is not among the sources.  Section 4.1
    (Finalization, step 2) has one paragraph-style operation per entry of
    [paragraphRanges], with its named style. *)
Definition buildUpdateParagraphStyleRequest
    (startIndex endIndex : Z) (namedStyle : string) (tabId : option string)
  : option Request :=
  Some (UpdateParagraphStyleRequest (mkRange startIndex endIndex (truthyString tabId))
          (NamedStyle namedStyle)).

(** *** Finalization *)

Definition pushAll (rs : list Request) (context : ConversionContext) : ConversionContext :=
  set_formatRequests (formatRequests context ++ rs) context.

(** The requests one entry of [textRanges] gives rise to. *)
Definition textRangeRequests (tab : option string) (range : TextRange) : list Request :=
  let f := formatting range in
  (if isTrue (bold f) || isTrue (italic f) || isTrue (strikethrough f) || isTrue (code f)
   then option_list
          (buildUpdateTextStyleRequest (tr_startIndex range) (tr_endIndex range)
             (mkTextStyleArgs (bold f) (italic f) (strikethrough f)
                (if isTrue (code f) then Some CODE_FONT_FAMILY else None)
                (if isTrue (code f) then Some CODE_TEXT_HEX else None)
                (if isTrue (code f) then Some CODE_BACKGROUND_HEX else None)
                None)
             tab)
   else [])
  ++
  (match truthyString (link f) with
   | Some url =>
       option_list
         (buildUpdateTextStyleRequest (tr_startIndex range) (tr_endIndex range)
            (mkTextStyleArgs None None None None None None (Some url)) tab)
   | None => []
   end).

Definition paragraphRangeRequests (tab : option string) (paraRange : ParagraphRange)
  : list Request :=
  match truthyString (namedStyleType paraRange) with
  | Some style =>
      option_list
        (buildUpdateParagraphStyleRequest (pr_startIndex paraRange) (pr_endIndex paraRange)
           style tab)
  | None => []
  end.

Definition hrRangeRequest (tab : option string) (hrRange : Z * Z) : Request :=
  UpdateParagraphStyleRequest (mkRange (fst hrRange) (snd hrRange) (truthyString tab))
    BorderBottom.

(** [Array.prototype.sort] with a comparator: a stable sort (ES2019), here
    by insertion.  [cmp a b <= 0] keeps [a] before [b]. *)
Fixpoint insertSorted {A} (cmp : A -> A -> Z) (x : A) (l : list A) : list A :=
  match l with
  | [] => [x]
  | y :: l' => if cmp x y <=? 0 then x :: l else y :: insertSorted cmp x l'
  end.

Definition sort {A} (cmp : A -> A -> Z) (l : list A) : list A :=
  foldr (insertSorted cmp) [] l.

Record MergedListRange := mkMerged {
  m_startIndex : Z;
  m_endIndex : Z;
  m_bulletPreset : BulletPreset }.

Definition isValidListItem (item : PendingListItem) : bool :=
  match li_endIndex item with
  | Some e => li_startIndex item <? e
  | None => false
  end.

Definition validListItems (context : ConversionContext) : list PendingListItem :=
  sort (fun a b => li_startIndex a - li_startIndex b)
       (List.filter isValidListItem (pendingListItems context)).

(** [item.endIndex!]: the filter has left only items with an end. *)
Definition endOf (item : PendingListItem) : Z :=
  match li_endIndex item with
  | Some e => e
  | None => li_startIndex item
  end.

(** The body of the merge loop.  [last] is the final element of
    [mergedListRanges], extended in place. *)
Definition mergeItem (mergedListRanges : list MergedListRange) (item : PendingListItem)
  : list MergedListRange :=
  match lastOf mergedListRanges with
  | Some last =>
      if BulletPreset_eqb (m_bulletPreset last) (bulletPreset item)
         && (li_startIndex item <=? m_endIndex last + 1)
      then pop mergedListRanges
             ++ [mkMerged (m_startIndex last) (Z.max (m_endIndex last) (endOf item))
                   (m_bulletPreset last)]
      else mergedListRanges
             ++ [mkMerged (li_startIndex item) (endOf item) (bulletPreset item)]
  | None =>
      mergedListRanges ++ [mkMerged (li_startIndex item) (endOf item) (bulletPreset item)]
  end.

Definition mergeListRanges (items : list PendingListItem) : list MergedListRange :=
  fold_left mergeItem items [].

Definition mergedListRanges (context : ConversionContext) : list MergedListRange :=
  sort (fun a b => m_startIndex b - m_startIndex a)
       (mergeListRanges (validListItems context)).

Definition bulletRequest (tab : option string) (merged : MergedListRange) : Request :=
  CreateParagraphBulletsRequest
    (mkRange (m_startIndex merged) (m_endIndex merged) (truthyString tab))
    (m_bulletPreset merged).

Definition finalizeFormatting (context : ConversionContext) : ConversionContext :=
  let tab := tabId context in
  let context := pushAll (concat (textRangeRequests tab <$> textRanges context)) context in
  let context :=
    pushAll (concat (paragraphRangeRequests tab <$> paragraphRanges context)) context in
  let context := pushAll (hrRangeRequest tab <$> hrRanges context) context in
  pushAll (bulletRequest tab <$> mergedListRanges context) context.

(** *** Main conversion function *)

Definition initialContext (startIndex : Z) (tabId : option string)
    (options : option ConversionOptions) : ConversionContext :=
  mkContext startIndex [] [] [] [] [] [] [] [] [] tabId None None false
    (match options with
     | Some o => default false (opt_firstHeadingAsTitle o)
     | None => false
     end).

(** The [catch] clause. *)
Definition rethrow (error : Exception) : Exception :=
  match error with
  | MarkdownConversionError _ => error
  | OtherError message =>
      MarkdownConversionError ("Failed to convert markdown: " +:+ message)
  | NonError => MarkdownConversionError "Failed to convert markdown: Unknown error"
  end.

(** The [try] block, from the tokens on; the final context is kept beside
    the returned requests so that properties of the cursor can be stated. *)
Definition run (tokens : list Token) (context : ConversionContext)
  : Result ConversionContext :=
  bind (processTokens tokens context) (fun context => Ok (finalizeFormatting context)).

Definition requestsOf (context : ConversionContext) : list Request :=
  insertRequests context ++ formatRequests context.

Definition compileTokens (tokens : list Token) (startIndex : Z) (tabId : option string)
    (options : option ConversionOptions) : Result (list Request) :=
  match run tokens (initialContext startIndex tabId options) with
  | Ok context => Ok (requestsOf context)
  | Throw error => Throw (rethrow error)
  end.

(** [parse] is markdown-it's [parser.parse(markdown, {})], an external
    collaborator.  [startIndex] defaults to 1. *)
Definition convertMarkdownToRequests (parse : string -> list Token)
    (markdown : string) (startIndex : option Z) (tabId : option string)
    (options : option ConversionOptions) : Result (list Request) :=
  if negb (truthy markdown) || (String.length (trim markdown) =? 0)%nat then Ok []
  else compileTokens (parse markdown) (default 1 startIndex) tabId options.

(** *** Token streams of markdown-it for the documents the specification
    names.  A block token carries its [tag]; an [inline] token carries the
    source text and its children. *)
Module Stream.

Definition tok (ty tg : string) : Token := mkToken ty tg None "" [].
Definition txt (s : string) : Token := mkToken "text" "" None s [].
Definition inl (s : string) (cs : list Token) : Token := mkToken "inline" "" None s cs.

Definition paragraph (s : string) (cs : list Token) : list Token :=
  [tok "paragraph_open" "p"; inl s cs; tok "paragraph_close" "p"].

Definition item (s : string) : list Token :=
  [tok "list_item_open" "li"] ++ paragraph s [txt s] ++ [tok "list_item_close" "li"].

Definition bulletList (items : list (list Token)) : list Token :=
  [tok "bullet_list_open" "ul"] ++ concat items ++ [tok "bullet_list_close" "ul"].

Definition heading (tg s : string) : list Token :=
  [tok "heading_open" tg; inl s [txt s]; tok "heading_close" tg].

(** ["- A\n- B\n- C"] *)
Definition threeItems : list Token := bulletList [item "A"; item "B"; item "C"].

(** ["- A\n\n**X**\n\n- B"] *)
Definition interposed : list Token :=
  bulletList [item "A"]
  ++ paragraph "**X**" [txt ""; tok "strong_open" "strong"; txt "X";
                        tok "strong_close" "strong"; txt ""]
  ++ bulletList [item "B"].

(** ["# T\n\n# U"] *)
Definition twoH1 : list Token := heading "h1" "T" ++ heading "h1" "U".

(** ["- [x] done\n- [ ] todo"] *)
Definition taskList : list Token := bulletList [item "[x] done"; item "[ ] todo"].

(** [">"], an empty block quote *)
Definition emptyQuote : list Token :=
  [tok "blockquote_open" "blockquote"; tok "blockquote_close" "blockquote"].

(** ["#"], a heading with no text *)
Definition emptyHeading : list Token :=
  [tok "heading_open" "h1"; inl "" []; tok "heading_close" "h1"].

(** A fenced block whose content is ["a\n\nb\n"] *)
Definition fenceToken : Token := mkToken "fence" "code" None
  ("a" +:+ newline +:+ newline +:+ "b" +:+ newline) [].

End Stream.

(** *** The flattened token stream.  [processToken] descends into the
    children of an [inline] token and nowhere else, so a run over a token
    tree is a run of [processLeaf] over its leaves in order. *)

Fixpoint flatten (token : Token) : list Token :=
  match kindOf (type token) with
  | inline =>
      (fix flattenChildren (cs : list Token) : list Token :=
         match cs with
         | [] => []
         | child :: cs' => flatten child ++ flattenChildren cs'
         end) (children token)
  | _ => [token]
  end.

Fixpoint flattenAll (tokens : list Token) : list Token :=
  match tokens with
  | [] => []
  | token :: rest => flatten token ++ flattenAll rest
  end.

Fixpoint processLeaves (leaves : list Token) (context : ConversionContext)
  : Result ConversionContext :=
  match leaves with
  | [] => Ok context
  | token :: rest =>
      bind (processLeaf (kindOf (type token)) token context) (processLeaves rest)
  end.

(** *** Reading the output *)

Definition insertedLength (requests : list Request) : Z :=
  foldr (fun r n => match r with
                    | InsertTextRequest _ t => len t + n
                    | _ => n
                    end) 0 requests.

(** [chainFrom i requests] is the cursor after [requests] when they are all
    insertions, the first at [i] and each at the end of the one before. *)
Fixpoint chainFrom (i : Z) (requests : list Request) : option Z :=
  match requests with
  | [] => Some i
  | InsertTextRequest location t :: rest =>
      if index location =? i then chainFrom (i + len t) rest else None
  | _ :: _ => None
  end.

(** The cursor of [context'] is that of [context] moved by insertions
    appended to [insertRequests], and by nothing else. *)
Definition advances (context context' : ConversionContext) : Prop :=
  exists new,
    insertRequests context' = insertRequests context ++ new
    /\ chainFrom (currentIndex context) new = Some (currentIndex context').

Definition isInsert (r : Request) : bool :=
  match r with InsertTextRequest _ _ => true | _ => false end.

Definition isBullet (r : Request) : bool :=
  match r with CreateParagraphBulletsRequest _ _ => true | _ => false end.

Definition rangeOf (r : Request) : option Range :=
  match r with
  | InsertTextRequest _ _ => None
  | UpdateTextStyleRequest range _
  | UpdateParagraphStyleRequest range _
  | CreateParagraphBulletsRequest range _ => Some range
  end.

Definition namedStyleOf (r : Request) : option string :=
  match r with
  | UpdateParagraphStyleRequest _ (NamedStyle s) => Some s
  | _ => None
  end.

(** The named styles of the paragraph-style requests, in output order. *)
Definition namedStyles (requests : list Request) : list string :=
  omap namedStyleOf requests.

(** Token kinds that insert text in whatever state they are met. *)
Definition alwaysInserts (k : TokenKind) : bool :=
  match k with
  | paragraph_close | softbreak | hardbreak | hr | fence | code_block => true
  | _ => false
  end.

(** What a run over tokens never assigns. *)
Definition sameSettings (context context' : ConversionContext) : Prop :=
  formatRequests context' = formatRequests context
  /\ tabId context' = tabId context
  /\ firstHeadingAsTitle context' = firstHeadingAsTitle context.

(** *** Code blocks as the specification words them: per line, one
    insertion of the line (a single space for an empty line) and one code
    range over exactly that insertion; each line is closed by a newline. *)

Definition lineText (line : string) : string :=
  match line with
  | "" => " "
  | _ => line
  end.

Fixpoint codeLineInsertions (tab : option string) (i : Z) (lines : list string)
  : list Request :=
  match lines with
  | [] => []
  | line :: rest =>
      InsertTextRequest (mkLocation i tab) (lineText line)
        :: InsertTextRequest (mkLocation (i + len (lineText line)) tab) newline
        :: codeLineInsertions tab (i + len (lineText line) + 1) rest
  end.

Fixpoint codeLineRanges (i : Z) (lines : list string) : list TextRange :=
  match lines with
  | [] => []
  | line :: rest =>
      mkTextRange i (i + len (lineText line)) codeOnly
        :: codeLineRanges (i + len (lineText line) + 1) rest
  end.

Fixpoint codeLinesEnd (i : Z) (lines : list string) : Z :=
  match lines with
  | [] => i
  | line :: rest => codeLinesEnd (i + len (lineText line) + 1) rest
  end.

(** Every index on [openListItemStack] points into [pendingListItems]. *)
Definition openIndicesValid (context : ConversionContext) : Prop :=
  Forall (fun i => (i < length (pendingListItems context))%nat)
         (openListItemStack context).

(** The run over [leaves] from [context] reaches a list_item_open token in
    a state whose list stack is empty. *)
Definition orphanListItem (leaves : list Token) (context : ConversionContext) : Prop :=
  exists before token after reached,
    leaves = before ++ token :: after
    /\ kindOf (type token) = list_item_open
    /\ processLeaves before context = Ok reached
    /\ listStack reached = [].

(** *** Title promotion.  The named styles recorded for headings, in
    document order. *)
Definition rangeStyles (context : ConversionContext) : list string :=
  omap (fun r => truthyString (namedStyleType r)) (paragraphRanges context).

Definition noTitle (names : list string) : Prop :=
  Forall (fun s => s <> "TITLE") names.

Definition noTitleNorH1 (names : list string) : Prop :=
  Forall (fun s => s <> "TITLE" /\ s <> "HEADING_1") names.

(** Either there is neither a title nor a level-1 heading, or there is one
    title, it comes before every level-1 heading, and no title follows. *)
Definition titleFirst (names : list string) : Prop :=
  noTitleNorH1 names
  \/ exists pre post,
       names = pre ++ "TITLE" :: post /\ noTitleNorH1 pre /\ noTitle post.

Definition titleInv (context : ConversionContext) : Prop :=
  match firstHeadingAsTitle context, titleConsumed context with
  | true, false => noTitleNorH1 (rangeStyles context)
  | true, true =>
      exists pre post,
        rangeStyles context = pre ++ "TITLE" :: post
        /\ noTitleNorH1 pre /\ noTitle post
  | false, _ => noTitle (rangeStyles context)
  end.

Definition firstAsTitle : option ConversionOptions := Some (mkOptions (Some true)).

(** *** Task lists.  A text that starts with a checkbox: [mark] between
    brackets, then the white space [ws], then [rest]. *)
Definition taskText (mark : ascii) (ws rest : string) : string :=
  String "["%char (String mark (String "]"%char (ws +:+ rest))).

Definition startsWithNonSpace (s : string) : Prop :=
  match s with
  | String c _ => isWhiteSpace c = false
  | "" => True
  end.

Definition checked (item : PendingListItem) : PendingListItem :=
  mkPendingListItem (li_startIndex item) (li_endIndex item) (nestingLevel item)
    BULLET_CHECKBOX true.

Definition insertedTexts (requests : list Request) : list string :=
  omap (fun r => match r with
                 | InsertTextRequest _ t => Some t
                 | _ => None
                 end) requests.

(** The state inside the first item of a bullet list, before its text. *)
Definition insideFirstItem : ConversionContext :=
  match processTokens
          [Stream.tok "bullet_list_open" "ul"; Stream.tok "list_item_open" "li";
           Stream.tok "paragraph_open" "p"]
          (initialContext 1 None None) with
  | Ok c => c
  | Throw _ => initialContext 1 None None
  end.

(** *** Bullet ranges *)

Definition ascendingStart (a b : PendingListItem) : Prop :=
  li_startIndex a <= li_startIndex b.

Definition descendingStart (a b : MergedListRange) : Prop :=
  m_startIndex b <= m_startIndex a.

(** [item] joins the range [last]: same preset, and it starts no later
    than one past the end of [last]. *)
Definition joins (last : MergedListRange) (item : PendingListItem) : Prop :=
  m_bulletPreset last = bulletPreset item
  /\ li_startIndex item <= m_endIndex last + 1.

Definition covers (r : Request) (offset : Z) : bool :=
  match rangeOf r with
  | Some range => (startIndex range <=? offset) && (offset <? endIndex range)
  | None => false
  end.

(** *** Range lengths *)

Definition positiveRanges (context : ConversionContext) : Prop :=
  Forall (fun r => tr_startIndex r < tr_endIndex r) (textRanges context)
  /\ Forall (fun h => fst h < snd h) (hrRanges context).

(** A request other than a named paragraph style has a non-empty range. *)
Definition nonEmptyUnlessNamedStyle (r : Request) : Prop :=
  match r with
  | InsertTextRequest _ _ => True
  | UpdateParagraphStyleRequest _ (NamedStyle _) => True
  | UpdateTextStyleRequest range _
  | UpdateParagraphStyleRequest range BorderBottom
  | CreateParagraphBulletsRequest range _ => startIndex range < endIndex range
  end.

(** *** Further readings of the output *)

(** The sub-document a request addresses. *)
Definition tabOf (r : Request) : option string :=
  match r with
  | InsertTextRequest location _ => loc_tabId location
  | UpdateTextStyleRequest range _
  | UpdateParagraphStyleRequest range _
  | CreateParagraphBulletsRequest range _ => tabId_of range
  end.

Definition insertsCarryTab (context : ConversionContext) : Prop :=
  Forall (fun r => tabOf r = truthyString (tabId context)) (insertRequests context).


(** *** Horizontal rules.  A rule range is one inserted newline. *)
Definition isRulePlaceholder (context : ConversionContext) (h : Z * Z) : Prop :=
  snd h = fst h + 1
  /\ In (InsertTextRequest (mkLocation (fst h) (truthyString (tabId context))) newline)
        (insertRequests context).

Definition rulesInv (context : ConversionContext) : Prop :=
  Forall (isRulePlaceholder context) (hrRanges context).

Definition borderOverNewline (requests : list Request) (r : Request) : Prop :=
  match r with
  | UpdateParagraphStyleRequest range BorderBottom =>
      endIndex range = startIndex range + 1
      /\ In (InsertTextRequest (mkLocation (startIndex range) (tabId_of range)) newline)
            requests
  | _ => True
  end.

(** ["Above\n\n---\n\nBelow"] *)
Definition aroundRule : list Token :=
  Stream.paragraph "Above" [Stream.txt "Above"]
  ++ [Stream.tok "hr" "hr"]
  ++ Stream.paragraph "Below" [Stream.txt "Below"].

(** Token kinds that leave the last insertion ending in a newline. *)
Definition endsLine (k : TokenKind) (context : ConversionContext) : Prop :=
  k = paragraph_close \/ k = hr \/ k = fence \/ k = code_block \/ k = hardbreak
  \/ (k = list_item_close /\ openListItemStack context <> [])
  \/ (k = heading_close
      /\ (exists l, currentHeadingLevel context = Some (S l))
      /\ is_Some (currentParagraphStart context)).

(** *** Headings and list items *)

(** The kinds of the tokens markdown-it puts inside an [inline] token. *)
Definition isInlineKind (k : TokenKind) : bool :=
  match k with
  | text | code_inline | strong_open | strong_close | em_open | em_close
  | s_open | s_close | link_open | link_close | softbreak | hardbreak => true
  | _ => false
  end.

(** What the tokens inside a heading leave alone. *)
Definition sameHeading (context context' : ConversionContext) : Prop :=
  currentHeadingLevel context' = currentHeadingLevel context
  /\ currentParagraphStart context' = currentParagraphStart context
  /\ paragraphRanges context' = paragraphRanges context
  /\ titleConsumed context' = titleConsumed context.

(** Each entry of the list stack holds its own depth. *)
Definition levelsAreDepths (context : ConversionContext) : Prop :=
  forall i l, listStack context !! i = Some l -> level l = i.

Definition tabs (n : nat) : string := repeat (String (Ascii.ascii_of_nat 9) "") n.

(** The state inside a bullet list nested in a bullet list, before the
    inner item opens. *)
Definition insideNestedList : ConversionContext :=
  match processTokens
          [Stream.tok "bullet_list_open" "ul"; Stream.tok "list_item_open" "li";
           Stream.tok "bullet_list_open" "ul"]
          (initialContext 1 None None) with
  | Ok c => c
  | Throw _ => initialContext 1 None None
  end.

(** *** Ranges stay inside what was inserted *)

Definition itemWithin (lo hi : Z) (item : PendingListItem) : Prop :=
  lo <= li_startIndex item /\ li_startIndex item <= hi
  /\ match li_endIndex item with
     | Some e => li_startIndex item < e /\ e <= hi
     | None => True
     end.

(** Every recorded range lies between [lo] and [hi]. *)
Definition bounded (lo hi : Z) (context : ConversionContext) : Prop :=
  Forall (fun r => lo <= tr_startIndex r /\ tr_startIndex r <= tr_endIndex r
                   /\ tr_endIndex r <= hi) (textRanges context)
  /\ Forall (fun r => lo <= pr_startIndex r /\ pr_startIndex r <= pr_endIndex r
                      /\ pr_endIndex r <= hi) (paragraphRanges context)
  /\ Forall (fun h => lo <= fst h /\ fst h <= snd h /\ snd h <= hi) (hrRanges context)
  /\ Forall (itemWithin lo hi) (pendingListItems context)
  /\ match currentParagraphStart context with
     | Some p => lo <= p /\ p <= hi
     | None => True
     end.

Definition boundsInv (lo : Z) (context : ConversionContext) : Prop :=
  lo <= currentIndex context /\ bounded lo (currentIndex context) context.

Definition rangeWithin (lo hi : Z) (r : Request) : Prop :=
  match rangeOf r with
  | Some range => lo <= startIndex range /\ startIndex range <= endIndex range
                  /\ endIndex range <= hi
  | None => True
  end.

(** *** Plain text *)

(** The kinds that put an entry on the formatting stack or record a code
    range. *)
Definition opensFormatting (k : TokenKind) : bool :=
  match k with
  | strong_open | em_open | s_open | link_open | code_inline | fence | code_block => true
  | _ => false
  end.

Definition unstyled (context : ConversionContext) : Prop :=
  formattingStack context = [] /\ textRanges context = [].

Definition isTextStyle (r : Request) : bool :=
  match r with
  | UpdateTextStyleRequest _ _ => true
  | _ => false
  end.

(** *** Streams that insert nothing *)

(** What decides, as long as nothing has been inserted, whether the next
    token inserts: whether a heading is open, how many lists are open, and
    whether a list item is open and has already met its first text. *)
Record Quiet := mkQuiet {
  q_heading : bool;
  q_lists : nat;
  q_item : option bool }.

Definition quietStart : Quiet := mkQuiet false 0 None.

(** A text inserts unless it is empty, or is nothing but a task prefix met
    as the first text of the open list item. *)
Definition quietText (text : string) (q : Quiet) : option Quiet :=
  if negb (truthy text) then Some q
  else match q_item q with
       | Some false =>
           match matchTaskPrefix text with
           | Some n =>
               if truthy (sliceFrom n text) then None
               else Some (mkQuiet (q_heading q) (q_lists q) (Some true))
           | None => None
           end
       | _ => None
       end.

(** [None]: the token inserts.  [Some q']: it does not, and leaves [q']. *)
Definition quietStep (k : TokenKind) (token : Token) (q : Quiet) : option Quiet :=
  match k with
  | heading_open =>
      match getHeadingLevel token with
      | Some (S _) => Some (mkQuiet true (q_lists q) (q_item q))
      | _ => Some q
      end
  | heading_close => if q_heading q then None else Some q
  | paragraph_close | softbreak | hardbreak | hr | fence | code_block => None
  | text | code_inline => quietText (content token) q
  | bullet_list_open | ordered_list_open =>
      Some (mkQuiet (q_heading q) (S (q_lists q)) (q_item q))
  | bullet_list_close | ordered_list_close =>
      Some (mkQuiet (q_heading q) (Nat.pred (q_lists q)) (q_item q))
  | list_item_open =>
      match q_lists q with
      | O => Some q                                  (* the structural error *)
      | S O => Some (mkQuiet (q_heading q) (q_lists q) (Some false))
      | S (S _) => None                              (* indented by tabs *)
      end
  | list_item_close =>
      match q_item q with
      | Some _ => None
      | None => Some q
      end
  | _ => Some q
  end.

(** No token of [leaves], met in turn from [q], inserts. *)
Fixpoint quiet (q : Quiet) (leaves : list Token) : bool :=
  match leaves with
  | [] => true
  | token :: rest =>
      match quietStep (kindOf (type token)) token q with
      | Some q' => quiet q' rest
      | None => false
      end
  end.

Definition quietState (q : Quiet) (context : ConversionContext) : Prop :=
  insertRequests context = []
  /\ q_heading q = match currentHeadingLevel context with
                   | Some (S _) => true
                   | _ => false
                   end
  /\ (q_heading q = true -> is_Some (currentParagraphStart context))
  /\ q_lists q = length (listStack context)
  /\ levelsAreDepths context
  /\ q_item q = taskPrefixProcessed <$> getCurrentOpenListItem context.

(** ["| a |\n|---|"]: a table of one header cell. *)
Definition oneCellTable : list Token :=
  [Stream.tok "table_open" "table"; Stream.tok "thead_open" "thead";
   Stream.tok "tr_open" "tr"; Stream.tok "th_open" "th";
   Stream.inl "a" [Stream.txt "a"];
   Stream.tok "th_close" "th"; Stream.tok "tr_close" "tr";
   Stream.tok "thead_close" "thead"; Stream.tok "table_close" "table"].

(** ["-"]: a list of one empty item. *)
Definition emptyItem : list Token :=
  [Stream.tok "bullet_list_open" "ul"; Stream.tok "list_item_open" "li";
   Stream.tok "list_item_close" "li"; Stream.tok "bullet_list_close" "ul"].

End MarkdownToDocs.

(** ** The reverse renderer: [docsToMarkdown.ts] *)

Module DocsToMarkdown.
Import JS.

(** *** The Docs JSON the renderer reads.  Every optional property is an
    [option]; a property read only for its truthiness is a [bool]. *)

Record Link := mkLink { url : option string }.

Record TextStyle := mkTextStyle {
  bold : bool;
  italic : bool;
  strikethrough : bool;
  underline : bool;
  link : option Link;
  fontFamily : option string   (* weightedFontFamily?.fontFamily, when a string *) }.

Record TextRun := mkTextRun {
  content : option string;
  textStyle : option TextStyle }.

Record ParagraphElement := mkElement { textRun : option TextRun }.

Record Bullet := mkBullet {
  nestingLevel : option nat;
  listId : option string }.

Record Paragraph := mkParagraph {
  namedStyleType : option string;   (* paragraphStyle?.namedStyleType *)
  bullet : option Bullet;
  elements : option (list ParagraphElement) }.

Record NestingLevel := mkNestingLevel { glyphType : option string }.

Record DocList := mkDocList {
  nestingLevels : option (list NestingLevel)   (* listProperties?.nestingLevels *) }.

(** An element of a cell's content, of which only [paragraph] is read. *)
Record CellElement := mkCellElement { cell_paragraph : option Paragraph }.

Record TableCell := mkTableCell { cell_content : option (list CellElement) }.

Record TableRow := mkTableRow { tableCells : option (list TableCell) }.

Record Table := mkTable { tableRows : option (list TableRow) }.

Inductive StructuralElement :=
| paragraph (p : Paragraph)
| table (t : Table)
| sectionBreak
| otherElement.

Record Body := mkBody { body_content : option (list StructuralElement) }.

Record DocData := mkDocData {
  body : option Body;
  lists : option (gmap string DocList) }.

Definition CODE_FONT_FAMILIES : gset string :=
  {[ "Roboto Mono"; "Courier New"; "Consolas"; "monospace" ]}.

(** *** Text run conversion *)

Definition isCodeStyled (style : TextStyle) : bool :=
  match fontFamily style with
  | Some family => bool_decide (family ∈ CODE_FONT_FAMILIES)
  | None => false
  end.

(** [text.replace(/\n$/, '')] *)
Definition stripFinalNewline (s : string) : string :=
  if endsWith s newline then dropLast s else s.

Definition linkUrl (style : TextStyle) : option string :=
  match link style with
  | Some l => match url l with
              | Some u => if truthy u then Some u else None
              | None => None
              end
  | None => None
  end.

Definition convertTextRun (run : TextRun) : string :=
  let text := default "" (content run) in
  match textStyle run with
  | None => text
  | Some style =>
      if isCodeStyled style then
        let trimmed := stripFinalNewline text in
        if truthy trimmed
        then "`" +:+ trimmed +:+ "`" +:+ (if endsWith text newline then newline else "")
        else text
      else
        let trailingNewline := endsWith text newline in
        let body := if trailingNewline then dropLast text else text in
        if negb (truthy body) then text
        else
          let formatted := body in
          let formatted :=
            if bold style && italic style then "***" +:+ formatted +:+ "***"
            else if bold style then "**" +:+ formatted +:+ "**"
            else if italic style then "*" +:+ formatted +:+ "*"
            else formatted in
          let formatted :=
            if strikethrough style then "~~" +:+ formatted +:+ "~~" else formatted in
          let formatted :=
            if underline style && negb (bool_decide (is_Some (link style)))
            then "<u>" +:+ formatted +:+ "</u>" else formatted in
          let formatted :=
            match linkUrl style with
            | Some u => "[" +:+ formatted +:+ "](" +:+ u +:+ ")"
            | None => formatted
            end in
          formatted +:+ (if trailingNewline then newline else "")
  end.

Definition extractFormattedText (elements : list ParagraphElement) : string :=
  fold_left
    (fun result element =>
       match textRun element with
       | Some run => result +:+ convertTextRun run
       | None => result
       end)
    elements "".

(** *** Heading detection *)

Definition getHeadingLevel (p : Paragraph) : option nat :=
  match namedStyleType p with
  | None => None
  | Some styleType =>
      if negb (truthy styleType) then None
      else if String.eqb styleType "TITLE" then Some 1%nat
      else if String.eqb styleType "SUBTITLE" then Some 2%nat
      else
        (* /^HEADING_(\d)$/ *)
        if startsWith styleType "HEADING_" then
          match sliceFrom 8 styleType with
          | String d "" => if isDigit d then Some (digitValue d) else None
          | _ => None
          end
        else None
  end.

(** *** List detection *)

Record ListInfo := mkListInfo { ordered : bool; li_nestingLevel : nat }.

Definition getListInfo (p : Paragraph) (lists : gmap string DocList) : option ListInfo :=
  match bullet p with
  | None => None
  | Some b =>
      let nesting := default 0%nat (nestingLevel b) in
      let isOrdered :=
        match listId b with
        | Some id =>
            if truthy id then
              match lists !! id with
              | Some l =>
                  match nestingLevels l with
                  | Some levels =>
                      match levels !! nesting with
                      | Some lvl =>
                          match glyphType lvl with
                          | Some g =>
                              truthy g && negb (String.eqb g "GLYPH_TYPE_UNSPECIFIED")
                          | None => false
                          end
                      | None => false
                      end
                  | None => false
                  end
              | None => false
              end
            else false
        | None => false
        end in
      Some (mkListInfo isOrdered nesting)
  end.

(** *** Paragraph conversion *)

Definition convertParagraph (p : Paragraph) (lists : gmap string DocList) : string :=
  let headingLevel := getHeadingLevel p in
  let listInfo := getListInfo p lists in
  let text := extractFormattedText (default [] (elements p)) in
  let trimmedText := trim text in
  match headingLevel, truthy trimmedText with
  | Some (S l), true =>
      repeat "#" (Nat.min (S l) 6) +:+ " " +:+ trimmedText +:+ newline +:+ newline
  | _, _ =>
      match listInfo, truthy trimmedText with
      | Some info, true =>
          repeat "  " (li_nestingLevel info)
            +:+ (if ordered info then "1." else "-")
            +:+ " " +:+ trimmedText +:+ newline
      | _, _ =>
          if truthy trimmedText then trimmedText +:+ newline +:+ newline else newline
      end
  end.

(** *** Table conversion *)

Definition extractCellText (cell : TableCell) : string :=
  match cell_content cell with
  | None => ""
  | Some content =>
      fold_left
        (fun text element =>
           match cell_paragraph element with
           | Some p =>
               match elements p with
               | Some pes =>
                   fold_left
                     (fun text pe =>
                        match textRun pe with
                        | Some run =>
                            match DocsToMarkdown.content run with
                            | Some c =>
                                if truthy c then text +:+ trim (replaceNewlines c) else text
                            | None => text
                            end
                        | None => text
                        end)
                     pes text
               | None => text
               end
           | None => text
           end)
        content ""
  end.

(** The loop of [convertTable]; the state is [(markdown, isFirstRow)]. *)
Definition convertRow (state : string * bool) (row : TableRow) : string * bool :=
  let '(markdown, isFirstRow) := state in
  match tableCells row with
  | None => state
  | Some cells =>
      let rowText :=
        fold_left (fun rowText cell => rowText +:+ " " +:+ extractCellText cell +:+ " |")
                  cells "|" in
      let markdown := markdown +:+ rowText +:+ newline in
      if isFirstRow then
        let separator := fold_left (fun separator _ => separator +:+ " --- |") cells "|" in
        (markdown +:+ separator +:+ newline, false)
      else (markdown, isFirstRow)
  end.

Definition convertTable (t : Table) : string :=
  match tableRows t with
  | None => ""
  | Some [] => ""
  | Some rows => fst (fold_left convertRow rows (newline, true)) +:+ newline
  end.

(** *** Main conversion *)

Definition docsJsonToMarkdown (docData : DocData) : string :=
  match body docData with
  | None => ""
  | Some b =>
      match body_content b with
      | None => ""
      | Some content =>
          let lists := default ∅ (lists docData) in
          trim
            (fold_left
               (fun markdown element =>
                  match element with
                  | paragraph p => markdown +:+ convertParagraph p lists
                  | table t => markdown +:+ convertTable t
                  | sectionBreak => markdown +:+ newline +:+ "---" +:+ newline +:+ newline
                  | otherElement => markdown
                  end)
               content "")
      end
  end.

End DocsToMarkdown.

(** ** The inline markers as the specification words them (section 4.2) *)

Module RenderSpec.
Import JS DocsToMarkdown.

Definition wrap (opening closing s : string) : string := opening +:+ s +:+ closing.

(** bold and italic together, bold alone, italic alone *)
Definition emphasis (style : TextStyle) (s : string) : string :=
  match bold style, italic style with
  | true, true => wrap "***" "***" s
  | true, false => wrap "**" "**" s
  | false, true => wrap "*" "*" s
  | false, false => s
  end.

Definition struck (style : TextStyle) (s : string) : string :=
  if strikethrough style then wrap "~~" "~~" s else s.

(** underline, unless the run carries a link *)
Definition underlined (style : TextStyle) (s : string) : string :=
  match link style with
  | None => if underline style then wrap "<u>" "</u>" s else s
  | Some _ => s
  end.

(** the link construct, outermost *)
Definition linked (style : TextStyle) (s : string) : string :=
  match linkUrl style with
  | Some u => wrap "[" ("](" +:+ u +:+ ")") s
  | None => s
  end.

(** A monospace run gets backticks and nothing else; any other run gets
    emphasis, then strikethrough, then underline, then the link. *)
Definition decorate (style : TextStyle) (s : string) : string :=
  if isCodeStyled style then wrap "`" "`" s
  else linked style (underlined style (struck style (emphasis style s))).

(** What one block of the body contributes to the output. *)
Definition renderBlock (lists : gmap string DocList) (element : StructuralElement) : string :=
  match element with
  | paragraph p => convertParagraph p lists
  | table t => convertTable t
  | sectionBreak => newline +:+ "---" +:+ newline +:+ newline
  | otherElement => ""
  end.

(** A body of one paragraph holding a lone newline, and an element that is
    neither a paragraph, a table nor a section break. *)
Definition blankDocument : DocData :=
  mkDocData
    (Some (mkBody (Some [paragraph (mkParagraph None None
                                      (Some [mkElement (Some (mkTextRun (Some newline) None))]));
                         otherElement])))
    None.

End RenderSpec.

(** ** The lines of a rendered table *)

Module TableSpec.
Import JS DocsToMarkdown.

Definition joinAll (parts : list string) : string := foldr String.append "" parts.

Definition cellText (cell : TableCell) : string := " " +:+ extractCellText cell +:+ " |".

Definition rowLine (cells : list TableCell) : string :=
  "|" +:+ joinAll (cellText <$> cells).

Definition separatorLine (cells : list TableCell) : string :=
  "|" +:+ repeat " --- |" (length cells).

(** The rows that have a [tableCells] array, the separator after the first
    of them. *)
Definition tableLines (rows : list TableRow) : list string :=
  match omap tableCells rows with
  | [] => []
  | header :: rest => rowLine header :: separatorLine header :: (rowLine <$> rest)
  end.

Definition line (s : string) : string := s +:+ newline.

(** The rendering of the runs that are there, one after the other. *)
Definition runsOf (elements : list ParagraphElement) : list TextRun := omap textRun elements.

End TableSpec.

(** ** The request count of [insertMarkdown] ([index.ts]) *)

Module InsertMarkdown.
Import MarkdownToDocs.

(** [Object.keys(r)[0]]: the single property a request object has. *)
Definition typeKey (r : Request) : string :=
  match r with
  | InsertTextRequest _ _ => "insertText"
  | UpdateTextStyleRequest _ _ => "updateTextStyle"
  | UpdateParagraphStyleRequest _ _ => "updateParagraphStyle"
  | CreateParagraphBulletsRequest _ _ => "createParagraphBullets"
  end.

(** [requestsByType[type] = (requestsByType[type] || 0) + 1] *)
Definition countRequest (requestsByType : gmap string nat) (r : Request) : gmap string nat :=
  let type := typeKey r in
  <[type := (match requestsByType !! type with
             | Some n => if (n =? 0)%nat then 0%nat else n
             | None => 0%nat
             end + 1)%nat]> requestsByType.

Definition requestsByType (requests : list Request) : gmap string nat :=
  fold_left countRequest requests ∅.

Definition hasType (type : string) (r : Request) : bool := String.eqb (typeKey r) type.

End InsertMarkdown.

(** * Properties *)

(** ** Strings *)

Section StringFacts.
Import JS.

Lemma append_cons (c : ascii) (a b : string) : String c a +:+ b = String c (a +:+ b).
Proof. reflexivity. Qed.

Lemma append_empty_l (s : string) : "" +:+ s = s.
Proof. reflexivity. Qed.

Lemma append_empty_r (s : string) : s +:+ "" = s.
Proof.
  induction s as [|c s IH]; [reflexivity | now rewrite append_cons, IH].
Qed.

Lemma append_assoc (a b c : string) : (a +:+ b) +:+ c = a +:+ (b +:+ c).
Proof.
  induction a as [|x a IH]; [reflexivity | now rewrite !append_cons, IH].
Qed.

Lemma len_append (a b : string) : len (a +:+ b) = len a + len b.
Proof.
  unfold len. induction a as [|x a IH]; [reflexivity|].
  rewrite append_cons. simpl String.length. lia.
Qed.

Lemma len_nonneg (s : string) : 0 <= len s.
Proof. unfold len. lia. Qed.

Lemma truthy_true (s : string) : truthy s = true <-> s <> "".
Proof.
  unfold truthy. destruct (String.eqb_spec s ""); simpl; split; congruence.
Qed.

Lemma truthy_len (s : string) : truthy s = true -> 0 < len s.
Proof. destruct s; [discriminate | unfold len; simpl; lia]. Qed.

Lemma endsWith_cons (c : ascii) (s suffix : string) :
  endsWith (String c s) suffix
  = if String.eqb (String c s) suffix then true else endsWith s suffix.
Proof. reflexivity. Qed.

Lemma endsWith_append_newline (s : string) : endsWith (s +:+ newline) newline = true.
Proof.
  induction s as [|c s IH]; [reflexivity|].
  rewrite append_cons, endsWith_cons, IH. now destruct (String.eqb _ _).
Qed.

Lemma dropLast_append_char (s : string) (c : ascii) : dropLast (s +:+ String c "") = s.
Proof.
  induction s as [|x s IH]; [reflexivity|].
  rewrite append_cons. simpl. rewrite IH. destruct s; reflexivity.
Qed.

Lemma dropLast_append_newline (s : string) : dropLast (s +:+ newline) = s.
Proof. apply dropLast_append_char. Qed.

(** A string that ends with a newline is what precedes it, then the newline. *)
Lemma endsWith_newline_split (s : string) :
  endsWith s newline = true -> s = dropLast s +:+ newline.
Proof.
  induction s as [|c s IH]; [discriminate|].
  rewrite endsWith_cons. destruct (String.eqb_spec (String c s) newline) as [E|N].
  - intros _. injection E as -> ->. reflexivity.
  - intros H. destruct s as [|d s]; [discriminate|].
    rewrite (IH H) at 1. reflexivity.
Qed.

Lemma allWhiteSpace_append (a b : string) :
  allWhiteSpace a -> allWhiteSpace b -> allWhiteSpace (a +:+ b).
Proof.
  unfold allWhiteSpace. induction a as [|c a IH]; [auto|].
  rewrite append_cons. simpl. destruct (isWhiteSpace c); [auto | discriminate].
Qed.

Lemma trimStart_head (s : string) (c : ascii) (r : string) :
  trimStart s = String c r -> isWhiteSpace c = false.
Proof.
  induction s as [|x s IH]; simpl; [discriminate|].
  destruct (isWhiteSpace x) eqn:E; [exact IH|].
  intros H. injection H as <- _. exact E.
Qed.

(** [trimEnd] only removes from the right: what it keeps starts the same. *)
Lemma trimEnd_head (s : string) (c : ascii) (r : string) :
  trimEnd s = String c r -> exists r', s = String c r'.
Proof.
  destruct s as [|x s]; simpl; [discriminate|].
  destruct (trimEnd s); [destruct (isWhiteSpace x)|];
    intros H; try discriminate; injection H as <- _; eauto.
Qed.

Lemma trimEnd_last (s r : string) (c : ascii) :
  trimEnd s = r +:+ String c "" -> isWhiteSpace c = false.
Proof.
  revert r. induction s as [|x s IH]; intros r; simpl.
  - destruct r; discriminate.
  - destruct (trimEnd s) as [|y t] eqn:E.
    + destruct (isWhiteSpace x) eqn:W.
      * destruct r; discriminate.
      * destruct r as [|z [|? ?]]; rewrite ?append_cons, ?append_empty_l;
          intros H; try discriminate.
        injection H as ->. exact W.
    + destruct r as [|z r]; rewrite ?append_cons, ?append_empty_l; intros H;
        [discriminate|].
      injection H as _ H. exact (IH r H).
Qed.

Lemma trim_no_leading_space (s : string) (c : ascii) (r : string) :
  trim s = String c r -> isWhiteSpace c = false.
Proof.
  unfold trim. intros H. destruct (trimEnd_head _ _ _ H) as [r' H'].
  exact (trimStart_head _ _ _ H').
Qed.

Lemma trim_no_trailing_space (s r : string) (c : ascii) :
  trim s = r +:+ String c "" -> isWhiteSpace c = false.
Proof. unfold trim. apply trimEnd_last. Qed.

Lemma trim_allWhiteSpace (s : string) : allWhiteSpace s -> trim s = "".
Proof. unfold allWhiteSpace, trim. now intros ->. Qed.

End StringFacts.

(** ** The reverse renderer *)

Section Renderer.
Import JS DocsToMarkdown RenderSpec.

Lemma stripFinalNewline_split (s : string) :
  s = stripFinalNewline s +:+ (if endsWith s newline then newline else "").
Proof.
  unfold stripFinalNewline. destruct (endsWith s newline) eqn:E.
  - now apply endsWith_newline_split.
  - now rewrite append_empty_r.
Qed.

Lemma convertTextRun_decorate (style : TextStyle) (s : string) :
  stripFinalNewline s <> "" ->
  convertTextRun (mkTextRun (Some s) (Some style))
  = decorate style (stripFinalNewline s)
    +:+ (if endsWith s newline then newline else "").
Proof.
  intros Hne. apply truthy_true in Hne.
  unfold convertTextRun, decorate, linked, underlined, struck, emphasis, wrap.
  simpl content. simpl textStyle. simpl default. cbv beta iota zeta.
  destruct (isCodeStyled style).
  - rewrite Hne. now rewrite !append_assoc.
  - fold (stripFinalNewline s). rewrite Hne. simpl negb. cbv iota.
    destruct (bold style), (italic style), (strikethrough style),
      (underline style), (link style) as [l|], (linkUrl style) as [u|];
      simpl; rewrite ?append_assoc; reflexivity.
Qed.

(** C8. Inline runs: a monospace run is wrapped in backticks only; any other
    run is wrapped for bold/italic ([***], [**], [*]), then strikethrough
    ([~~]), then underline without a link ([<u>]), then the link construct
    outermost; a final newline of the raw text is taken off before the
    markers are applied and put back after them.  A bold italic run ["x"]
    renders as [***x***], and with strikethrough as [~~***x***~~]. *)
Theorem inline_run_markers :
  (forall (style : TextStyle) (s : string),
      stripFinalNewline s <> "" ->
      s = stripFinalNewline s +:+ (if endsWith s newline then newline else "")
      /\ convertTextRun (mkTextRun (Some s) (Some style))
         = decorate style (stripFinalNewline s)
           +:+ (if endsWith s newline then newline else ""))
  /\ convertTextRun
       (mkTextRun (Some "x") (Some (mkTextStyle true true false false None None)))
     = "***x***"
  /\ convertTextRun
       (mkTextRun (Some "x") (Some (mkTextStyle true true true false None None)))
     = "~~***x***~~".
Proof.
  split; [|split; reflexivity].
  intros style s Hne. split.
  - apply stripFinalNewline_split.
  - now apply convertTextRun_decorate.
Qed.

Lemma inline_run_markers_witness :
  stripFinalNewline ("code" +:+ newline) <> ""
  /\ convertTextRun
       (mkTextRun (Some ("code" +:+ newline))
          (Some (mkTextStyle true false true true None (Some "Consolas"))))
     = "`code`" +:+ newline.
Proof.
  split; [discriminate|].
  exact (proj2 (proj1 inline_run_markers
                  (mkTextStyle true false true true None (Some "Consolas"))
                  ("code" +:+ newline) ltac:(discriminate))).
Defined.

(** C10. A styled run whose content is empty, absent, or a lone newline is
    returned as it is, whatever its style: no emphasis, strikethrough,
    underline or link marker, and no backticks for a monospace font. *)
Theorem empty_run_unchanged (style : TextStyle) :
  convertTextRun (mkTextRun (Some "") (Some style)) = ""
  /\ convertTextRun (mkTextRun None (Some style)) = ""
  /\ convertTextRun (mkTextRun (Some newline) (Some style)) = newline
  /\ convertTextRun
       (mkTextRun (Some newline)
          (Some (mkTextStyle true true true true
                   (Some (mkLink (Some "https://example.com"))) (Some "Roboto Mono"))))
     = newline.
Proof.
  unfold convertTextRun. simpl.
  destruct (isCodeStyled style); repeat split; reflexivity.
Qed.

Lemma fold_renderBlock (lists : gmap string DocList) (blocks : list StructuralElement)
    (acc : string) :
  allWhiteSpace acc ->
  Forall (fun e => allWhiteSpace (renderBlock lists e)) blocks ->
  allWhiteSpace
    (fold_left
       (fun markdown element =>
          match element with
          | paragraph p => markdown +:+ convertParagraph p lists
          | table t => markdown +:+ convertTable t
          | sectionBreak => markdown +:+ newline +:+ "---" +:+ newline +:+ newline
          | otherElement => markdown
          end) blocks acc).
Proof.
  intros Hacc Hall. revert acc Hacc.
  induction Hall as [|e blocks He _ IH]; intros acc Hacc; [exact Hacc|].
  simpl fold_left. apply IH.
  destruct e; simpl in He; try (now apply allWhiteSpace_append).
  exact Hacc.
Qed.

(** C9. The rendered markdown never starts or ends with white space: the
    concatenated blocks are trimmed.  A document without a body, without
    body content, or whose blocks all render to white space gives the empty
    string. *)
Theorem rendered_markdown_is_trimmed (docData : DocData) :
  (forall c r, docsJsonToMarkdown docData = String c r -> isWhiteSpace c = false)
  /\ (forall r c, docsJsonToMarkdown docData = r +:+ String c "" -> isWhiteSpace c = false)
  /\ (body docData = None -> docsJsonToMarkdown docData = "")
  /\ (forall b, body docData = Some b -> body_content b = None ->
                docsJsonToMarkdown docData = "")
  /\ (forall b blocks,
         body docData = Some b -> body_content b = Some blocks ->
         Forall (fun e => allWhiteSpace (renderBlock (default ∅ (lists docData)) e)) blocks ->
         docsJsonToMarkdown docData = "").
Proof.
  unfold docsJsonToMarkdown.
  destruct (body docData) as [b|]; [destruct (body_content b) as [blocks|] eqn:Eb|].
  - repeat split.
    + intros c r. apply trim_no_leading_space.
    + intros r c. apply trim_no_trailing_space.
    + discriminate.
    + intros b' [= <-]. congruence.
    + intros b' blocks' [= <-] E Hall. rewrite Eb in E. injection E as <-.
      apply trim_allWhiteSpace. now apply fold_renderBlock.
  - repeat split; try discriminate; try reflexivity.
    intros [|? ?] ?; discriminate.
  - repeat split; try discriminate; try reflexivity.
    intros [|? ?] ?; discriminate.
Qed.

Lemma rendered_markdown_is_trimmed_witness : docsJsonToMarkdown blankDocument = "".
Proof.
  refine (proj2 (proj2 (proj2 (proj2 (rendered_markdown_is_trimmed blankDocument))))
            _ _ eq_refl eq_refl _).
  repeat constructor.
Defined.

End Renderer.

(** ** The forward compiler *)

(** Case analysis on every conditional of a handler body. *)
Ltac split_conditionals :=
  cbv zeta;
  repeat match goal with
         | |- context [if ?b then _ else _] => destruct b eqn:?
         | |- context [match ?b with Some _ => _ | None => _ end] => destruct b eqn:?
         | |- context [match ?b with O => _ | S _ => _ end] => destruct b eqn:?
         end.

(** Drop, from the goal, the assignments to fields the goal does not look at. *)
Ltac strip_assignments :=
  repeat match goal with
         | |- context C [MarkdownToDocs.set_textRanges ?v ?x] =>
             let g := context C [x] in change g
         | |- context C [MarkdownToDocs.set_formattingStack ?v ?x] =>
             let g := context C [x] in change g
         | |- context C [MarkdownToDocs.set_listStack ?v ?x] =>
             let g := context C [x] in change g
         | |- context C [MarkdownToDocs.set_paragraphRanges ?v ?x] =>
             let g := context C [x] in change g
         | |- context C [MarkdownToDocs.set_pendingListItems ?v ?x] =>
             let g := context C [x] in change g
         | |- context C [MarkdownToDocs.set_openListItemStack ?v ?x] =>
             let g := context C [x] in change g
         | |- context C [MarkdownToDocs.set_hrRanges ?v ?x] =>
             let g := context C [x] in change g
         | |- context C [MarkdownToDocs.set_currentParagraphStart ?v ?x] =>
             let g := context C [x] in change g
         | |- context C [MarkdownToDocs.set_currentHeadingLevel ?v ?x] =>
             let g := context C [x] in change g
         | |- context C [MarkdownToDocs.set_titleConsumed ?v ?x] =>
             let g := context C [x] in change g
         | |- context C [MarkdownToDocs.insertText ?v ?x] =>
             let g := context C [x] in change g
         end.

(** The same on a hypothesis [H : ... = Ok c'], down to [c'] itself. *)
Ltac split_result H :=
  cbv zeta in H;
  repeat match type of H with
         | context [if ?b then _ else _] => destruct b eqn:?
         | context [match ?b with Some _ => _ | None => _ end] => destruct b eqn:?
         end;
  try discriminate H;
  try (injection H as <-).

Ltac unfold_handlers :=
  unfold MarkdownToDocs.handleHeadingOpen, MarkdownToDocs.handleHeadingClose,
    MarkdownToDocs.handleHorizontalRule, MarkdownToDocs.handleParagraphOpen,
    MarkdownToDocs.handleParagraphClose, MarkdownToDocs.handleCodeInlineToken,
    MarkdownToDocs.handleTextToken, MarkdownToDocs.emitText,
    MarkdownToDocs.pushFormatting, MarkdownToDocs.popFormatting,
    MarkdownToDocs.handleCodeBlockToken,
    MarkdownToDocs.pushList, MarkdownToDocs.popList.

Section Cursor.
Import JS MarkdownToDocs.

Lemma chainFrom_app (i : Z) (a b : list Request) :
  chainFrom i (a ++ b) = chainFrom i a ≫= fun j => chainFrom j b.
Proof.
  revert i. induction a as [|r a IH]; intros i; [reflexivity|].
  destruct r as [location t| | |]; try reflexivity.
  simpl. destruct (index location =? i); [apply IH | reflexivity].
Qed.

Lemma advances_refl (c : ConversionContext) : advances c c.
Proof. exists []. now rewrite app_nil_r. Qed.

Lemma advances_trans (a b c : ConversionContext) :
  advances a b -> advances b c -> advances a c.
Proof.
  intros (n1 & E1 & C1) (n2 & E2 & C2). exists (n1 ++ n2). split.
  - now rewrite E2, E1, app_assoc.
  - rewrite chainFrom_app, C1. exact C2.
Qed.

Lemma advances_insertText (t : string) (c : ConversionContext) :
  advances c (insertText t c).
Proof.
  eexists. split; [reflexivity|]. simpl. now rewrite Z.eqb_refl.
Qed.

End Cursor.

Section CursorSteps.
Import JS MarkdownToDocs.

Lemma advances_then_insertText (t : string) (c x : ConversionContext) :
  advances c x -> advances c (insertText t x).
Proof. intros H. exact (advances_trans _ _ _ H (advances_insertText t x)). Qed.

Lemma advances_update (f : PendingListItem -> PendingListItem) (c x : ConversionContext) :
  advances c x -> advances c (updateCurrentOpenListItem f x).
Proof.
  intros H. unfold updateCurrentOpenListItem. split_conditionals; exact H.
Qed.

Lemma advances_codeLines (lines : list string) (c x : ConversionContext) :
  advances c x -> advances c (fold_left emitCodeLine lines x).
Proof.
  revert x. induction lines as [|line lines IH]; intros x H; [exact H|].
  simpl fold_left. apply IH. unfold emitCodeLine. split_conditionals;
    apply advances_then_insertText; strip_assignments;
    now apply advances_then_insertText.
Qed.

Ltac cursor_steps :=
  repeat first [ apply advances_refl
               | apply advances_then_insertText
               | apply advances_update
               | apply advances_codeLines
               | progress strip_assignments ].

Lemma processLeaf_advances (k : TokenKind) (t : Token) (c c' : ConversionContext) :
  processLeaf k t c = Ok c' -> advances c c'.
Proof.
  destruct k; simpl; unfold handleListItemOpen, handleListItemClose;
    intros H; split_result H.
  all: unfold_handlers; split_conditionals; cursor_steps.
Qed.
End CursorSteps.

Section Flattening.
Import JS MarkdownToDocs.

(** Induction on tokens, with the hypothesis for all children. *)
Lemma Token_nested_ind (P : Token -> Prop) :
  (forall ty tg a ct cs, Forall P cs -> P (mkToken ty tg a ct cs)) ->
  forall t, P t.
Proof.
  intros step. fix IH 1. intros [ty tg a ct cs]. apply step.
  induction cs as [|child cs IHcs]; constructor; [apply IH | exact IHcs].
Qed.

Lemma processLeaves_app (a b : list Token) (c : ConversionContext) :
  processLeaves (a ++ b) c = bind (processLeaves a c) (processLeaves b).
Proof.
  revert c. induction a as [|t a IH]; intros c; [reflexivity|].
  simpl. destruct (processLeaf _ t c); simpl; [apply IH | reflexivity].
Qed.

Lemma processToken_flatten (t : Token) (c : ConversionContext) :
  processToken t c = processLeaves (flatten t) c.
Proof.
  revert c. induction t as [ty tg a ct cs IH] using Token_nested_ind. intros c.
  simpl. destruct (kindOf ty) eqn:K; simpl; rewrite ?K; simpl;
    try reflexivity;
    try (match goal with
         | |- ?l = bind ?l _ => now destruct l
         end).
  revert c. induction IH as [|child cs Hchild _ IHcs]; intros c; [reflexivity|].
  rewrite processLeaves_app, <- Hchild.
  destruct (processToken child c); simpl; [apply IHcs | reflexivity].
Qed.

Lemma processTokens_flatten (tokens : list Token) (c : ConversionContext) :
  processTokens tokens c = processLeaves (flattenAll tokens) c.
Proof.
  revert c. induction tokens as [|t tokens IH]; intros c; [reflexivity|].
  simpl. rewrite processLeaves_app, <- processToken_flatten.
  destruct (processToken t c); simpl; [apply IH | reflexivity].
Qed.

(** A property kept by every leaf step is kept by a whole run. *)
Lemma processLeaves_preserves (P : ConversionContext -> Prop) :
  (forall k t c c', P c -> processLeaf k t c = Ok c' -> P c') ->
  forall leaves c c', P c -> processLeaves leaves c = Ok c' -> P c'.
Proof.
  intros step. induction leaves as [|t leaves IH]; intros c c' Hc H.
  - now injection H as <-.
  - simpl in H. destruct (processLeaf _ t c) as [c1|] eqn:E; [|discriminate].
    exact (IH _ _ (step _ _ _ _ Hc E) H).
Qed.

Lemma processTokens_preserves (P : ConversionContext -> Prop) :
  (forall k t c c', P c -> processLeaf k t c = Ok c' -> P c') ->
  forall tokens c c', P c -> processTokens tokens c = Ok c' -> P c'.
Proof.
  intros step tokens c c'. rewrite processTokens_flatten.
  now apply processLeaves_preserves.
Qed.

End Flattening.

Section Settings.
Import JS MarkdownToDocs.

Lemma sameSettings_update (f : PendingListItem -> PendingListItem)
    (c x : ConversionContext) :
  sameSettings c x -> sameSettings c (updateCurrentOpenListItem f x).
Proof.
  intros H. unfold updateCurrentOpenListItem. split_conditionals; exact H.
Qed.

Lemma sameSettings_codeLines (lines : list string) (c x : ConversionContext) :
  sameSettings c x -> sameSettings c (fold_left emitCodeLine lines x).
Proof.
  revert x. induction lines as [|line lines IH]; intros x H; [exact H|].
  simpl fold_left. apply IH. unfold emitCodeLine.
  split_conditionals; strip_assignments; exact H.
Qed.

Lemma processLeaf_sameSettings (k : TokenKind) (t : Token) (c c' : ConversionContext) :
  processLeaf k t c = Ok c' -> sameSettings c c'.
Proof.
  destruct k; simpl; unfold handleListItemOpen, handleListItemClose;
    intros H; split_result H.
  all: unfold_handlers; split_conditionals;
    repeat first [ apply sameSettings_update | apply sameSettings_codeLines
                 | progress strip_assignments ];
    repeat split.
Qed.

Lemma processTokens_sameSettings (tokens : list Token) (c c' : ConversionContext) :
  processTokens tokens c = Ok c' -> sameSettings c c'.
Proof.
  apply (processTokens_preserves (sameSettings c)); [|repeat split].
  intros k t x x' (E1 & E2 & E3) H.
  destruct (processLeaf_sameSettings _ _ _ _ H) as (F1 & F2 & F3).
  repeat split; congruence.
Qed.

Lemma processTokens_advances (tokens : list Token) (c c' : ConversionContext) :
  processTokens tokens c = Ok c' -> advances c c'.
Proof.
  apply (processTokens_preserves (advances c)); [|apply advances_refl].
  intros k t x x' Hx H.
  exact (advances_trans _ _ _ Hx (processLeaf_advances _ _ _ _ H)).
Qed.

Lemma processToken_advances (t : Token) (c c' : ConversionContext) :
  processToken t c = Ok c' -> advances c c'.
Proof.
  rewrite processToken_flatten.
  apply (processLeaves_preserves (advances c)); [|apply advances_refl].
  intros k t' x x' Hx H.
  exact (advances_trans _ _ _ Hx (processLeaf_advances _ _ _ _ H)).
Qed.

Lemma chainFrom_sum (requests : list Request) (i j : Z) :
  chainFrom i requests = Some j ->
  j = i + insertedLength requests /\ i <= j /\ List.filter isInsert requests = requests.
Proof.
  revert i. induction requests as [|r requests IH]; intros i H.
  - injection H as <-. simpl. repeat split; lia.
  - destruct r as [location t| | |]; try discriminate. simpl in H.
    destruct (index location =? i); [|discriminate].
    destruct (IH _ H) as (-> & Hle & Hf). simpl. rewrite Hf.
    pose proof (len_nonneg t). repeat split; lia.
Qed.

Lemma advances_cursor (c c' : ConversionContext) :
  advances c c' -> currentIndex c <= currentIndex c'.
Proof. intros (new & _ & H). now destruct (chainFrom_sum _ _ _ H) as (_ & ? & _). Qed.

Lemma advances_nonempty (c c' : ConversionContext) :
  advances c c' -> insertRequests c <> [] -> insertRequests c' <> [].
Proof.
  intros (new & -> & _) H E. apply app_eq_nil in E. now destruct E.
Qed.

End Settings.

Section CodeBlocks.
Import JS MarkdownToDocs.

Lemma lastOf_app {A} (l : list A) (x : A) : lastOf (l ++ [x]) = Some x.
Proof. unfold lastOf. rewrite fmap_app. apply last_last. Qed.

Lemma split_nonempty (sep : ascii) (s : string) : split sep s <> [].
Proof.
  destruct s as [|c s]; simpl; [discriminate|].
  destruct (Ascii.eqb c sep); [discriminate|].
  destruct (split sep s); discriminate.
Qed.

Lemma codeBlockLines_split (s : string) :
  codeBlockLines s = split LF (if endsWith s newline then dropLast s else s).
Proof.
  unfold codeBlockLines. destruct (if endsWith s newline then dropLast s else s);
    reflexivity.
Qed.

Lemma emitCodeLine_eq (x : ConversionContext) (line : string) :
  emitCodeLine x line
  = insertText newline
      (set_textRanges
         (textRanges x
            ++ [mkTextRange (currentIndex x) (currentIndex x + len (lineText line)) codeOnly])
         (insertText (lineText line) x)).
Proof. destruct line; reflexivity. Qed.

Lemma len_newline : len newline = 1.
Proof. reflexivity. Qed.

Lemma fold_emitCodeLine (lines : list string) (x : ConversionContext) :
  let x' := fold_left emitCodeLine lines x in
  insertRequests x'
  = insertRequests x
      ++ codeLineInsertions (truthyString (tabId x)) (currentIndex x) lines
  /\ textRanges x' = textRanges x ++ codeLineRanges (currentIndex x) lines
  /\ currentIndex x' = codeLinesEnd (currentIndex x) lines
  /\ tabId x' = tabId x.
Proof.
  revert x. induction lines as [|line lines IH]; intros x.
  - simpl. now rewrite !app_nil_r.
  - simpl fold_left. destruct (IH (emitCodeLine x line)) as (E1 & E2 & E3 & E4).
    cbv zeta. rewrite E1, E2, E3, E4, emitCodeLine_eq. simpl.
    rewrite len_newline, <- !app_assoc. repeat split.
Qed.

Lemma codeLineInsertions_last (tab : option string) (i : Z) (lines : list string) :
  lines <> [] ->
  exists pre location,
    codeLineInsertions tab i lines = pre ++ [InsertTextRequest location newline].
Proof.
  revert i. induction lines as [|line lines IH]; intros i Hne; [congruence|].
  destruct lines as [|line' lines].
  - simpl. eexists [_], _. reflexivity.
  - remember (line' :: lines) as rest eqn:R.
    destruct (IH (i + len (lineText line) + 1) ltac:(subst; discriminate))
      as (pre & location & E).
    simpl. rewrite E.
    eexists (_ :: _ :: pre), location. reflexivity.
Qed.

Lemma codeLineRanges_spec (i : Z) (lines : list string) :
  length (codeLineRanges i lines) = length lines
  /\ Forall (fun r => tr_startIndex r < tr_endIndex r /\ formatting r = codeOnly)
            (codeLineRanges i lines).
Proof.
  revert i. induction lines as [|line lines IH]; intros i; simpl; [auto|].
  destruct (IH (i + len (lineText line) + 1)) as (E & F). split; [now rewrite E|].
  constructor; [|exact F]. simpl. split; [|reflexivity].
  assert (0 < len (lineText line)) by (destruct line; unfold len; simpl; lia).
  lia.
Qed.

(** After the loop the last insertion is a lone newline, so the closing
    newline is always added. *)
Lemma handleCodeBlockToken_eq (token : Token) (c : ConversionContext) :
  handleCodeBlockToken token c
  = insertText newline (fold_left emitCodeLine (codeBlockLines (content token)) c).
Proof.
  unfold handleCodeBlockToken. cbv zeta.
  destruct (fold_emitCodeLine (codeBlockLines (content token)) c) as (E & _).
  destruct (codeLineInsertions_last (truthyString (tabId c)) (currentIndex c)
              (codeBlockLines (content token))) as (pre & location & L).
  { rewrite codeBlockLines_split. apply split_nonempty. }
  unfold lastInsertEndsWithDoubleNewline, lastInsertText.
  rewrite E, L, app_assoc, lastOf_app. reflexivity.
Qed.

(** C6. A fence or code_block token: one trailing newline of the content
    is dropped and the rest is split at newlines; for each line the compiler
    inserts the line (one space if the line is empty) and records one code
    range over exactly that insertion, so every range is non-empty; each
    line is closed by a newline insertion and one more newline follows the
    block. *)
Theorem code_block_lines (token : Token) (c : ConversionContext) :
  let lines := codeBlockLines (content token) in
  let c' := handleCodeBlockToken token c in
  let tab := truthyString (tabId c) in
  (forall body, content token = body +:+ newline -> lines = split LF body)
  /\ (endsWith (content token) newline = false -> lines = split LF (content token))
  /\ processLeaf fence token c = Ok c'
  /\ processLeaf code_block token c = Ok c'
  /\ insertRequests c'
     = insertRequests c
         ++ codeLineInsertions tab (currentIndex c) lines
         ++ [InsertTextRequest (mkLocation (codeLinesEnd (currentIndex c) lines) tab) newline]
  /\ textRanges c' = textRanges c ++ codeLineRanges (currentIndex c) lines
  /\ length (codeLineRanges (currentIndex c) lines) = length lines
  /\ Forall (fun r => tr_startIndex r < tr_endIndex r /\ formatting r = codeOnly)
            (codeLineRanges (currentIndex c) lines)
  /\ currentIndex c' = codeLinesEnd (currentIndex c) lines + 1.
Proof.
  cbv zeta. rewrite handleCodeBlockToken_eq.
  destruct (fold_emitCodeLine (codeBlockLines (content token)) c) as (E1 & E2 & E3 & E4).
  destruct (codeLineRanges_spec (currentIndex c) (codeBlockLines (content token)))
    as (L & F).
  repeat split; try assumption.
  - intros body ->. rewrite codeBlockLines_split, endsWith_append_newline.
    now rewrite dropLast_append_newline.
  - intros H. now rewrite codeBlockLines_split, H.
  - simpl. now rewrite handleCodeBlockToken_eq.
  - simpl. now rewrite handleCodeBlockToken_eq.
  - simpl. now rewrite E1, E3, E4, <- app_assoc.
  - simpl. now rewrite E3, len_newline.
Qed.

Lemma code_block_lines_witness :
  insertRequests
    (handleCodeBlockToken Stream.fenceToken (initialContext 1 None None))
  = [ InsertTextRequest (mkLocation 1 None) "a";
      InsertTextRequest (mkLocation 2 None) newline;
      InsertTextRequest (mkLocation 3 None) " ";
      InsertTextRequest (mkLocation 4 None) newline;
      InsertTextRequest (mkLocation 5 None) "b";
      InsertTextRequest (mkLocation 6 None) newline;
      InsertTextRequest (mkLocation 7 None) newline ].
Proof.
  pose proof (code_block_lines Stream.fenceToken (initialContext 1 None None)) as H.
  cbv zeta in H. destruct H as (Hlines & _ & _ & _ & Hins & _).
  rewrite Hins. rewrite (Hlines ("a" +:+ newline +:+ newline +:+ "b") eq_refl).
  reflexivity.
Defined.

End CodeBlocks.

Section Finalization.
Import JS MarkdownToDocs.

Lemma finalize_formatRequests (c : ConversionContext) :
  formatRequests (finalizeFormatting c)
  = formatRequests c
      ++ concat (textRangeRequests (tabId c) <$> textRanges c)
      ++ concat (paragraphRangeRequests (tabId c) <$> paragraphRanges c)
      ++ (hrRangeRequest (tabId c) <$> hrRanges c)
      ++ (bulletRequest (tabId c) <$> mergedListRanges c).
Proof.
  unfold finalizeFormatting, pushAll. simpl. now rewrite <- !app_assoc.
Qed.

Lemma filter_cons_eq {A} (p : A -> bool) (x : A) (l : list A) :
  List.filter p (x :: l) = if p x then x :: List.filter p l else List.filter p l.
Proof. reflexivity. Qed.

Lemma filter_concat_nil {A B} (p : B -> bool) (f : A -> list B) (l : list A) :
  (forall a, List.filter p (f a) = []) -> List.filter p (concat (f <$> l)) = [].
Proof.
  intros H. induction l as [|a l IH]; [reflexivity|].
  now rewrite fmap_cons, concat_cons, List.filter_app, H, IH.
Qed.

Lemma filter_fmap_nil {A B} (p : B -> bool) (f : A -> B) (l : list A) :
  (forall a, p (f a) = false) -> List.filter p (f <$> l) = [].
Proof.
  intros H. induction l as [|a l IH]; [reflexivity|].
  rewrite fmap_cons. change (List.filter p (f a :: (f <$> l)))
    with (if p (f a) then f a :: List.filter p (f <$> l) else List.filter p (f <$> l)).
  now rewrite H.
Qed.

Lemma filter_fmap_all {A B} (p : B -> bool) (f : A -> B) (l : list A) :
  (forall a, p (f a) = true) -> List.filter p (f <$> l) = f <$> l.
Proof.
  intros H. induction l as [|a l IH]; [reflexivity|].
  rewrite fmap_cons. change (List.filter p (f a :: (f <$> l)))
    with (if p (f a) then f a :: List.filter p (f <$> l) else List.filter p (f <$> l)).
  now rewrite H, IH.
Qed.

Lemma textRangeRequests_kind (tab : option string) (r : TextRange) :
  List.filter isInsert (textRangeRequests tab r) = []
  /\ List.filter isBullet (textRangeRequests tab r) = []
  /\ omap namedStyleOf (textRangeRequests tab r) = [].
Proof.
  unfold textRangeRequests.
  destruct (_ || _), (truthyString _); repeat split; reflexivity.
Qed.

Lemma paragraphRangeRequests_kind (tab : option string) (r : ParagraphRange) :
  List.filter isInsert (paragraphRangeRequests tab r) = []
  /\ List.filter isBullet (paragraphRangeRequests tab r) = [].
Proof.
  unfold paragraphRangeRequests. destruct (truthyString _); split; reflexivity.
Qed.

(** The output of a successful compilation, in terms of the context the
    token pass ends in. *)
Lemma compileTokens_Ok (tokens : list Token) (startIndex : Z) (tab : option string)
    (options : option ConversionOptions) (requests : list Request) :
  compileTokens tokens startIndex tab options = Ok requests ->
  exists c,
    processTokens tokens (initialContext startIndex tab options) = Ok c
    /\ tabId c = tab
    /\ firstHeadingAsTitle c
       = firstHeadingAsTitle (initialContext startIndex tab options)
    /\ chainFrom startIndex (insertRequests c) = Some (currentIndex c)
    /\ requests
       = insertRequests c
           ++ concat (textRangeRequests tab <$> textRanges c)
           ++ concat (paragraphRangeRequests tab <$> paragraphRanges c)
           ++ (hrRangeRequest tab <$> hrRanges c)
           ++ (bulletRequest tab <$> mergedListRanges c).
Proof.
  unfold compileTokens, run.
  destruct (processTokens tokens _) as [c|e] eqn:E; simpl; [|discriminate].
  intros [= <-]. exists c.
  destruct (processTokens_sameSettings _ _ _ E) as (F1 & F2 & F3).
  destruct (processTokens_advances _ _ _ E) as (new & N1 & N2).
  simpl in F1, F2, N1, N2. rewrite <- N1 in N2.
  repeat split; try assumption.
  unfold requestsOf. rewrite finalize_formatRequests, F1, F2. reflexivity.
Qed.

Lemma filter_insert_output (ins : list Request) (tab : option string)
    (trs : list TextRange) (prs : list ParagraphRange) (hrs : list (Z * Z))
    (ms : list MergedListRange) :
  List.filter isInsert ins = ins ->
  List.filter isInsert
    (ins ++ concat (textRangeRequests tab <$> trs)
         ++ concat (paragraphRangeRequests tab <$> prs)
         ++ (hrRangeRequest tab <$> hrs)
         ++ (bulletRequest tab <$> ms)) = ins.
Proof.
  intros H. rewrite !List.filter_app, H.
  rewrite (filter_concat_nil isInsert), (filter_concat_nil isInsert),
    !filter_fmap_nil, ?app_nil_r; try reflexivity.
  - apply paragraphRangeRequests_kind.
  - apply textRangeRequests_kind.
Qed.

Lemma filter_bullet_output (ins : list Request) (tab : option string)
    (trs : list TextRange) (prs : list ParagraphRange) (hrs : list (Z * Z))
    (ms : list MergedListRange) :
  List.filter isInsert ins = ins ->
  List.filter isBullet
    (ins ++ concat (textRangeRequests tab <$> trs)
         ++ concat (paragraphRangeRequests tab <$> prs)
         ++ (hrRangeRequest tab <$> hrs)
         ++ (bulletRequest tab <$> ms)) = bulletRequest tab <$> ms.
Proof.
  intros H. rewrite !List.filter_app.
  assert (List.filter isBullet ins = []) as ->.
  { rewrite <- H. clear H. induction ins as [|r ins IH]; [reflexivity|].
    destruct r; simpl; auto. }
  rewrite (filter_concat_nil isBullet), (filter_concat_nil isBullet),
    filter_fmap_nil, filter_fmap_all; try reflexivity.
  - apply paragraphRangeRequests_kind.
  - apply textRangeRequests_kind.
Qed.

End Finalization.

Section CursorTheorem.
Import JS MarkdownToDocs.

Lemma insertText_nonempty (t : string) (x : ConversionContext) :
  insertRequests (insertText t x) <> [].
Proof. simpl. intros E. apply app_eq_nil in E. now destruct E. Qed.

Lemma insertRequests_update (f : PendingListItem -> PendingListItem)
    (x : ConversionContext) :
  insertRequests (updateCurrentOpenListItem f x) = insertRequests x.
Proof. unfold updateCurrentOpenListItem. split_conditionals; reflexivity. Qed.

Lemma lastInsertEndsWithNewline_nonempty (c : ConversionContext) :
  lastInsertEndsWithNewline c = true -> insertRequests c <> [].
Proof.
  unfold lastInsertEndsWithNewline, lastInsertText. intros H E.
  rewrite E in H. discriminate.
Qed.

Lemma processLeaf_alwaysInserts (k : TokenKind) (t : Token) (c c' : ConversionContext) :
  alwaysInserts k = true -> processLeaf k t c = Ok c' -> insertRequests c' <> [].
Proof.
  destruct k; try discriminate; intros _; simpl; intros [= <-];
    try apply insertText_nonempty;
    try (rewrite handleCodeBlockToken_eq; apply insertText_nonempty).
  unfold handleParagraphClose.
  split_conditionals; strip_assignments;
    rewrite ?insertRequests_update; try apply insertText_nonempty;
    apply lastInsertEndsWithNewline_nonempty;
    match goal with H : negb _ = false |- _ => now apply negb_false_iff in H end.
Qed.

Lemma processLeaves_alwaysInserts (leaves : list Token) (c c' : ConversionContext) :
  Exists (fun t => alwaysInserts (kindOf (type t)) = true) leaves ->
  processLeaves leaves c = Ok c' -> insertRequests c' <> [].
Proof.
  intros Hex. revert c. induction Hex as [t leaves Ht | t leaves _ IH]; intros c H.
  - simpl in H. destruct (processLeaf _ t c) as [c1|] eqn:E; [|discriminate].
    simpl in H. apply (advances_nonempty c1).
    + apply (processLeaves_preserves (advances c1)) with leaves c1;
        [|apply advances_refl | exact H].
      intros k t' x x' Hx Hs.
      exact (advances_trans _ _ _ Hx (processLeaf_advances _ _ _ _ Hs)).
    + exact (processLeaf_alwaysInserts _ _ _ _ Ht E).
  - simpl in H. destruct (processLeaf _ t c) as [c1|] eqn:E; [|discriminate].
    exact (IH _ H).
Qed.

Lemma convertMarkdownToRequests_nonblank (parse : string -> list Token)
    (markdown : string) (startIndex : option Z) (tab : option string)
    (options : option ConversionOptions) :
  trim markdown <> "" ->
  convertMarkdownToRequests parse markdown startIndex tab options
  = compileTokens (parse markdown) (default 1 startIndex) tab options.
Proof.
  intros H. unfold convertMarkdownToRequests.
  destruct markdown as [|ch rest]; [now destruct H|].
  destruct (trim (String ch rest)); [now destruct H | reflexivity].
Qed.

Lemma Exists_existsb {A} (p : A -> bool) (l : list A) :
  existsb p l = true -> Exists (fun x => p x = true) l.
Proof.
  induction l as [|x l IH]; simpl; [discriminate|].
  destruct (p x) eqn:E; [now left | right; auto].
Qed.

End CursorTheorem.

Section Errors.
Import JS MarkdownToDocs.

Lemma lastOf_None {A} (l : list A) : lastOf l = None <-> l = [].
Proof.
  split; [|now intros ->].
  destruct l as [|x l] using rev_ind; [reflexivity|].
  now rewrite lastOf_app.
Qed.

Lemma lastOf_Some {A} (l : list A) (x : A) :
  lastOf l = Some x -> exists l', l = l' ++ [x].
Proof.
  destruct l as [|y l] using rev_ind; [discriminate|].
  rewrite lastOf_app. intros [= ->]. eauto.
Qed.

Lemma valid_update (f : PendingListItem -> PendingListItem) (x : ConversionContext) :
  openIndicesValid x -> openIndicesValid (updateCurrentOpenListItem f x).
Proof.
  intros H. unfold updateCurrentOpenListItem. split_conditionals; try exact H.
  unfold openIndicesValid. simpl. now rewrite length_insert.
Qed.

Lemma valid_codeLines (lines : list string) (x : ConversionContext) :
  openIndicesValid x -> openIndicesValid (fold_left emitCodeLine lines x).
Proof.
  revert x. induction lines as [|line lines IH]; intros x H; [exact H|].
  simpl fold_left. apply IH. unfold emitCodeLine.
  split_conditionals; strip_assignments; exact H.
Qed.

Lemma Forall_removelast {A} (P : A -> Prop) (l : list A) :
  Forall P l -> Forall P (removelast l).
Proof.
  destruct l as [|x l] using rev_ind; [auto|].
  rewrite removelast_last. intros H. now apply Forall_app in H.
Qed.

Lemma handleListItemOpen_valid (c c' : ConversionContext) :
  openIndicesValid c -> handleListItemOpen c = Ok c' -> openIndicesValid c'.
Proof.
  unfold handleListItemOpen, openIndicesValid. intros Hv H. split_result H.
  all: simpl; rewrite length_app; simpl; apply Forall_app; split;
    [ eapply Forall_impl; [exact Hv | simpl; intros; lia]
    | repeat constructor; lia ].
Qed.

Lemma handleListItemClose_valid (c c' : ConversionContext) :
  openIndicesValid c -> handleListItemClose c = Ok c' -> openIndicesValid c'.
Proof.
  unfold handleListItemClose, openIndicesValid. intros Hv H. split_result H;
    try exact Hv; strip_assignments; simpl; rewrite ?length_insert;
    now apply Forall_removelast.
Qed.

Lemma processLeaf_valid (k : TokenKind) (t : Token) (c c' : ConversionContext) :
  openIndicesValid c -> processLeaf k t c = Ok c' -> openIndicesValid c'.
Proof.
  intros Hv. destruct k; simpl;
    try apply (handleListItemOpen_valid _ _ Hv);
    try apply (handleListItemClose_valid _ _ Hv);
    intros H; split_result H.
  all: unfold_handlers; split_conditionals;
    repeat first [ apply valid_update | apply valid_codeLines
                 | progress strip_assignments ];
    exact Hv.
Qed.

(** Under the invariant the [TypeError] of [handleListItemClose] cannot
    happen; the only exception a leaf raises is the structural one. *)
Lemma processLeaf_Throw (k : TokenKind) (t : Token) (c : ConversionContext)
    (e : Exception) :
  openIndicesValid c ->
  processLeaf k t c = Throw e ->
  k = list_item_open /\ listStack c = [] /\ e = listItemOutsideList.
Proof.
  intros Hv. destruct k; simpl; try discriminate.
  - destruct (getLinkHref t) as [h|]; [destruct (truthy h)|]; discriminate.
  - unfold handleListItemOpen. destruct (lastOf (listStack c)) eqn:E; [discriminate|].
    intros [= <-]. apply lastOf_None in E. auto.
  - unfold handleListItemClose.
    destruct (lastOf (openListItemStack c)) as [i|] eqn:E; [|discriminate].
    simpl. destruct (pendingListItems c !! i) eqn:L; [discriminate|].
    exfalso. apply lookup_ge_None in L.
    destruct (lastOf_Some _ _ E) as (st & Est).
    unfold openIndicesValid in Hv. rewrite Est in Hv.
    apply Forall_app in Hv as [_ Hi]. inversion Hi; subst. lia.
Qed.

Lemma processLeaves_Throw (leaves : list Token) (c : ConversionContext) (e : Exception) :
  openIndicesValid c ->
  processLeaves leaves c = Throw e ->
  e = listItemOutsideList /\ orphanListItem leaves c.
Proof.
  revert c. induction leaves as [|t leaves IH]; intros c Hv H; [discriminate|].
  simpl in H. destruct (processLeaf _ t c) as [c1|e1] eqn:E; simpl in H.
  - destruct (IH _ (processLeaf_valid _ _ _ _ Hv E) H)
      as (-> & before & t' & after & reached & -> & K & R & L).
    split; [reflexivity|]. exists (t :: before), t', after, reached.
    repeat split; try assumption. simpl. now rewrite E.
  - injection H as <-. destruct (processLeaf_Throw _ _ _ _ Hv E) as (K & L & ->).
    split; [reflexivity|]. exists [], t, leaves, c. repeat split; assumption.
Qed.

Lemma orphanListItem_Throw (leaves : list Token) (c : ConversionContext) :
  orphanListItem leaves c -> processLeaves leaves c = Throw listItemOutsideList.
Proof.
  intros (before & t & after & reached & -> & K & R & L).
  revert c R. induction before as [|b before IH]; intros c R.
  - injection R as ->. simpl. rewrite K. simpl. unfold handleListItemOpen.
    now rewrite L.
  - simpl in R |- *. destruct (processLeaf _ b c) as [c1|]; [|discriminate].
    simpl in R |- *. now apply IH.
Qed.

Lemma compileTokens_Throw (tokens : list Token) (startIndex : Z) (tab : option string)
    (options : option ConversionOptions) (e : Exception) :
  compileTokens tokens startIndex tab options = Throw e <->
  exists e0,
    processLeaves (flattenAll tokens) (initialContext startIndex tab options) = Throw e0
    /\ e = rethrow e0.
Proof.
  unfold compileTokens, run. rewrite processTokens_flatten.
  destruct (processLeaves _ _) as [c|e0]; simpl; split.
  - discriminate.
  - intros (? & ? & _). discriminate.
  - intros [= <-]. eauto.
  - intros (e1 & [= <-] & ->). reflexivity.
Qed.

Lemma popFormatting_unmatched (c : ConversionContext) (k : FormattingKey) :
  Forall (fun f => defines k f = false) (formattingStack c) -> popFormatting c k = c.
Proof.
  intros H. unfold popFormatting.
  assert (removeFirst (defines k) (rev (formattingStack c)) = rev (formattingStack c))
    as ->.
  { apply Forall_rev in H. induction H as [|f l Hf _ IH]; [reflexivity|].
    simpl. now rewrite Hf, IH. }
  rewrite rev_involutive. now destruct c.
Qed.

(** C3. A compilation throws exactly when its run reaches a list_item_open
    token while no list is open, and what it throws then is the
    structural-violation error itself, not a wrapped one.  The catch clause
    turns any exception into a [MarkdownConversionError], wrapping the
    message of any other error and passing a [MarkdownConversionError]
    through unchanged.  A formatting close, a list close or a list-item
    close with nothing open to match leaves the state as it is and does not
    throw. *)
Theorem structural_violation_only :
  (forall tokens startIndex tab options e,
      compileTokens tokens startIndex tab options = Throw e <->
      e = listItemOutsideList
      /\ orphanListItem (flattenAll tokens) (initialContext startIndex tab options))
  /\ (forall e, exists message, rethrow e = MarkdownConversionError message)
  /\ (forall message,
         rethrow (MarkdownConversionError message) = MarkdownConversionError message
         /\ rethrow (OtherError message)
            = MarkdownConversionError ("Failed to convert markdown: " +:+ message))
  /\ (forall k token c,
         (k = strong_close /\ Forall (fun f => defines key_bold f = false) (formattingStack c))
         \/ (k = em_close /\ Forall (fun f => defines key_italic f = false) (formattingStack c))
         \/ (k = s_close
             /\ Forall (fun f => defines key_strikethrough f = false) (formattingStack c))
         \/ (k = link_close /\ Forall (fun f => defines key_link f = false) (formattingStack c))
         \/ ((k = bullet_list_close \/ k = ordered_list_close) /\ listStack c = [])
         \/ (k = list_item_close /\ openListItemStack c = []) ->
         processLeaf k token c = Ok c).
Proof.
  split; [|split; [|split; [|]]].
  - intros tokens startIndex tab options e. rewrite compileTokens_Throw. split.
    + intros (e0 & H & ->).
      assert (openIndicesValid (initialContext startIndex tab options)) as Hv
          by constructor.
      destruct (processLeaves_Throw _ _ _ Hv H) as (-> & Ho).
      split; [reflexivity | exact Ho].
    + intros (-> & Ho). exists listItemOutsideList. split; [|reflexivity].
      now apply orphanListItem_Throw.
  - intros [m|m|]; simpl; eauto.
  - intros message. split; reflexivity.
  - intros k token c [(-> & H)|[(-> & H)|[(-> & H)|[(-> & H)|[([-> | ->] & H)|(-> & H)]]]]];
      simpl; try (now rewrite popFormatting_unmatched).
    + unfold popList. destruct c; simpl in *; now subst.
    + unfold popList. destruct c; simpl in *; now subst.
    + unfold handleListItemClose. now rewrite H.
Qed.

Lemma structural_violation_only_witness :
  compileTokens [Stream.tok "list_item_open" "li"] 1 None None
  = Throw listItemOutsideList
  /\ processLeaf list_item_close (Stream.tok "list_item_close" "li")
       (initialContext 1 None None)
     = Ok (initialContext 1 None None).
Proof.
  split.
  - apply (proj1 structural_violation_only). split; [reflexivity|].
    exists [], (Stream.tok "list_item_open" "li"), [], (initialContext 1 None None).
    repeat split.
  - apply (proj2 (proj2 (proj2 structural_violation_only))).
    repeat right. split; reflexivity.
Defined.

End Errors.

Section TitlePromotion.
Import JS MarkdownToDocs.

Lemma natToString_inj (n m : nat) : natToString n = natToString m -> n = m.
Proof.
  unfold natToString. intros H. apply DecimalNat.Unsigned.to_uint_inj.
  assert (forall k, Nat.to_uint k <> Decimal.Nil) as nn.
  { intros k E. pose proof (DecimalNat.Unsigned.to_of (Nat.to_uint k)) as T.
    rewrite DecimalNat.Unsigned.of_to in T. rewrite T in E.
    exact (DecimalFacts.unorm_nonnil _ E). }
  pose proof (NilZero.usu _ (nn n)) as A. pose proof (NilZero.usu _ (nn m)) as B.
  rewrite H in A. congruence.
Qed.

Lemma headingStyleName_title (n : nat) : headingStyleName n <> "TITLE".
Proof. unfold headingStyleName. rewrite append_cons. discriminate. Qed.

Lemma headingStyleName_h1 (n : nat) : headingStyleName n = "HEADING_1" -> n = 1%nat.
Proof.
  change "HEADING_1" with (headingStyleName 1). unfold headingStyleName.
  intros H. apply natToString_inj. revert H. apply String.app_inj.
Qed.

Lemma headingStyleName_truthy (n : nat) :
  truthyString (Some (headingStyleName n)) = Some (headingStyleName n).
Proof. unfold headingStyleName. rewrite append_cons. reflexivity. Qed.

Lemma titleInv_update (f : PendingListItem -> PendingListItem) (x : ConversionContext) :
  titleInv x -> titleInv (updateCurrentOpenListItem f x).
Proof.
  intros H. unfold updateCurrentOpenListItem. split_conditionals; exact H.
Qed.

Lemma titleInv_codeLines (lines : list string) (x : ConversionContext) :
  titleInv x -> titleInv (fold_left emitCodeLine lines x).
Proof.
  revert x. induction lines as [|line lines IH]; intros x H; [exact H|].
  simpl fold_left. apply IH. unfold emitCodeLine.
  split_conditionals; strip_assignments; exact H.
Qed.

Lemma rangeStyles_push (c : ConversionContext) (p e : Z) (s : string) :
  truthyString (Some s) = Some s ->
  omap (fun r => truthyString (namedStyleType r))
       (paragraphRanges c ++ [mkParagraphRange p e (Some s)])
  = rangeStyles c ++ [s].
Proof.
  intros H. unfold rangeStyles. rewrite omap_app. simpl in *. now rewrite H.
Qed.

Lemma handleHeadingClose_titleInv (c : ConversionContext) :
  titleInv c -> titleInv (handleHeadingClose c).
Proof.
  unfold handleHeadingClose.
  destruct (currentHeadingLevel c) as [[|l]|]; try (intros H; exact H).
  destruct (currentParagraphStart c) as [p|]; [|intros H; exact H].
  cbv zeta. unfold titleInv.
  destruct (firstHeadingAsTitle c) eqn:F, (titleConsumed c) eqn:T,
    (Nat.eqb (S l) 1) eqn:L; simpl; rewrite ?F, ?T; unfold rangeStyles; simpl;
    fold (rangeStyles c);
    rewrite ?(rangeStyles_push c) by (try apply headingStyleName_truthy; reflexivity).
  all: unfold noTitle, noTitleNorH1.
  - (* a later level-1 heading keeps HEADING_1 *)
    intros (pre & post & -> & Hpre & Hpost).
    exists pre, (post ++ [headingStyleName 1]). rewrite <- app_assoc. simpl.
    apply Nat.eqb_eq in L. injection L as ->.
    repeat split; [exact Hpre|]. apply Forall_app. split; [exact Hpost|].
    repeat constructor. apply headingStyleName_title.
  - intros (pre & post & -> & Hpre & Hpost).
    exists pre, (post ++ [headingStyleName (S l)]). rewrite <- app_assoc. simpl.
    repeat split; [exact Hpre|]. apply Forall_app. split; [exact Hpost|].
    repeat constructor. apply headingStyleName_title.
  - (* the first level-1 heading becomes the title *)
    intros Hall. exists (rangeStyles c), []. repeat split; [exact Hall | constructor].
  - intros Hall. apply Forall_app. split; [exact Hall|]. repeat constructor.
    + apply headingStyleName_title.
    + intros E. apply headingStyleName_h1 in E. apply Nat.eqb_neq in L. congruence.
  - intros Hall. apply Forall_app. split; [exact Hall|]. repeat constructor.
    apply headingStyleName_title.
  - intros Hall. apply Forall_app. split; [exact Hall|]. repeat constructor.
    apply headingStyleName_title.
  - intros Hall. apply Forall_app. split; [exact Hall|]. repeat constructor.
    apply headingStyleName_title.
  - intros Hall. apply Forall_app. split; [exact Hall|]. repeat constructor.
    apply headingStyleName_title.
Qed.

Lemma processLeaf_titleInv (k : TokenKind) (t : Token) (c c' : ConversionContext) :
  titleInv c -> processLeaf k t c = Ok c' -> titleInv c'.
Proof.
  intros Hv. destruct k; simpl;
    try (intros [= <-]; now apply handleHeadingClose_titleInv);
    unfold handleListItemOpen, handleListItemClose; intros H; split_result H.
  all: unfold handleHeadingOpen, handleHorizontalRule, handleParagraphOpen,
         handleParagraphClose, handleCodeInlineToken, handleTextToken, emitText,
         pushFormatting, popFormatting, handleCodeBlockToken, pushList, popList;
    split_conditionals;
    repeat first [ apply titleInv_update | apply titleInv_codeLines
                 | progress strip_assignments ];
    exact Hv.
Qed.

Lemma titleInv_titleFirst (c : ConversionContext) :
  firstHeadingAsTitle c = true -> titleInv c -> titleFirst (rangeStyles c).
Proof.
  unfold titleInv, titleFirst. intros ->. destruct (titleConsumed c); auto.
Qed.

Lemma namedStyles_output (ins : list Request) (tab : option string)
    (trs : list TextRange) (prs : list ParagraphRange) (hrs : list (Z * Z))
    (ms : list MergedListRange) :
  List.filter isInsert ins = ins ->
  namedStyles
    (ins ++ concat (textRangeRequests tab <$> trs)
         ++ concat (paragraphRangeRequests tab <$> prs)
         ++ (hrRangeRequest tab <$> hrs)
         ++ (bulletRequest tab <$> ms))
  = omap (fun r => truthyString (namedStyleType r)) prs.
Proof.
  intros H. unfold namedStyles. rewrite !omap_app.
  assert (omap namedStyleOf ins = []) as ->.
  { rewrite <- H. clear H. induction ins as [|r ins IH]; [reflexivity|].
    destruct r; simpl; auto. }
  assert (omap namedStyleOf (concat (textRangeRequests tab <$> trs)) = []) as ->.
  { induction trs as [|r trs IH]; [reflexivity|].
    rewrite fmap_cons, concat_cons, omap_app, IH.
    now destruct (textRangeRequests_kind tab r) as (_ & _ & ->). }
  assert (omap namedStyleOf (hrRangeRequest tab <$> hrs) = []) as ->.
  { induction hrs as [|r hrs IH]; [reflexivity | exact IH]. }
  assert (omap namedStyleOf (bulletRequest tab <$> ms) = []) as ->.
  { induction ms as [|r ms IH]; [reflexivity | exact IH]. }
  rewrite !app_nil_r. simpl.
  induction prs as [|r prs IH]; [reflexivity|].
  rewrite fmap_cons, concat_cons, omap_app, IH. simpl.
  unfold paragraphRangeRequests. now destruct (truthyString (namedStyleType r)).
Qed.

Lemma titleFirst_count (names : list string) :
  titleFirst names -> (length (List.filter (String.eqb "TITLE") names) <= 1)%nat.
Proof.
  assert (forall l, noTitle l -> List.filter (String.eqb "TITLE") l = []) as Hno.
  { intros l H. induction H as [|s l Hs _ IH]; [reflexivity|].
    rewrite filter_cons_eq. destruct (String.eqb_spec "TITLE" s); [congruence | exact IH]. }
  assert (forall l, noTitleNorH1 l -> noTitle l) as Hweak.
  { intros l H. eapply Forall_impl; [exact H|]. now intros s [? _]. }
  intros [H | (pre & post & -> & Hpre & Hpost)].
  - rewrite (Hno _ (Hweak _ H)). simpl. lia.
  - rewrite List.filter_app, (Hno _ (Hweak _ Hpre)), filter_cons_eq.
    rewrite String.eqb_refl, (Hno _ Hpost). simpl. lia.
Qed.

(** C4. With first-heading-as-title on, the named styles of the output hold
    at most one TITLE; when there is one it precedes every HEADING_1 and no
    TITLE follows it, and without one there is no HEADING_1 either: the
    first level-1 heading, and only it, is the title.  A heading close
    records TITLE exactly when the option is on, no title was consumed and
    the level is 1, and the ordinary HEADING_n otherwise.  For
    ["# T\n\n# U"] the styles are TITLE then HEADING_1. *)
Theorem first_h1_is_the_only_title :
  (forall tokens startIndex tab requests,
      compileTokens tokens startIndex tab firstAsTitle = Ok requests ->
      titleFirst (namedStyles requests)
      /\ (length (List.filter (String.eqb "TITLE") (namedStyles requests)) <= 1)%nat)
  /\ (forall c l p,
         currentHeadingLevel c = Some (S l) ->
         currentParagraphStart c = Some p ->
         let promoted :=
           firstHeadingAsTitle c && negb (titleConsumed c) && Nat.eqb (S l) 1 in
         paragraphRanges (handleHeadingClose c)
         = paragraphRanges c
             ++ [mkParagraphRange p (currentIndex c)
                   (Some (if promoted then "TITLE" else headingStyleName (S l)))]
         /\ titleConsumed (handleHeadingClose c) = titleConsumed c || promoted)
  /\ (exists requests,
         compileTokens Stream.twoH1 1 None firstAsTitle = Ok requests
         /\ namedStyles requests = ["TITLE"; "HEADING_1"]).
Proof.
  split; [|split].
  - intros tokens startIndex tab requests H.
    destruct (compileTokens_Ok _ _ _ _ _ H) as (c & P & _ & F & Hc & ->).
    destruct (chainFrom_sum _ _ _ Hc) as (_ & _ & Hf).
    rewrite (namedStyles_output _ _ _ _ _ _ Hf). fold (rangeStyles c).
    assert (titleFirst (rangeStyles c)) as Ht.
    { apply titleInv_titleFirst; [exact F|].
      assert (titleInv (initialContext startIndex tab firstAsTitle)) as Hi
          by (unfold titleInv; simpl; constructor).
      exact (processTokens_preserves titleInv processLeaf_titleInv _ _ _ Hi P). }
    split; [exact Ht | exact (titleFirst_count _ Ht)].
  - intros c l p Hl Hp. unfold handleHeadingClose. rewrite Hl, Hp. cbv zeta.
    destruct (firstHeadingAsTitle c && negb (titleConsumed c) && Nat.eqb (S l) 1);
      simpl; split; try reflexivity; rewrite ?orb_false_r, ?orb_true_r; reflexivity.
  - eexists. split; vm_compute; reflexivity.
Qed.

Lemma first_h1_is_the_only_title_witness :
  exists requests,
    compileTokens Stream.twoH1 1 None firstAsTitle = Ok requests
    /\ titleFirst (namedStyles requests).
Proof.
  destruct (compileTokens Stream.twoH1 1 None firstAsTitle) as [requests|e] eqn:E;
    [|vm_compute in E; discriminate E].
  exists requests. split; [reflexivity|].
  exact (proj1 (proj1 first_h1_is_the_only_title Stream.twoH1 1 None requests E)).
Defined.

End TitlePromotion.

Section TaskLists.
Import JS MarkdownToDocs.

Lemma countWhiteSpace_append (ws rest : string) :
  allWhiteSpace ws -> startsWithNonSpace rest ->
  countWhiteSpace (ws +:+ rest) = String.length ws.
Proof.
  unfold allWhiteSpace. intros Hws Hrest. induction ws as [|c ws IH].
  - rewrite append_empty_l. destruct rest as [|d rest]; [reflexivity|].
    simpl in Hrest |- *. now rewrite Hrest.
  - rewrite append_cons. simpl in Hws |- *.
    destruct (isWhiteSpace c); [|discriminate]. now rewrite IH.
Qed.

Lemma sliceFrom_append (ws rest : string) :
  sliceFrom (String.length ws) (ws +:+ rest) = rest.
Proof.
  induction ws as [|c ws IH]; [now destruct rest|].
  rewrite append_cons. exact IH.
Qed.

Lemma matchTaskPrefix_taskText (mark : ascii) (ws rest : string) :
  mark = " "%char \/ mark = "x"%char \/ mark = "X"%char ->
  ws <> "" -> allWhiteSpace ws -> startsWithNonSpace rest ->
  exists n,
    matchTaskPrefix (taskText mark ws rest) = Some n
    /\ sliceFrom n (taskText mark ws rest) = rest.
Proof.
  intros Hmark Hne Hws Hrest. exists (3 + String.length ws)%nat. split.
  - unfold matchTaskPrefix, taskText.
    rewrite (countWhiteSpace_append _ _ Hws Hrest).
    destruct ws as [|c ws]; [congruence|].
    destruct Hmark as [-> | [-> | ->]]; reflexivity.
  - unfold taskText. simpl. apply sliceFrom_append.
Qed.

Lemma update_current (f : PendingListItem -> PendingListItem)
    (c : ConversionContext) (item : PendingListItem) :
  getCurrentOpenListItem c = Some item ->
  getCurrentOpenListItem (updateCurrentOpenListItem f c) = Some (f item)
  /\ currentIndex (updateCurrentOpenListItem f c) = currentIndex c
  /\ insertRequests (updateCurrentOpenListItem f c) = insertRequests c
  /\ tabId (updateCurrentOpenListItem f c) = tabId c.
Proof.
  unfold getCurrentOpenListItem, updateCurrentOpenListItem.
  destruct (lastOf (openListItemStack c)) as [i|] eqn:E; [|discriminate].
  intros L. rewrite L. simpl. rewrite E. repeat split.
  apply list_lookup_insert_eq. now apply lookup_lt_Some in L.
Qed.

Lemma emitText_current (t : string) (c : ConversionContext) :
  getCurrentOpenListItem (emitText t c) = getCurrentOpenListItem c
  /\ insertRequests (emitText t c)
     = insertRequests c
         ++ [InsertTextRequest (mkLocation (currentIndex c) (truthyString (tabId c))) t].
Proof. unfold emitText. split_conditionals; split; reflexivity. Qed.

Lemma handleListItemOpen_current (c c' : ConversionContext) :
  handleListItemOpen c = Ok c' ->
  exists item,
    getCurrentOpenListItem c' = Some item
    /\ taskPrefixProcessed item = false
    /\ li_startIndex item = currentIndex c
    /\ bulletPreset item <> BULLET_CHECKBOX.
Proof.
  unfold handleListItemOpen. intros H. split_result H.
  all: eexists; unfold getCurrentOpenListItem; simpl; rewrite lastOf_app;
    rewrite length_app, Nat.add_sub; simpl;
    rewrite lookup_app_r, Nat.sub_diag by lia; simpl;
    repeat split; now destruct (ls_type _).
Qed.

(** C5. A list item starts with its task prefix unprocessed.  When the text
    met in that state is a checkbox ([[ ]], [[x]] or [[X]]), then white
    space, then the rest, the item's preset becomes the checkbox preset,
    the prefix and the white space are dropped, and only the rest is
    inserted (nothing, if the rest is empty).  For
    ["- [x] done\n- [ ] todo"] the output has one bullet range, with the
    checkbox preset, and no inserted text contains [[x]] or [[ ]]. *)
Theorem task_prefix_becomes_checkbox :
  (forall c c',
      handleListItemOpen c = Ok c' ->
      exists item,
        getCurrentOpenListItem c' = Some item
        /\ taskPrefixProcessed item = false
        /\ li_startIndex item = currentIndex c
        /\ bulletPreset item <> BULLET_CHECKBOX)
  /\ (forall token c item mark ws rest,
         getCurrentOpenListItem c = Some item ->
         taskPrefixProcessed item = false ->
         mark = " "%char \/ mark = "x"%char \/ mark = "X"%char ->
         ws <> "" -> allWhiteSpace ws -> startsWithNonSpace rest ->
         content token = taskText mark ws rest ->
         getCurrentOpenListItem (handleTextToken token c) = Some (checked item)
         /\ insertRequests (handleTextToken token c)
            = insertRequests c
                ++ match rest with
                   | "" => []
                   | _ => [InsertTextRequest
                             (mkLocation (currentIndex c) (truthyString (tabId c))) rest]
                   end)
  /\ (exists requests range,
         compileTokens Stream.taskList 1 None None = Ok requests
         /\ List.filter isBullet requests
            = [CreateParagraphBulletsRequest range BULLET_CHECKBOX]
         /\ forallb (fun t => negb (includes t "[x]") && negb (includes t "[ ]"))
                    (insertedTexts requests) = true).
Proof.
  split; [exact handleListItemOpen_current | split].
  - intros token c item mark ws rest Hcur Hflag Hmark Hne Hws Hrest Hcontent.
    destruct (matchTaskPrefix_taskText mark ws rest Hmark Hne Hws Hrest)
      as (n & Hmatch & Hslice).
    unfold handleTextToken. cbv zeta. rewrite Hcontent, Hcur, Hflag, Hmatch, Hslice.
    change (truthy (taskText mark ws rest)) with true. simpl negb. cbv iota.
    destruct (update_current set_taskPrefixProcessed c item Hcur)
      as (U1 & U2 & U3 & U4).
    destruct (update_current (set_bulletPreset BULLET_CHECKBOX) _ _ U1)
      as (V1 & V2 & V3 & V4).
    change (set_bulletPreset BULLET_CHECKBOX (set_taskPrefixProcessed item))
      with (checked item) in V1.
    destruct rest as [|r rest].
    + simpl. rewrite V1, V3, U3, app_nil_r. split; reflexivity.
    + change (negb (truthy (String r rest))) with false. cbv iota.
      destruct (emitText_current (String r rest)
                  (updateCurrentOpenListItem (set_bulletPreset BULLET_CHECKBOX)
                     (updateCurrentOpenListItem set_taskPrefixProcessed c)))
        as (E1 & E2).
      rewrite E1, E2, V1, V2, V3, V4, U2, U3, U4. split; reflexivity.
  - eexists _, _. split; [vm_compute; reflexivity|]. split; vm_compute; reflexivity.
Qed.

Lemma task_prefix_becomes_checkbox_witness :
  insertedTexts
    (insertRequests (handleTextToken (Stream.txt "[x] done") insideFirstItem))
  = ["done"].
Proof.
  assert (getCurrentOpenListItem insideFirstItem
          = Some (mkPendingListItem 1 None 0 BULLET_DISC_CIRCLE_SQUARE false)) as Hcur
      by (vm_compute; reflexivity).
  destruct (proj1 (proj2 task_prefix_becomes_checkbox)
              (Stream.txt "[x] done") insideFirstItem _ "x"%char " " "done"
              Hcur eq_refl (or_intror (or_introl eq_refl))
              ltac:(discriminate) eq_refl eq_refl eq_refl) as (_ & H).
  rewrite H. vm_compute. reflexivity.
Defined.

End TaskLists.

Section BulletRanges.
Import JS MarkdownToDocs.

(** *** The sort *)

Section SortByKey.
Context {A : Type} (key : A -> Z) (cmp : A -> A -> Z).
Hypothesis cmp_key : forall a b, cmp a b <= 0 <-> key a <= key b.

Let R (a b : A) : Prop := key a <= key b.

Lemma insertSorted_Permutation (x : A) (l : list A) :
  insertSorted cmp x l ≡ₚ x :: l.
Proof.
  induction l as [|y l IH]; [reflexivity|].
  simpl. destruct (cmp x y <=? 0); [reflexivity|].
  rewrite IH. apply Permutation_swap.
Qed.

Lemma insertSorted_sorted (x : A) (l : list A) :
  StronglySorted R l -> StronglySorted R (insertSorted cmp x l).
Proof.
  induction l as [|y l IH]; intros Hs.
  - repeat constructor.
  - apply StronglySorted_cons in Hs as [Hy Hl]. simpl.
    destruct (Z.leb_spec (cmp x y) 0) as [Hle|Hgt].
    + apply cmp_key in Hle. apply StronglySorted_cons. split.
      * constructor; [exact Hle|].
        eapply Forall_impl; [exact Hy|]. unfold R. intros; simpl in *; lia.
      * apply StronglySorted_cons. auto.
    + apply StronglySorted_cons. split; [|auto].
      rewrite insertSorted_Permutation. constructor; [|exact Hy].
      unfold R. destruct (Z.le_gt_cases (key y) (key x)); [assumption|].
      exfalso. assert (cmp x y <= 0) by (apply cmp_key; lia). lia.
Qed.

Lemma sort_Permutation (l : list A) : sort cmp l ≡ₚ l.
Proof.
  induction l as [|x l IH]; [reflexivity|].
  unfold sort. simpl. rewrite insertSorted_Permutation. now constructor.
Qed.

Lemma sort_sorted (l : list A) : StronglySorted R (sort cmp l).
Proof.
  induction l as [|x l IH]; [constructor|].
  unfold sort. simpl. now apply insertSorted_sorted.
Qed.
End SortByKey.

Lemma StronglySorted_weaken {A} (R R' : A -> A -> Prop) (l : list A) :
  (forall a b, R a b -> R' a b) -> StronglySorted R l -> StronglySorted R' l.
Proof.
  intros Himp Hs. induction Hs as [|x l _ IH Hx]; constructor; [exact IH|].
  eapply Forall_impl; [exact Hx | auto].
Qed.

Lemma validListItems_spec (c : ConversionContext) :
  validListItems c ≡ₚ List.filter isValidListItem (pendingListItems c)
  /\ StronglySorted ascendingStart (validListItems c)
  /\ Forall (fun item => exists e, li_endIndex item = Some e /\ li_startIndex item < e)
            (validListItems c).
Proof.
  unfold validListItems.
  pose proof (sort_Permutation (fun a b => li_startIndex a - li_startIndex b)
                (List.filter isValidListItem (pendingListItems c))) as HP.
  split; [exact HP | split].
  - apply (sort_sorted li_startIndex). intros a b. lia.
  - rewrite HP. apply Forall_forall. intros item Hin.
    apply list_elem_of_In, List.filter_In in Hin as [_ Hv]. unfold isValidListItem in Hv.
    destruct (li_endIndex item) as [e|]; [|discriminate].
    exists e. split; [reflexivity | lia].
Qed.

Lemma mergedListRanges_spec (c : ConversionContext) :
  mergedListRanges c ≡ₚ mergeListRanges (validListItems c)
  /\ StronglySorted descendingStart (mergedListRanges c).
Proof.
  unfold mergedListRanges. split.
  - apply sort_Permutation.
  - apply (StronglySorted_weaken (fun a b => - m_startIndex a <= - m_startIndex b)).
    + unfold descendingStart. intros a b. lia.
    + apply (sort_sorted (fun m => - m_startIndex m)). intros a b. lia.
Qed.

(** *** The merge *)

Lemma mergeListRanges_snoc (items : list PendingListItem) (item : PendingListItem) :
  mergeListRanges (items ++ [item]) = mergeItem (mergeListRanges items) item.
Proof. unfold mergeListRanges. now rewrite fold_left_app. Qed.

Lemma BulletPreset_eqb_eq (a b : BulletPreset) : BulletPreset_eqb a b = true <-> a = b.
Proof. destruct a, b; simpl; split; congruence. Qed.

Lemma pop_length {A} (l : list A) (x : A) :
  lastOf l = Some x -> length (pop l ++ [x]) = length l.
Proof.
  intros H. destruct (lastOf_Some _ _ H) as (l' & ->).
  unfold pop. now rewrite removelast_last.
Qed.

Lemma mergeItem_rule (merged : list MergedListRange) (last : MergedListRange)
    (item : PendingListItem) :
  lastOf merged = Some last ->
  (joins last item ->
   mergeItem merged item
   = pop merged
       ++ [mkMerged (m_startIndex last) (Z.max (m_endIndex last) (endOf item))
             (m_bulletPreset last)])
  /\ (~ joins last item ->
      mergeItem merged item
      = merged ++ [mkMerged (li_startIndex item) (endOf item) (bulletPreset item)])
  /\ (length (mergeItem merged item) = length merged <-> joins last item).
Proof.
  intros Hlast. unfold mergeItem, joins. rewrite Hlast.
  destruct (BulletPreset_eqb (m_bulletPreset last) (bulletPreset item)) eqn:Ep;
    [apply BulletPreset_eqb_eq in Ep|];
    [destruct (Z.leb_spec (li_startIndex item) (m_endIndex last + 1)) as [Hle|Hgt]|];
    simpl.
  - split; [reflexivity|]. split; [tauto|].
    rewrite length_app. simpl. pose proof (pop_length _ _ Hlast) as Hl.
    rewrite length_app in Hl. simpl in Hl. split; [auto | lia].
  - split; [lia|]. split; [reflexivity|]. rewrite length_app. simpl. lia.
  - assert (m_bulletPreset last <> bulletPreset item) as Hne.
    { intros E. apply BulletPreset_eqb_eq in E. congruence. }
    split; [tauto|]. split; [reflexivity|]. rewrite length_app. simpl.
    split; [lia | tauto].
Qed.

(** C1. The pending items that have an end past their start, sorted by
    start, are what the merge walks.  An item is merged into the range
    before it (that range's end becoming the larger of the two ends) exactly
    when it has the same preset and starts no later than one past that
    range's end; otherwise it opens a new range.  The output has one
    createParagraphBullets request per merged range, in descending order of
    start.  ["- A\n- B\n- C"] gives one such request; ["- A\n\n**X**\n\n- B"]
    gives two, over [5,6) and [1,2), neither covering the offsets 3 and 4 of
    the paragraph between the lists. *)
Theorem bullet_ranges_merge_adjacent_items :
  (forall tokens startIndex tab options requests,
      compileTokens tokens startIndex tab options = Ok requests ->
      exists c,
        processTokens tokens (initialContext startIndex tab options) = Ok c
        /\ validListItems c ≡ₚ List.filter isValidListItem (pendingListItems c)
        /\ StronglySorted ascendingStart (validListItems c)
        /\ Forall (fun item => exists e, li_endIndex item = Some e /\ li_startIndex item < e)
                  (validListItems c)
        /\ List.filter isBullet requests = bulletRequest tab <$> mergedListRanges c
        /\ length (List.filter isBullet requests)
           = length (mergeListRanges (validListItems c))
        /\ mergedListRanges c ≡ₚ mergeListRanges (validListItems c)
        /\ StronglySorted descendingStart (mergedListRanges c))
  /\ (forall before item last,
         lastOf (mergeListRanges before) = Some last ->
         (joins last item ->
          mergeListRanges (before ++ [item])
          = pop (mergeListRanges before)
              ++ [mkMerged (m_startIndex last) (Z.max (m_endIndex last) (endOf item))
                    (m_bulletPreset last)])
         /\ (~ joins last item ->
             mergeListRanges (before ++ [item])
             = mergeListRanges before
                 ++ [mkMerged (li_startIndex item) (endOf item) (bulletPreset item)])
         /\ (length (mergeListRanges (before ++ [item]))
             = length (mergeListRanges before) <-> joins last item))
  /\ (exists requests,
         compileTokens Stream.threeItems 1 None None = Ok requests
         /\ length (List.filter isBullet requests) = 1%nat)
  /\ (exists requests,
         compileTokens Stream.interposed 1 None None = Ok requests
         /\ List.filter isBullet requests
            = [ CreateParagraphBulletsRequest (mkRange 5 6 None) BULLET_DISC_CIRCLE_SQUARE;
                CreateParagraphBulletsRequest (mkRange 1 2 None) BULLET_DISC_CIRCLE_SQUARE ]
         /\ List.filter isInsert requests
            = [ InsertTextRequest (mkLocation 1 None) "A";
                InsertTextRequest (mkLocation 2 None) newline;
                InsertTextRequest (mkLocation 3 None) "X";
                InsertTextRequest (mkLocation 4 None) newline;
                InsertTextRequest (mkLocation 5 None) "B";
                InsertTextRequest (mkLocation 6 None) newline ]
         /\ forallb (fun r => negb (covers r 3) && negb (covers r 4))
                    (List.filter isBullet requests) = true).
Proof.
  split; [|split; [|split]].
  - intros tokens startIndex tab options requests H.
    destruct (compileTokens_Ok _ _ _ _ _ H) as (c & P & _ & _ & Hc & ->).
    destruct (chainFrom_sum _ _ _ Hc) as (_ & _ & Hf).
    destruct (validListItems_spec c) as (V1 & V2 & V3).
    destruct (mergedListRanges_spec c) as (M1 & M2).
    exists c. rewrite (filter_bullet_output _ _ _ _ _ _ Hf).
    repeat split; try assumption.
    rewrite length_fmap. now rewrite M1.
  - intros before item last Hlast. rewrite mergeListRanges_snoc.
    now apply mergeItem_rule.
  - eexists. split; vm_compute; reflexivity.
  - eexists. split; [vm_compute; reflexivity|]. repeat split; vm_compute; reflexivity.
Qed.

Lemma bullet_ranges_merge_adjacent_items_witness :
  exists requests c,
    compileTokens Stream.interposed 1 None None = Ok requests
    /\ processTokens Stream.interposed (initialContext 1 None None) = Ok c
    /\ List.filter isBullet requests = bulletRequest None <$> mergedListRanges c
    /\ StronglySorted descendingStart (mergedListRanges c).
Proof.
  destruct (compileTokens Stream.interposed 1 None None) as [requests|e] eqn:E;
    [|vm_compute in E; discriminate E].
  destruct (proj1 bullet_ranges_merge_adjacent_items Stream.interposed 1 None None
              requests E) as (c & P & _ & _ & _ & B & _ & _ & S).
  exists requests, c.
  split; [reflexivity|]. split; [exact P|]. split; [exact B | exact S].
Defined.

End BulletRanges.

Section RangeLengths.
Import JS MarkdownToDocs.

(** C7, at a heading without text.  For the document ["#"] the heading
    range is recorded from the cursor to the cursor, and the output holds a
    paragraph-style request over the empty range [1,1). *)
Theorem empty_heading_zero_length_range :
  compileTokens Stream.emptyHeading 1 None None
  = Ok [ InsertTextRequest (mkLocation 1 None) newline;
         UpdateParagraphStyleRequest (mkRange 1 1 None) (NamedStyle "HEADING_1") ]
  /\ exists c,
       processTokens Stream.emptyHeading (initialContext 1 None None) = Ok c
       /\ paragraphRanges c = [mkParagraphRange 1 1 (Some "HEADING_1")].
Proof.
  split; [vm_compute; reflexivity|]. eexists. split; vm_compute; reflexivity.
Qed.

End RangeLengths.

Section NonEmptyRanges.
Import JS MarkdownToDocs.

Lemma positive_update (f : PendingListItem -> PendingListItem) (x : ConversionContext) :
  positiveRanges x -> positiveRanges (updateCurrentOpenListItem f x).
Proof.
  intros H. unfold updateCurrentOpenListItem. split_conditionals; exact H.
Qed.

Lemma positive_emitText (t : string) (x : ConversionContext) :
  truthy t = true -> positiveRanges x -> positiveRanges (emitText t x).
Proof.
  intros Ht [H1 H2]. apply truthy_len in Ht. unfold emitText.
  split_conditionals; split; simpl; try assumption.
  apply Forall_app. split; [exact H1|]. repeat constructor. simpl. lia.
Qed.

Lemma hrRanges_codeLines (lines : list string) (x : ConversionContext) :
  hrRanges (fold_left emitCodeLine lines x) = hrRanges x.
Proof.
  revert x. induction lines as [|line lines IH]; intros x; [reflexivity|].
  simpl fold_left. rewrite IH. now destruct line.
Qed.

Lemma positive_codeBlock (t : Token) (x : ConversionContext) :
  positiveRanges x -> positiveRanges (handleCodeBlockToken t x).
Proof.
  intros [H1 H2]. rewrite handleCodeBlockToken_eq.
  destruct (fold_emitCodeLine (codeBlockLines (content t)) x) as (_ & E & _).
  destruct (codeLineRanges_spec (currentIndex x) (codeBlockLines (content t)))
    as (_ & F).
  split.
  - simpl. rewrite E. apply Forall_app. split; [exact H1|].
    eapply Forall_impl; [exact F|]. now intros r [? _].
  - simpl. now rewrite hrRanges_codeLines.
Qed.

Lemma positive_horizontalRule (x : ConversionContext) :
  positiveRanges x -> positiveRanges (handleHorizontalRule x).
Proof.
  intros [H1 H2]. unfold handleHorizontalRule.
  split_conditionals; split; simpl; try assumption;
    (apply Forall_app; split; [exact H2|]; repeat constructor; simpl;
     rewrite ?len_newline; lia).
Qed.

Lemma processLeaf_positive (k : TokenKind) (t : Token) (c c' : ConversionContext) :
  positiveRanges c -> processLeaf k t c = Ok c' -> positiveRanges c'.
Proof.
  intros Hv. destruct k; simpl;
    try (intros [= <-]; now apply positive_codeBlock);
    try (intros [= <-]; now apply positive_horizontalRule);
    unfold handleListItemOpen, handleListItemClose; intros H; split_result H.
  all: unfold handleHeadingOpen, handleHeadingClose, handleParagraphOpen,
         handleParagraphClose, handleCodeInlineToken, handleTextToken,
         pushFormatting, popFormatting, pushList, popList;
    split_conditionals;
    repeat first [ apply positive_update
                 | apply positive_emitText;
                   [ match goal with
                     | H : negb (truthy ?s) = false |- truthy ?s = true =>
                         now apply negb_false_iff in H
                     end | ]
                 | progress strip_assignments ];
    exact Hv.
Qed.

Lemma mergeListRanges_positive (items : list PendingListItem) :
  Forall (fun item => li_startIndex item < endOf item) items ->
  Forall (fun m => m_startIndex m < m_endIndex m) (mergeListRanges items).
Proof.
  unfold mergeListRanges.
  assert (forall acc,
             Forall (fun m => m_startIndex m < m_endIndex m) acc ->
             Forall (fun item => li_startIndex item < endOf item) items ->
             Forall (fun m => m_startIndex m < m_endIndex m)
                    (fold_left mergeItem items acc)) as Hgen.
  { induction items as [|item items IH]; intros acc Hacc Hitems; [exact Hacc|].
    apply Forall_cons in Hitems as [Hitem Hitems]. simpl fold_left.
    apply IH; [|exact Hitems]. unfold mergeItem.
    destruct (lastOf acc) as [last|] eqn:E.
    - destruct (lastOf_Some _ _ E) as (acc' & ->).
      apply Forall_app in Hacc as [Hacc' Hlast].
      apply Forall_cons in Hlast as [Hlast _].
      destruct (_ && _).
      + unfold pop. rewrite removelast_last. apply Forall_app. split; [exact Hacc'|].
        repeat constructor. simpl. lia.
      + apply Forall_app. split; [apply Forall_app; now repeat constructor|].
        repeat constructor. exact Hitem.
    - apply Forall_app. split; [exact Hacc|]. repeat constructor. exact Hitem. }
  intros H. apply Hgen; [constructor | exact H].
Qed.

Lemma mergedListRanges_positive (c : ConversionContext) :
  Forall (fun m => m_startIndex m < m_endIndex m) (mergedListRanges c).
Proof.
  destruct (mergedListRanges_spec c) as (P & _). rewrite P.
  apply mergeListRanges_positive.
  destruct (validListItems_spec c) as (_ & _ & V).
  eapply Forall_impl; [exact V|]. intros item (e & E & Hlt). unfold endOf. now rewrite E.
Qed.

(** X4. Beside C7: every text-style request, every horizontal-rule border and
    every bullet range of a successful compilation is non-empty; only the
    named paragraph styles of headings are not guarded. *)
Lemma ranges_nonempty_unless_named_style (tokens : list Token) (startIndex : Z)
    (tab : option string) (options : option ConversionOptions) (requests : list Request) :
  compileTokens tokens startIndex tab options = Ok requests ->
  Forall nonEmptyUnlessNamedStyle requests.
Proof.
  intros H. destruct (compileTokens_Ok _ _ _ _ _ H) as (c & P & _ & _ & Hc & ->).
  destruct (chainFrom_sum _ _ _ Hc) as (_ & _ & Hf).
  assert (positiveRanges (initialContext startIndex tab options)) as Hi
      by (split; constructor).
  destruct (processTokens_preserves positiveRanges processLeaf_positive _ _ _ Hi P)
    as [H1 H2].
  repeat (apply Forall_app; split).
  - rewrite <- Hf. apply Forall_forall. intros r Hin.
    apply list_elem_of_In, List.filter_In in Hin as [_ Hr]. now destruct r.
  - apply Forall_concat, Forall_fmap. eapply Forall_impl; [exact H1|].
    intros r Hr. unfold compose, textRangeRequests, buildUpdateTextStyleRequest.
    repeat match goal with
           | |- context [if ?b then _ else _] => destruct b
           | |- context [match ?b with Some _ => _ | None => _ end] => destruct b
           end; repeat constructor; exact Hr.
  - apply Forall_concat, Forall_fmap, Forall_forall. intros r _.
    unfold compose, paragraphRangeRequests. destruct (truthyString _); now repeat constructor.
  - apply Forall_fmap. eapply Forall_impl; [exact H2|]. now intros h Hh.
  - apply Forall_fmap. eapply Forall_impl; [apply mergedListRanges_positive|].
    now intros m Hm.
Qed.

End NonEmptyRanges.

(** ** Further properties of the forward compiler *)

Section OutputShape.
Import JS MarkdownToDocs.

Lemma processTokens_app (before after : list Token) (c : ConversionContext) :
  processTokens (before ++ after) c
  = bind (processTokens before c) (processTokens after).
Proof.
  revert c. induction before as [|t before IH]; intros c; [reflexivity|].
  simpl. destruct (processToken t c); simpl; [apply IH | reflexivity].
Qed.

(** X1. Insertions come first, in the order they were made: the output is
    the insertion list the token pass ends with, followed by requests none
    of which is an insertion.  In that list each insertion is placed where
    the one before it ended, the first at the start index, and the
    insertions made while any first part of the tokens was processed stand
    at its front, as they were made, before those of the remaining
    tokens. *)
Theorem insertions_precede_formatting (tokens : list Token) (startIndex : Z)
    (tab : option string) (options : option ConversionOptions) (requests : list Request) :
  compileTokens tokens startIndex tab options = Ok requests ->
  exists c formats,
    processTokens tokens (initialContext startIndex tab options) = Ok c
    /\ requests = insertRequests c ++ formats
    /\ Forall (fun r => isInsert r = true) (insertRequests c)
    /\ Forall (fun r => isInsert r = false) formats
    /\ chainFrom startIndex (insertRequests c) = Some (currentIndex c)
    /\ (forall before after,
           tokens = before ++ after ->
           exists c1 later,
             processTokens before (initialContext startIndex tab options) = Ok c1
             /\ processTokens after c1 = Ok c
             /\ insertRequests c = insertRequests c1 ++ later
             /\ chainFrom (currentIndex c1) later = Some (currentIndex c)).
Proof.
  intros H. destruct (compileTokens_Ok _ _ _ _ _ H) as (c & P & _ & _ & Hc & ->).
  destruct (chainFrom_sum _ _ _ Hc) as (_ & _ & Hf).
  exists c. eexists. split; [exact P|]. split; [reflexivity|].
  split; [|split; [|split; [exact Hc|]]].
  - rewrite <- Hf. apply Forall_forall. intros r Hin.
    now apply list_elem_of_In, List.filter_In in Hin.
  - repeat (apply Forall_app; split).
    + apply Forall_concat, Forall_fmap, Forall_forall. intros r _.
      unfold compose, textRangeRequests, buildUpdateTextStyleRequest.
      repeat match goal with
             | |- context [if ?b then _ else _] => destruct b
             | |- context [match ?b with Some _ => _ | None => _ end] => destruct b
             end; now repeat constructor.
    + apply Forall_concat, Forall_fmap, Forall_forall. intros r _.
      unfold compose, paragraphRangeRequests.
      destruct (truthyString (namedStyleType r)); now repeat constructor.
    + apply Forall_fmap, Forall_forall. now intros r _.
    + apply Forall_fmap, Forall_forall. now intros r _.
  - intros before after ->. rewrite processTokens_app in P.
    destruct (processTokens before _) as [c1|] eqn:P1; [|discriminate P].
    simpl in P. destruct (processTokens_advances _ _ _ P) as (later & L1 & L2).
    exists c1, later. repeat split; assumption.
Qed.

Lemma insertions_precede_formatting_witness :
  exists requests c formats c1 later,
    compileTokens Stream.interposed 1 None None = Ok requests
    /\ requests = insertRequests c ++ formats
    /\ Forall (fun r => isInsert r = true) (insertRequests c)
    /\ Forall (fun r => isInsert r = false) formats
    /\ processTokens (Stream.bulletList [Stream.item "A"]) (initialContext 1 None None)
       = Ok c1
    /\ insertRequests c = insertRequests c1 ++ later.
Proof.
  destruct (compileTokens Stream.interposed 1 None None) as [requests|e] eqn:E;
    [|vm_compute in E; discriminate E].
  destruct (insertions_precede_formatting _ _ _ _ _ E)
    as (c & fmt & _ & E1 & F1 & F2 & _ & Hprefix).
  destruct (Hprefix (Stream.bulletList [Stream.item "A"]) _ eq_refl)
    as (c1 & later & P1 & _ & L & _).
  exists requests, c, fmt, c1, later. split; [reflexivity|]. split; [exact E1|].
  split; [exact F1|]. split; [exact F2|]. split; [exact P1 | exact L].
Defined.

Lemma carryTab_update (f : PendingListItem -> PendingListItem) (x : ConversionContext) :
  insertsCarryTab x -> insertsCarryTab (updateCurrentOpenListItem f x).
Proof.
  intros H. unfold updateCurrentOpenListItem. split_conditionals; exact H.
Qed.

Lemma carryTab_insertText (t : string) (x : ConversionContext) :
  insertsCarryTab x -> insertsCarryTab (insertText t x).
Proof.
  intros H. unfold insertsCarryTab. simpl. apply Forall_app. split; [exact H|].
  now repeat constructor.
Qed.

Lemma carryTab_codeLines (lines : list string) (x : ConversionContext) :
  insertsCarryTab x -> insertsCarryTab (fold_left emitCodeLine lines x).
Proof.
  revert x. induction lines as [|line lines IH]; intros x H; [exact H|].
  simpl fold_left. apply IH. rewrite emitCodeLine_eq.
  apply carryTab_insertText. strip_assignments. now apply carryTab_insertText.
Qed.

Lemma processLeaf_carryTab (k : TokenKind) (t : Token) (c c' : ConversionContext) :
  insertsCarryTab c -> processLeaf k t c = Ok c' -> insertsCarryTab c'.
Proof.
  intros Hv. destruct k; simpl; unfold handleListItemOpen, handleListItemClose;
    intros H; split_result H.
  all: unfold_handlers; split_conditionals;
    repeat first [ apply carryTab_update | apply carryTab_insertText
                 | apply carryTab_codeLines | progress strip_assignments ];
    exact Hv.
Qed.

(** X2. Every request of the output addresses the sub-document the call was
    given: the tab identifier when it is a non-empty string, and none
    otherwise. *)
Theorem every_request_carries_the_tab (tokens : list Token) (startIndex : Z)
    (tab : option string) (options : option ConversionOptions) (requests : list Request) :
  compileTokens tokens startIndex tab options = Ok requests ->
  Forall (fun r => tabOf r = truthyString tab) requests.
Proof.
  intros H. destruct (compileTokens_Ok _ _ _ _ _ H) as (c & P & Ht & _ & _ & ->).
  assert (insertsCarryTab (initialContext startIndex tab options)) as Hi by constructor.
  pose proof (processTokens_preserves insertsCarryTab processLeaf_carryTab _ _ _ Hi P) as Hc.
  unfold insertsCarryTab in Hc. rewrite Ht in Hc.
  repeat (apply Forall_app; split); [exact Hc | | | |].
  - apply Forall_concat, Forall_fmap, Forall_forall. intros r _.
    unfold compose, textRangeRequests, buildUpdateTextStyleRequest.
    repeat match goal with
           | |- context [if ?b then _ else _] => destruct b
           | |- context [match ?b with Some _ => _ | None => _ end] => destruct b
           end; now repeat constructor.
  - apply Forall_concat, Forall_fmap, Forall_forall. intros r _.
    unfold compose, paragraphRangeRequests.
    destruct (truthyString (namedStyleType r)); now repeat constructor.
  - apply Forall_fmap, Forall_forall. now intros r _.
  - apply Forall_fmap, Forall_forall. now intros r _.
Qed.

Lemma every_request_carries_the_tab_witness :
  exists requests,
    compileTokens Stream.interposed 1 (Some "t.1") None = Ok requests
    /\ Forall (fun r => tabOf r = Some "t.1") requests.
Proof.
  destruct (compileTokens Stream.interposed 1 (Some "t.1") None) as [requests|e] eqn:E;
    [|vm_compute in E; discriminate E].
  exists requests. split; [reflexivity|].
  exact (every_request_carries_the_tab _ _ _ _ _ E).
Defined.

(** X3. Without the first-heading-as-title option no request of the output has
    the TITLE style, whatever the headings. *)
Theorem no_title_without_the_option (tokens : list Token) (startIndex : Z)
    (tab : option string) (options : option ConversionOptions) (requests : list Request) :
  (forall o, options = Some o -> opt_firstHeadingAsTitle o <> Some true) ->
  compileTokens tokens startIndex tab options = Ok requests ->
  Forall (fun s => s <> "TITLE") (namedStyles requests).
Proof.
  intros Hopt H.
  assert (firstHeadingAsTitle (initialContext startIndex tab options) = false) as Hoff.
  { destruct options as [[[[|]|]]|]; try reflexivity.
    now destruct (Hopt _ eq_refl). }
  destruct (compileTokens_Ok _ _ _ _ _ H) as (c & P & _ & F & Hc & ->).
  destruct (chainFrom_sum _ _ _ Hc) as (_ & _ & Hf).
  rewrite (namedStyles_output _ _ _ _ _ _ Hf). fold (rangeStyles c).
  assert (titleInv (initialContext startIndex tab options)) as Hi.
  { unfold titleInv. rewrite Hoff. constructor. }
  pose proof (processTokens_preserves titleInv processLeaf_titleInv _ _ _ Hi P) as Ht.
  unfold titleInv in Ht. rewrite F, Hoff in Ht. exact Ht.
Qed.

Lemma no_title_without_the_option_witness :
  exists requests,
    compileTokens Stream.twoH1 1 None (Some (mkOptions (Some false))) = Ok requests
    /\ Forall (fun s => s <> "TITLE") (namedStyles requests).
Proof.
  destruct (compileTokens Stream.twoH1 1 None (Some (mkOptions (Some false))))
    as [requests|e] eqn:E; [|vm_compute in E; discriminate E].
  exists requests. split; [reflexivity|].
  refine (no_title_without_the_option Stream.twoH1 1 None _ requests _ E).
  intros o [= <-]. discriminate.
Defined.

Lemma ranges_nonempty_unless_named_style_witness :
  exists requests,
    compileTokens Stream.interposed 1 None None = Ok requests
    /\ Forall nonEmptyUnlessNamedStyle requests.
Proof.
  destruct (compileTokens Stream.interposed 1 None None) as [requests|e] eqn:E;
    [|vm_compute in E; discriminate E].
  exists requests. split; [reflexivity|].
  exact (ranges_nonempty_unless_named_style _ _ _ _ _ E).
Defined.

End OutputShape.

Section FormattingStack.
Import JS MarkdownToDocs.

Lemma removeFirst_app {A} (p : A -> bool) (l1 l2 : list A) (x : A) :
  Forall (fun y => p y = false) l1 -> p x = true ->
  removeFirst p (l1 ++ x :: l2) = l1 ++ l2.
Proof.
  intros H Hx. induction H as [|y l1 Hy _ IH]; simpl; [now rewrite Hx|].
  now rewrite Hy, IH.
Qed.

Lemma popFormatting_splice (c : ConversionContext) (k : FormattingKey)
    (below : list FormattingState) (f : FormattingState) (above : list FormattingState) :
  formattingStack c = below ++ f :: above ->
  defines k f = true ->
  Forall (fun g => defines k g = false) above ->
  popFormatting c k = set_formattingStack (below ++ above) c.
Proof.
  intros E Hf Habove. unfold popFormatting. rewrite E. f_equal.
  rewrite rev_app_distr. simpl. rewrite <- app_assoc. simpl.
  rewrite removeFirst_app; [| now apply Forall_rev | exact Hf].
  now rewrite rev_app_distr, !rev_involutive.
Qed.

(** X5. A closing formatting token removes the most recently pushed entry that
    carries its attribute, which need not be the top of the stack, and leaves
    the entries below and above it in place; an opening token followed by
    its closing token gives the state back. *)
Theorem close_removes_latest_opening :
  (forall c k below f above,
      formattingStack c = below ++ f :: above ->
      defines k f = true ->
      Forall (fun g => defines k g = false) above ->
      formattingStack (popFormatting c k) = below ++ above
      /\ popFormatting c k = set_formattingStack (below ++ above) c)
  /\ (forall c t1 t2,
         bind (processLeaf strong_open t1 c) (processLeaf strong_close t2) = Ok c
         /\ bind (processLeaf em_open t1 c) (processLeaf em_close t2) = Ok c
         /\ bind (processLeaf s_open t1 c) (processLeaf s_close t2) = Ok c).
Proof.
  split.
  - intros c k below f above E Hf Habove.
    rewrite (popFormatting_splice c k below f above E Hf Habove). split; reflexivity.
  - intros c t1 t2. simpl. unfold pushFormatting.
    repeat split; f_equal;
      (erewrite popFormatting_splice;
       [ | simpl; reflexivity | reflexivity | constructor ]);
      rewrite app_nil_r; now destruct c.
Qed.

Lemma close_removes_latest_opening_witness :
  formattingStack
    (popFormatting
       (set_formattingStack
          [ mkFormatting (Some true) None None None None;
            mkFormatting None (Some true) None None None ]
          (initialContext 1 None None))
       key_bold)
  = [mkFormatting None (Some true) None None None].
Proof.
  refine (proj1 (proj1 close_removes_latest_opening
                   (set_formattingStack
                      [ mkFormatting (Some true) None None None None;
                        mkFormatting None (Some true) None None None ]
                      (initialContext 1 None None))
                   key_bold []
                   (mkFormatting (Some true) None None None None)
                   [mkFormatting None (Some true) None None None] eq_refl eq_refl _)).
  repeat constructor.
Defined.

Lemma mergeFormattingStack_snoc (stack : list FormattingState) (f : FormattingState) :
  mergeFormattingStack (stack ++ [f])
  = mkFormatting (override (bold f) (bold (mergeFormattingStack stack)))
                 (override (italic f) (italic (mergeFormattingStack stack)))
                 (override (strikethrough f) (strikethrough (mergeFormattingStack stack)))
                 (override (link f) (link (mergeFormattingStack stack)))
                 (override (code f) (code (mergeFormattingStack stack))).
Proof. unfold mergeFormattingStack. now rewrite fold_left_app. Qed.

Lemma merged_attribute {A} (get : FormattingState -> option A)
    (below : list FormattingState) (f : FormattingState) (above : list FormattingState) :
  (forall stack g, get (mergeFormattingStack (stack ++ [g]))
                   = override (get g) (get (mergeFormattingStack stack))) ->
  is_Some (get f) ->
  Forall (fun g => get g = None) above ->
  get (mergeFormattingStack (below ++ f :: above)) = get f.
Proof.
  intros Hsnoc [v Hv] Habove.
  induction above as [|g above IH] using rev_ind.
  - change (below ++ [f]) with (below ++ [f]). rewrite Hsnoc, Hv. reflexivity.
  - apply Forall_app in Habove as [Habove Hg]. apply Forall_cons in Hg as [Hg _].
    change (below ++ f :: above ++ [g]) with (below ++ (f :: above) ++ [g]).
    rewrite app_assoc, Hsnoc, Hg. simpl. now apply IH.
Qed.

(** X6. Merging the stack, the entry nearest the top that sets an attribute
    decides it: for each of bold, italic, strikethrough, link and code, the
    merged value is that of the last entry defining it. *)
Theorem merged_formatting_latest_wins (below : list FormattingState)
    (f : FormattingState) (above : list FormattingState) :
  let merged := mergeFormattingStack (below ++ f :: above) in
  (is_Some (bold f) -> Forall (fun g => bold g = None) above -> bold merged = bold f)
  /\ (is_Some (italic f) -> Forall (fun g => italic g = None) above ->
      italic merged = italic f)
  /\ (is_Some (strikethrough f) -> Forall (fun g => strikethrough g = None) above ->
      strikethrough merged = strikethrough f)
  /\ (is_Some (link f) -> Forall (fun g => link g = None) above -> link merged = link f)
  /\ (is_Some (code f) -> Forall (fun g => code g = None) above -> code merged = code f).
Proof.
  cbv zeta. repeat split; intros Hf Habove;
    (apply merged_attribute; [|exact Hf|exact Habove]);
    intros stack g; now rewrite mergeFormattingStack_snoc.
Qed.

Lemma merged_formatting_latest_wins_witness :
  bold (mergeFormattingStack
          [ mkFormatting (Some true) None None None None;
            mkFormatting (Some false) None None None None;
            mkFormatting None (Some true) None None None ])
  = Some false.
Proof.
  refine (proj1 (merged_formatting_latest_wins
                   [mkFormatting (Some true) None None None None]
                   (mkFormatting (Some false) None None None None)
                   [mkFormatting None (Some true) None None None]) _ _).
  - now exists false.
  - repeat constructor.
Defined.

End FormattingStack.

Section HorizontalRules.
Import JS MarkdownToDocs.

Lemma rules_weaken (x y : ConversionContext) :
  tabId y = tabId x -> hrRanges y = hrRanges x ->
  (forall r, In r (insertRequests x) -> In r (insertRequests y)) ->
  rulesInv x -> rulesInv y.
Proof.
  intros Ht Hh Hin H. unfold rulesInv, isRulePlaceholder in *. rewrite Hh, Ht.
  eapply Forall_impl; [exact H|]. intros h [? ?]. auto.
Qed.

Lemma rules_insertText (t : string) (x : ConversionContext) :
  rulesInv x -> rulesInv (insertText t x).
Proof.
  apply rules_weaken; try reflexivity. intros r Hr. simpl. apply in_or_app. now left.
Qed.

Lemma rules_update (f : PendingListItem -> PendingListItem) (x : ConversionContext) :
  rulesInv x -> rulesInv (updateCurrentOpenListItem f x).
Proof.
  intros H. unfold updateCurrentOpenListItem. split_conditionals; exact H.
Qed.

Lemma rules_codeLines (lines : list string) (x : ConversionContext) :
  rulesInv x -> rulesInv (fold_left emitCodeLine lines x).
Proof.
  revert x. induction lines as [|line lines IH]; intros x H; [exact H|].
  simpl fold_left. apply IH. rewrite emitCodeLine_eq.
  apply rules_insertText. strip_assignments. now apply rules_insertText.
Qed.

Lemma rules_horizontalRule (x : ConversionContext) :
  rulesInv x -> rulesInv (handleHorizontalRule x).
Proof.
  intros H. unfold handleHorizontalRule. split_conditionals.
  - unfold rulesInv. simpl. apply Forall_app. split.
    + apply (rules_insertText newline), (rules_insertText newline) in H. exact H.
    + constructor; [|constructor]. split; simpl; [rewrite ?len_newline; lia|].
      apply in_or_app. right. now left.
  - unfold rulesInv. simpl. apply Forall_app. split.
    + apply (rules_insertText newline) in H. exact H.
    + constructor; [|constructor]. split; simpl; [rewrite ?len_newline; lia|].
      apply in_or_app. right. now left.
Qed.

Lemma processLeaf_rules (k : TokenKind) (t : Token) (c c' : ConversionContext) :
  rulesInv c -> processLeaf k t c = Ok c' -> rulesInv c'.
Proof.
  intros Hv. destruct k; simpl;
    try (intros [= <-]; now apply rules_horizontalRule);
    unfold handleListItemOpen, handleListItemClose; intros H; split_result H.
  all: unfold handleHeadingOpen, handleHeadingClose, handleParagraphOpen,
         handleParagraphClose, handleCodeInlineToken, handleTextToken, emitText,
         pushFormatting, popFormatting, handleCodeBlockToken, pushList, popList;
    split_conditionals;
    repeat first [ apply rules_update | apply rules_insertText
                 | apply rules_codeLines | progress strip_assignments ];
    exact Hv.
Qed.

(** X7. Every horizontal rule of the output styles exactly one character, and
    that character is a newline the same output inserts at the rule's start
    offset. *)
Theorem rule_border_styles_one_newline (tokens : list Token) (startIndex : Z)
    (tab : option string) (options : option ConversionOptions) (requests : list Request) :
  compileTokens tokens startIndex tab options = Ok requests ->
  Forall (borderOverNewline requests) requests.
Proof.
  intros H. destruct (compileTokens_Ok _ _ _ _ _ H) as (c & P & Ht & _ & _ & ->).
  assert (rulesInv (initialContext startIndex tab options)) as Hi by constructor.
  pose proof (processTokens_preserves rulesInv processLeaf_rules _ _ _ Hi P) as Hc.
  unfold rulesInv, isRulePlaceholder in Hc. rewrite Ht in Hc.
  assert (forall out,
             (forall r, In r (insertRequests c) -> In r out) ->
             Forall (borderOverNewline out)
               (insertRequests c
                  ++ concat (textRangeRequests tab <$> textRanges c)
                  ++ concat (paragraphRangeRequests tab <$> paragraphRanges c)
                  ++ (hrRangeRequest tab <$> hrRanges c)
                  ++ (bulletRequest tab <$> mergedListRanges c))) as Hgen;
    [|apply Hgen; intros r Hr; apply in_or_app; now left].
  intros out Hsub.
  repeat (apply Forall_app; split).
  - apply Forall_forall. intros r Hr. apply list_elem_of_In in Hr.
    assert (chain : exists j, chainFrom startIndex (insertRequests c) = Some j).
    { destruct (processTokens_advances _ _ _ P) as (new & E & Hj). simpl in E, Hj.
      rewrite E. eauto. }
    destruct chain as (j & Hj). destruct (chainFrom_sum _ _ _ Hj) as (_ & _ & Hf).
    rewrite <- Hf in Hr. apply List.filter_In in Hr as [_ Hr]. now destruct r.
  - apply Forall_concat, Forall_fmap, Forall_forall. intros r _.
    unfold compose, textRangeRequests, buildUpdateTextStyleRequest.
    repeat match goal with
           | |- context [if ?b then _ else _] => destruct b
           | |- context [match ?b with Some _ => _ | None => _ end] => destruct b
           end; now repeat constructor.
  - apply Forall_concat, Forall_fmap, Forall_forall. intros r _.
    unfold compose, paragraphRangeRequests.
    destruct (truthyString (namedStyleType r)); now repeat constructor.
  - apply Forall_fmap. eapply Forall_impl; [exact Hc|].
    intros h [E Hin]. simpl. split; [exact E | now apply Hsub].
  - apply Forall_fmap, Forall_forall. now intros r _.
Qed.

Lemma rule_border_styles_one_newline_witness :
  exists requests,
    compileTokens aroundRule 1 None None = Ok requests
    /\ Forall (borderOverNewline requests) requests
    /\ In (UpdateParagraphStyleRequest (mkRange 7 8 None) BorderBottom) requests.
Proof.
  destruct (compileTokens aroundRule 1 None None) as [requests|e] eqn:E;
    [|vm_compute in E; discriminate E].
  exists requests. split; [reflexivity|].
  split; [exact (rule_border_styles_one_newline _ _ _ _ _ E)|].
  vm_compute in E. injection E as <-. simpl. tauto.
Defined.

Lemma lastNewline_insert (x : ConversionContext) :
  lastInsertEndsWithNewline (insertText newline x) = true.
Proof.
  unfold lastInsertEndsWithNewline, lastInsertText. simpl. now rewrite lastOf_app.
Qed.

Lemma lastNewline_update (f : PendingListItem -> PendingListItem) (x : ConversionContext) :
  lastInsertEndsWithNewline (updateCurrentOpenListItem f x) = lastInsertEndsWithNewline x.
Proof. unfold updateCurrentOpenListItem. split_conditionals; reflexivity. Qed.

(** X8. After a paragraph close, a horizontal rule, a code block, a hard break,
    the close of an open list item or the close of an open heading, the last
    insertion ends with a newline; and a paragraph close or list-item close
    met when it already does inserts nothing, so closes do not pile up
    newlines. *)
Theorem closing_a_block_ends_the_line (k : TokenKind) (t : Token)
    (c c' : ConversionContext) :
  processLeaf k t c = Ok c' ->
  endsLine k c ->
  lastInsertEndsWithNewline c' = true
  /\ (k = paragraph_close \/ k = list_item_close ->
      lastInsertEndsWithNewline c = true ->
      insertRequests c' = insertRequests c /\ currentIndex c' = currentIndex c).
Proof.
  intros H [->|[->|[->|[->|[->|[(-> & Hopen)|(-> & (l & Hl) & (p & Hp))]]]]]];
    simpl in H.
  - injection H as <-. split.
    + unfold handleParagraphClose. split_conditionals; strip_assignments;
        rewrite ?lastNewline_update; try apply lastNewline_insert;
        match goal with H : negb _ = false |- _ => now apply negb_false_iff in H end.
    + intros _ Hnl. unfold handleParagraphClose. rewrite Hnl. simpl negb. cbv iota.
      split_conditionals; simpl; rewrite ?insertRequests_update; try (split; reflexivity);
        unfold updateCurrentOpenListItem; split_conditionals; split; reflexivity.
  - injection H as <-. split; [|intros [?|?]; discriminate].
    unfold handleHorizontalRule. split_conditionals; apply lastNewline_insert.
  - injection H as <-. split; [|intros [?|?]; discriminate].
    rewrite handleCodeBlockToken_eq. apply lastNewline_insert.
  - injection H as <-. split; [|intros [?|?]; discriminate].
    rewrite handleCodeBlockToken_eq. apply lastNewline_insert.
  - injection H as <-. split; [|intros [?|?]; discriminate]. apply lastNewline_insert.
  - unfold handleListItemClose in H.
    destruct (lastOf (openListItemStack c)) as [i|] eqn:E;
      [|apply lastOf_None in E; contradiction].
    cbv zeta in H.
    destruct (pendingListItems _ !! i) as [item|]; [|discriminate].
    injection H as <-. split.
    + split_conditionals; strip_assignments; try apply lastNewline_insert;
        match goal with H : negb _ = false |- _ => now apply negb_false_iff in H end.
    + intros _ Hnl. split_conditionals;
        try (match goal with
             | H : negb (lastInsertEndsWithNewline ?x) = true |- _ =>
                 change (lastInsertEndsWithNewline x)
                   with (lastInsertEndsWithNewline c) in H;
                 rewrite Hnl in H; discriminate H
             end);
        split; reflexivity.
  - injection H as <-. split; [|intros [?|?]; discriminate].
    unfold handleHeadingClose. rewrite Hl, Hp. apply lastNewline_insert.
Qed.

Lemma closing_a_block_ends_the_line_witness :
  lastInsertEndsWithNewline
    (handleParagraphClose (insertText "A" (initialContext 1 None None))) = true.
Proof.
  refine (proj1 (closing_a_block_ends_the_line paragraph_close
                   (Stream.tok "paragraph_close" "p")
                   (insertText "A" (initialContext 1 None None)) _ eq_refl _)).
  now left.
Defined.

End HorizontalRules.

Section Blocks.
Import JS MarkdownToDocs.

Lemma sameHeading_refl (c : ConversionContext) : sameHeading c c.
Proof. repeat split. Qed.

Lemma sameHeading_update (f : PendingListItem -> PendingListItem)
    (c x : ConversionContext) :
  sameHeading c x -> sameHeading c (updateCurrentOpenListItem f x).
Proof.
  intros H. unfold updateCurrentOpenListItem. split_conditionals; exact H.
Qed.

Lemma processLeaf_sameHeading (k : TokenKind) (t : Token) (c c' : ConversionContext) :
  isInlineKind k = true -> processLeaf k t c = Ok c' -> sameHeading c c'.
Proof.
  destruct k; try discriminate; intros _; simpl; intros H; split_result H.
  all: unfold handleCodeInlineToken, handleTextToken, emitText, pushFormatting,
         popFormatting;
    split_conditionals;
    repeat first [ apply sameHeading_update | progress strip_assignments ];
    apply sameHeading_refl.
Qed.

Lemma processLeaves_sameHeading (leaves : list Token) (c c' : ConversionContext) :
  Forall (fun t => isInlineKind (kindOf (type t)) = true) leaves ->
  processLeaves leaves c = Ok c' -> sameHeading c c'.
Proof.
  intros Hall. revert c. induction Hall as [|t leaves Ht _ IH]; intros c H.
  - injection H as <-. apply sameHeading_refl.
  - simpl in H. destruct (processLeaf _ t c) as [c1|] eqn:E; [|discriminate].
    destruct (processLeaf_sameHeading _ _ _ _ Ht E) as (A1 & A2 & A3 & A4).
    destruct (IH _ H) as (B1 & B2 & B3 & B4).
    repeat split; congruence.
Qed.

Lemma processLeaves_advances (leaves : list Token) (c c' : ConversionContext) :
  processLeaves leaves c = Ok c' -> advances c c'.
Proof.
  apply (processLeaves_preserves (advances c)); [|apply advances_refl].
  intros k t x x' Hx H.
  exact (advances_trans _ _ _ Hx (processLeaf_advances _ _ _ _ H)).
Qed.

Lemma processLeaves_sameSettings (leaves : list Token) (c c' : ConversionContext) :
  processLeaves leaves c = Ok c' -> sameSettings c c'.
Proof.
  apply (processLeaves_preserves (sameSettings c)); [|repeat split].
  intros k t x x' (E1 & E2 & E3) H.
  destruct (processLeaf_sameSettings _ _ _ _ H) as (F1 & F2 & F3).
  repeat split; congruence.
Qed.

(** X9. A heading, whatever inline tokens it holds: the paragraph range recorded
    at its close runs from the cursor at its open to the cursor at its close,
    so it covers exactly what the heading's content inserted and not the
    newline that the close then appends; its style is HEADING_n for the level
    n of the opening tag, or TITLE for the promoted first level-1 heading. *)
Theorem heading_range_covers_its_content (opening : Token) (inner : list Token)
    (c c1 : ConversionContext) (l : nat) :
  getHeadingLevel opening = Some (S l) ->
  Forall (fun t => isInlineKind (kindOf (type t)) = true) inner ->
  processLeaves inner (handleHeadingOpen opening c) = Ok c1 ->
  paragraphRanges (handleHeadingClose c1)
  = paragraphRanges c
      ++ [mkParagraphRange (currentIndex c) (currentIndex c1)
            (Some (if firstHeadingAsTitle c && negb (titleConsumed c) && Nat.eqb (S l) 1
                   then "TITLE" else headingStyleName (S l)))]
  /\ insertRequests (handleHeadingClose c1)
     = insertRequests c1
         ++ [InsertTextRequest (mkLocation (currentIndex c1) (truthyString (tabId c))) newline]
  /\ currentIndex c <= currentIndex c1
  /\ currentIndex (handleHeadingClose c1) = currentIndex c1 + 1
  /\ currentHeadingLevel (handleHeadingClose c1) = None.
Proof.
  intros Hlevel Hinner Hrun.
  destruct (processLeaves_sameHeading _ _ _ Hinner Hrun) as (A1 & A2 & A3 & A4).
  destruct (processLeaves_sameSettings _ _ _ Hrun) as (_ & S2 & S3).
  pose proof (advances_cursor _ _ (processLeaves_advances _ _ _ Hrun)) as Hle.
  unfold handleHeadingOpen in A1, A2, A3, A4, S2, S3, Hle. rewrite Hlevel in *.
  simpl in A1, A2, A3, A4, S2, S3, Hle.
  unfold handleHeadingClose. rewrite A1, A2. cbv zeta. rewrite S3, A4.
  destruct (firstHeadingAsTitle c && negb (titleConsumed c) && Nat.eqb (S l) 1);
    simpl; rewrite A3, S2, ?len_newline; repeat split; try reflexivity; exact Hle.
Qed.

Lemma heading_range_covers_its_content_witness :
  paragraphRanges
    (handleHeadingClose
       (handleTextToken (Stream.txt "Plan")
          (handleHeadingOpen (Stream.tok "heading_open" "h3") (initialContext 1 None None))))
  = [mkParagraphRange 1 5 (Some "HEADING_3")].
Proof.
  refine (proj1 (heading_range_covers_its_content
                   (Stream.tok "heading_open" "h3") [Stream.txt "Plan"]
                   (initialContext 1 None None) _ 2 eq_refl _ eq_refl)).
  repeat constructor.
Defined.

Lemma current_insertText (t : string) (x : ConversionContext) :
  getCurrentOpenListItem (insertText t x) = getCurrentOpenListItem x.
Proof. reflexivity. Qed.

(** X10. At a paragraph close inside an open list item, the end recorded for the
    item is the offset just before the newline that ends the paragraph,
    provided that lies past the item's start; the newline itself is never
    part of the item. *)
Theorem item_end_precedes_the_newline (c : ConversionContext) (item : PendingListItem) :
  getCurrentOpenListItem c = Some item ->
  let c' := handleParagraphClose c in
  lastInsertEndsWithNewline c' = true
  /\ getCurrentOpenListItem c'
     = Some (if li_startIndex item <? currentIndex c' - 1
             then set_endIndex (currentIndex c' - 1) item
             else item).
Proof.
  intros Hcur. cbv zeta. unfold handleParagraphClose.
  destruct (lastInsertEndsWithNewline c) eqn:Hnl; simpl negb; cbv iota zeta.
  - rewrite Hcur, Hnl.
    destruct (li_startIndex item <? currentIndex c - 1) eqn:Hlt.
    + destruct (update_current (set_endIndex (currentIndex c - 1)) c item Hcur)
        as (U1 & U2 & U3 & _).
      split.
      * change (lastInsertEndsWithNewline
                  (updateCurrentOpenListItem (set_endIndex (currentIndex c - 1)) c) = true).
        now rewrite lastNewline_update.
      * change (getCurrentOpenListItem
                  (updateCurrentOpenListItem (set_endIndex (currentIndex c - 1)) c)
                = Some (if li_startIndex item
                           <? currentIndex
                                (updateCurrentOpenListItem
                                   (set_endIndex (currentIndex c - 1)) c) - 1
                        then set_endIndex
                               (currentIndex
                                  (updateCurrentOpenListItem
                                     (set_endIndex (currentIndex c - 1)) c) - 1) item
                        else item)).
        now rewrite U1, U2, Hlt.
    + split; [exact Hnl|].
      change (getCurrentOpenListItem c
              = Some (if li_startIndex item <? currentIndex c - 1
                      then set_endIndex (currentIndex c - 1) item else item)).
      now rewrite Hcur, Hlt.
  - rewrite current_insertText, Hcur, lastNewline_insert.
    set (x := insertText newline c).
    assert (getCurrentOpenListItem x = Some item) as Hx by exact Hcur.
    destruct (li_startIndex item <? currentIndex x - 1) eqn:Hlt.
    + destruct (update_current (set_endIndex (currentIndex x - 1)) x item Hx)
        as (U1 & U2 & U3 & _).
      split.
      * change (lastInsertEndsWithNewline
                  (updateCurrentOpenListItem (set_endIndex (currentIndex x - 1)) x) = true).
        rewrite lastNewline_update. apply lastNewline_insert.
      * change (getCurrentOpenListItem
                  (updateCurrentOpenListItem (set_endIndex (currentIndex x - 1)) x)
                = Some (if li_startIndex item
                           <? currentIndex
                                (updateCurrentOpenListItem
                                   (set_endIndex (currentIndex x - 1)) x) - 1
                        then set_endIndex
                               (currentIndex
                                  (updateCurrentOpenListItem
                                     (set_endIndex (currentIndex x - 1)) x) - 1) item
                        else item)).
        now rewrite U1, U2, Hlt.
    + split; [apply lastNewline_insert|].
      change (getCurrentOpenListItem x
              = Some (if li_startIndex item <? currentIndex x - 1
                      then set_endIndex (currentIndex x - 1) item else item)).
      now rewrite Hx, Hlt.
Qed.

Lemma item_end_precedes_the_newline_witness :
  getCurrentOpenListItem
    (handleParagraphClose (handleTextToken (Stream.txt "done") insideFirstItem))
  = Some (mkPendingListItem 1 (Some 5) 0 BULLET_DISC_CIRCLE_SQUARE true).
Proof.
  assert (getCurrentOpenListItem (handleTextToken (Stream.txt "done") insideFirstItem)
          = Some (mkPendingListItem 1 None 0 BULLET_DISC_CIRCLE_SQUARE true)) as Hcur
      by (vm_compute; reflexivity).
  destruct (item_end_precedes_the_newline _ _ Hcur) as (_ & H).
  rewrite H. vm_compute. reflexivity.
Defined.

End Blocks.

Section Nesting.
Import JS MarkdownToDocs.

Lemma levels_update (f : PendingListItem -> PendingListItem) (x : ConversionContext) :
  levelsAreDepths x -> levelsAreDepths (updateCurrentOpenListItem f x).
Proof.
  intros H. unfold updateCurrentOpenListItem. split_conditionals; exact H.
Qed.

Lemma levels_codeLines (lines : list string) (x : ConversionContext) :
  levelsAreDepths x -> levelsAreDepths (fold_left emitCodeLine lines x).
Proof.
  revert x. induction lines as [|line lines IH]; intros x H; [exact H|].
  simpl fold_left. apply IH. unfold emitCodeLine.
  split_conditionals; strip_assignments; exact H.
Qed.

Lemma levels_push (ty : ListType) (x : ConversionContext) :
  levelsAreDepths x -> levelsAreDepths (pushList ty x).
Proof.
  intros H i l. unfold pushList. simpl. intros Hl.
  apply lookup_app_Some in Hl as [Hl | (Hge & Hl)]; [now apply H|].
  destruct (i - length (listStack x))%nat eqn:E; [|discriminate].
  injection Hl as <-. simpl. lia.
Qed.

Lemma levels_pop (x : ConversionContext) :
  levelsAreDepths x -> levelsAreDepths (popList x).
Proof.
  intros H i l. unfold popList, pop. simpl.
  destruct (listStack x) as [|y st] eqn:E using rev_ind; [discriminate|].
  rewrite removelast_last. intros Hl. apply H. rewrite E.
  now apply lookup_app_l_Some.
Qed.

Lemma processLeaf_levels (k : TokenKind) (t : Token) (c c' : ConversionContext) :
  levelsAreDepths c -> processLeaf k t c = Ok c' -> levelsAreDepths c'.
Proof.
  intros Hv. destruct k; simpl;
    try (intros [= <-]; now apply levels_push);
    try (intros [= <-]; now apply levels_pop);
    unfold handleListItemOpen, handleListItemClose; intros H; split_result H.
  all: unfold handleHeadingOpen, handleHeadingClose, handleHorizontalRule,
         handleParagraphOpen, handleParagraphClose, handleCodeInlineToken,
         handleTextToken, emitText, pushFormatting, popFormatting,
         handleCodeBlockToken;
    split_conditionals;
    repeat first [ apply levels_update | apply levels_codeLines
                 | progress strip_assignments ];
    exact Hv.
Qed.

Local Arguments tabs : simpl never.

Lemma len_tabs (n : nat) : len (tabs n) = Z.of_nat n.
Proof.
  unfold tabs, len. induction n as [|n IH]; [reflexivity|].
  simpl repeat. rewrite append_cons, append_empty_l. simpl String.length. lia.
Qed.

(** X11. In any state a run from the start can reach, an item opened under d + 1
    open lists has nesting level d, is indented by one insertion of d tabs
    (none at the outermost level), and starts at the cursor before those
    tabs. *)
Theorem item_is_indented_by_its_depth (before : list Token) (startIndex : Z)
    (tab : option string) (options : option ConversionOptions)
    (c c' : ConversionContext) :
  processLeaves before (initialContext startIndex tab options) = Ok c ->
  handleListItemOpen c = Ok c' ->
  exists item depth,
    length (listStack c) = S depth
    /\ getCurrentOpenListItem c' = Some item
    /\ nestingLevel item = depth
    /\ li_startIndex item = currentIndex c
    /\ insertRequests c'
       = insertRequests c
           ++ match depth with
              | O => []
              | S _ => [InsertTextRequest
                          (mkLocation (currentIndex c) (truthyString (tabId c)))
                          (tabs depth)]
              end
    /\ currentIndex c' = currentIndex c + Z.of_nat depth.
Proof.
  intros Hrun Hopen.
  assert (levelsAreDepths c) as Hlv.
  { apply (processLeaves_preserves levelsAreDepths processLeaf_levels _ _ _) with
      (2 := Hrun). intros i l Hl. discriminate. }
  unfold handleListItemOpen in Hopen.
  destruct (lastOf (listStack c)) as [currentList|] eqn:E; [|discriminate].
  destruct (lastOf_Some _ _ E) as (st & Est).
  assert (level currentList = length st) as Hlevel.
  { apply Hlv. rewrite Est. now rewrite lookup_app_r, Nat.sub_diag by lia. }
  cbv zeta in Hopen. rewrite Hlevel in Hopen.
  change (repeat (String (ascii_of_nat 9) "") (length st)) with (tabs (length st)) in Hopen.
  injection Hopen as <-.
  exists (mkPendingListItem (currentIndex c) None (length st)
            (match ls_type currentList with
             | ordered => NUMBERED_DECIMAL_ALPHA_ROMAN
             | bullet => BULLET_DISC_CIRCLE_SQUARE
             end) false), (length st).
  split.
  { rewrite Est, length_app. simpl. lia. }
  destruct (length st) as [|d] eqn:Ed.
  - simpl. unfold getCurrentOpenListItem. simpl. rewrite lastOf_app.
    rewrite length_app, Nat.add_sub. rewrite lookup_app_r, Nat.sub_diag by lia.
    simpl. rewrite app_nil_r. repeat split. lia.
  - change (0 <? S d)%nat with true. cbv iota.
    unfold getCurrentOpenListItem. simpl. rewrite lastOf_app.
    rewrite length_app, Nat.add_sub. rewrite lookup_app_r, Nat.sub_diag by lia.
    simpl. rewrite len_tabs. repeat split.
Qed.

Lemma item_is_indented_by_its_depth_witness :
  exists c' item,
    handleListItemOpen insideNestedList = Ok c'
    /\ getCurrentOpenListItem c' = Some item
    /\ nestingLevel item = 1%nat
    /\ insertedTexts (insertRequests c') = [tabs 1].
Proof.
  destruct (handleListItemOpen insideNestedList) as [c'|e] eqn:E;
    [|vm_compute in E; discriminate E].
  destruct (item_is_indented_by_its_depth
              [Stream.tok "bullet_list_open" "ul"; Stream.tok "list_item_open" "li";
               Stream.tok "bullet_list_open" "ul"]
              1 None None insideNestedList c')
    as (item & depth & Hd & Hcur & Hn & _ & Hins & _).
  - vm_compute. reflexivity.
  - exact E.
  - assert (depth = 1%nat) as -> by (vm_compute in Hd; lia).
    exists c', item. split; [reflexivity|]. split; [exact Hcur|]. split; [exact Hn|].
    rewrite Hins. vm_compute. reflexivity.
Defined.

End Nesting.

Section Bounds.
Import JS MarkdownToDocs.

Lemma itemWithin_mono (lo hi hi' : Z) (item : PendingListItem) :
  hi <= hi' -> itemWithin lo hi item -> itemWithin lo hi' item.
Proof.
  unfold itemWithin. intros Hle (H1 & H2 & H3).
  destruct (li_endIndex item); repeat split; lia.
Qed.

Lemma bounded_mono (lo hi hi' : Z) (c : ConversionContext) :
  hi <= hi' -> bounded lo hi c -> bounded lo hi' c.
Proof.
  intros Hle (H1 & H2 & H3 & H4 & H5). unfold bounded. repeat split.
  - eapply Forall_impl; [exact H1|]. simpl. intros; lia.
  - eapply Forall_impl; [exact H2|]. simpl. intros; lia.
  - eapply Forall_impl; [exact H3|]. simpl. intros; lia.
  - eapply Forall_impl; [exact H4|]. intros i. now apply itemWithin_mono.
  - destruct (currentParagraphStart c); [lia | exact I].
Qed.

Lemma bounds_insertText (lo : Z) (t : string) (x : ConversionContext) :
  boundsInv lo x -> boundsInv lo (insertText t x).
Proof.
  intros [Hlo Hb]. pose proof (len_nonneg t). split; simpl; [lia|].
  apply (bounded_mono lo (currentIndex x)); [lia | exact Hb].
Qed.

Lemma bounds_update_current (lo : Z) (f : PendingListItem -> PendingListItem)
    (x : ConversionContext) :
  (forall item, getCurrentOpenListItem x = Some item ->
                itemWithin lo (currentIndex x) item ->
                itemWithin lo (currentIndex x) (f item)) ->
  boundsInv lo x -> boundsInv lo (updateCurrentOpenListItem f x).
Proof.
  intros Hf Hx. unfold updateCurrentOpenListItem.
  unfold getCurrentOpenListItem in Hf.
  destruct (lastOf (openListItemStack x)) as [i|]; [|exact Hx].
  destruct (pendingListItems x !! i) as [item|] eqn:L; [|exact Hx].
  destruct Hx as (Hlo & H1 & H2 & H3 & H4 & H5).
  split; [exact Hlo|]. unfold bounded. simpl. repeat split; try assumption.
  apply Forall_insert; [exact H4|]. apply Hf; [reflexivity|].
  exact (Forall_lookup_1 _ _ _ _ H4 L).
Qed.

Lemma bounds_update (lo : Z) (f : PendingListItem -> PendingListItem)
    (x : ConversionContext) :
  (forall item, itemWithin lo (currentIndex x) item ->
                itemWithin lo (currentIndex x) (f item)) ->
  boundsInv lo x -> boundsInv lo (updateCurrentOpenListItem f x).
Proof. intros Hf. apply bounds_update_current. intros item _. apply Hf. Qed.

Lemma bounds_flag (lo : Z) (x : ConversionContext) :
  boundsInv lo x -> boundsInv lo (updateCurrentOpenListItem set_taskPrefixProcessed x).
Proof. apply bounds_update. now intros item. Qed.

Lemma bounds_preset (lo : Z) (p : BulletPreset) (x : ConversionContext) :
  boundsInv lo x -> boundsInv lo (updateCurrentOpenListItem (set_bulletPreset p) x).
Proof. apply bounds_update. now intros item. Qed.

Lemma bounds_emitText (lo : Z) (t : string) (x : ConversionContext) :
  boundsInv lo x -> boundsInv lo (emitText t x).
Proof.
  intros Hx. pose proof (bounds_insertText lo t x Hx) as (Hlo & H1 & H2 & H3 & H4 & H5).
  destruct Hx as (Hlo0 & _). pose proof (len_nonneg t).
  unfold emitText. split_conditionals; [|split; [exact Hlo | now repeat split]].
  split; [exact Hlo|]. unfold bounded. simpl. repeat split; try assumption.
  apply Forall_app. split; [exact H1|]. constructor; [|constructor]. simpl. lia.
Qed.

Lemma bounds_codeLines (lo : Z) (lines : list string) (x : ConversionContext) :
  boundsInv lo x -> boundsInv lo (fold_left emitCodeLine lines x).
Proof.
  revert x. induction lines as [|line lines IH]; intros x Hx; [exact Hx|].
  simpl fold_left. apply IH. rewrite emitCodeLine_eq. apply bounds_insertText.
  pose proof (bounds_insertText lo (lineText line) x Hx)
    as (Hlo & H1 & H2 & H3 & H4 & H5).
  destruct Hx as (Hlo0 & _). pose proof (len_nonneg (lineText line)).
  split; [exact Hlo|]. unfold bounded. simpl. repeat split; try assumption.
  apply Forall_app. split; [exact H1|]. constructor; [|constructor]. simpl. lia.
Qed.

Lemma bounds_paragraphStart (lo : Z) (x : ConversionContext) :
  boundsInv lo x -> boundsInv lo (set_currentParagraphStart None x).
Proof.
  intros (Hlo & H1 & H2 & H3 & H4 & H5). split; [exact Hlo|]. now repeat split.
Qed.

Lemma bounds_headingClose (lo : Z) (x : ConversionContext) :
  boundsInv lo x -> boundsInv lo (handleHeadingClose x).
Proof.
  intros Hx. unfold handleHeadingClose.
  destruct (currentHeadingLevel x) as [[|l]|]; try exact Hx.
  destruct (currentParagraphStart x) as [p|] eqn:Ep; [|exact Hx].
  cbv zeta. strip_assignments. apply bounds_paragraphStart, bounds_insertText.
  destruct Hx as (Hlo & H1 & H2 & H3 & H4 & H5). rewrite Ep in H5.
  split_conditionals; (split; [exact Hlo|]); unfold bounded; simpl; rewrite ?Ep;
    repeat split; try assumption; try lia;
    (apply Forall_app; split; [exact H2|]; constructor; [|constructor]; simpl; lia).
Qed.

Lemma bounds_horizontalRule (lo : Z) (x : ConversionContext) :
  boundsInv lo x -> boundsInv lo (handleHorizontalRule x).
Proof.
  intros Hx. unfold handleHorizontalRule. cbv zeta.
  set (y := if negb (lastInsertEndsWithNewline x) then insertText newline x else x).
  assert (boundsInv lo y) as Hy.
  { subst y. destruct (negb _); [now apply bounds_insertText | exact Hx]. }
  clearbody y.
  pose proof (bounds_insertText lo newline y Hy) as (Hlo & H1 & H2 & H3 & H4 & H5).
  destruct Hy as (Hlo0 & _).
  split; [exact Hlo|]. unfold bounded. simpl in *. repeat split; try assumption.
  apply Forall_app. split; [exact H3|]. constructor; [|constructor]. simpl.
  rewrite len_newline. lia.
Qed.

Lemma bounds_paragraphOpen (lo : Z) (x : ConversionContext) :
  boundsInv lo x -> boundsInv lo (handleParagraphOpen x).
Proof.
  intros Hx. unfold handleParagraphOpen. destruct (Nat.eqb _ _); [|exact Hx].
  destruct Hx as (Hlo & H1 & H2 & H3 & H4 & H5).
  split; [exact Hlo|]. unfold bounded. simpl. repeat split; try assumption; lia.
Qed.

Lemma bounds_headingOpen (lo : Z) (t : Token) (x : ConversionContext) :
  boundsInv lo x -> boundsInv lo (handleHeadingOpen t x).
Proof.
  intros Hx. unfold handleHeadingOpen. destruct (getHeadingLevel t) as [[|l]|]; try exact Hx.
  destruct Hx as (Hlo & H1 & H2 & H3 & H4 & H5).
  split; [exact Hlo|]. unfold bounded. simpl. repeat split; try assumption; lia.
Qed.

Lemma bounds_paragraphClose (lo : Z) (x : ConversionContext) :
  boundsInv lo x -> boundsInv lo (handleParagraphClose x).
Proof.
  intros Hx. unfold handleParagraphClose. cbv zeta.
  set (y := if negb (lastInsertEndsWithNewline x) then insertText newline x else x).
  assert (boundsInv lo y) as Hy.
  { subst y. destruct (negb _); [now apply bounds_insertText | exact Hx]. }
  clearbody y. apply bounds_paragraphStart.
  destruct (getCurrentOpenListItem y) as [item|] eqn:Ei; [|exact Hy].
  destruct (li_startIndex item <? _) eqn:Hlt; [|exact Hy].
  apply Z.ltb_lt in Hlt.
  apply bounds_update_current; [|exact Hy].
  intros i Hi (A & B & C). assert (i = item) as -> by congruence.
  unfold itemWithin, set_endIndex. simpl.
  destruct (lastInsertEndsWithNewline y); repeat split; lia.
Qed.

Lemma bounds_listItemOpen (lo : Z) (x x' : ConversionContext) :
  handleListItemOpen x = Ok x' -> boundsInv lo x -> boundsInv lo x'.
Proof.
  unfold handleListItemOpen. intros H Hx.
  destruct (lastOf (listStack x)) as [currentList|]; [|discriminate H].
  cbv zeta in H. injection H as <-. strip_assignments.
  set (t := JS.repeat _ _).
  pose proof (len_nonneg t).
  assert (exists y, boundsInv lo y /\ currentIndex x <= currentIndex y
                    /\ (if (0 <? level currentList)%nat then insertText t x else x) = y)
    as (y & Hy & Hle & ->).
  { destruct (0 <? level currentList)%nat; eexists; (split; [|split; [|reflexivity]]);
      [now apply bounds_insertText | simpl; lia | exact Hx | lia]. }
  destruct Hx as (Hlo0 & _). destruct Hy as (Hlo & H1 & H2 & H3 & H4 & H5).
  split; [exact Hlo|]. unfold bounded. simpl. repeat split; try assumption.
  apply Forall_app. split; [exact H4|]. constructor; [|constructor].
  unfold itemWithin. simpl. lia.
Qed.

Lemma bounds_listItemClose (lo : Z) (x x' : ConversionContext) :
  handleListItemClose x = Ok x' -> boundsInv lo x -> boundsInv lo x'.
Proof.
  unfold handleListItemClose. intros H Hx.
  destruct (lastOf (openListItemStack x)) as [i|]; [|now injection H as <-].
  cbv zeta in H. simpl in H.
  destruct (pendingListItems x !! i) as [item|] eqn:L; [|discriminate H].
  injection H as <-.
  match goal with |- boundsInv lo (if negb (lastInsertEndsWithNewline ?y) then _ else _) =>
    assert (boundsInv lo y) as Hy; [|destruct (negb (lastInsertEndsWithNewline y));
                                      [now apply bounds_insertText | exact Hy]] end.
  assert (boundsInv lo (set_openListItemStack (pop (openListItemStack x)) x)) as Hp
    by exact Hx.
  destruct (li_endIndex item) eqn:Ee; [exact Hp|].
  destruct (li_startIndex item <? _) eqn:Hlt; [|exact Hp].
  apply Z.ltb_lt in Hlt. simpl in Hlt.
  destruct Hx as (Hlo & H1 & H2 & H3 & H4 & H5).
  split; [exact Hlo|]. unfold bounded. simpl. repeat split; try assumption.
  apply Forall_insert; [exact H4|].
  pose proof (Forall_lookup_1 _ _ _ _ H4 L) as (A & B & C).
  unfold itemWithin, set_endIndex. simpl.
  destruct (lastInsertEndsWithNewline _); repeat split; lia.
Qed.

Lemma bounds_textToken (lo : Z) (t : Token) (x : ConversionContext) :
  boundsInv lo x -> boundsInv lo (handleTextToken t x).
Proof.
  intros Hx. unfold handleTextToken. cbv zeta.
  split_conditionals; auto using bounds_emitText, bounds_flag, bounds_preset.
Qed.

Lemma bounds_codeInline (lo : Z) (t : Token) (x : ConversionContext) :
  boundsInv lo x -> boundsInv lo (handleCodeInlineToken t x).
Proof.
  intros Hx. unfold handleCodeInlineToken, popFormatting, pushFormatting. cbv zeta.
  strip_assignments. apply bounds_textToken. exact Hx.
Qed.

Lemma bounds_codeBlock (lo : Z) (t : Token) (x : ConversionContext) :
  boundsInv lo x -> boundsInv lo (handleCodeBlockToken t x).
Proof.
  intros Hx. rewrite handleCodeBlockToken_eq.
  apply bounds_insertText, bounds_codeLines. exact Hx.
Qed.

Lemma processLeaf_bounds (lo : Z) (k : TokenKind) (t : Token)
    (c c' : ConversionContext) :
  boundsInv lo c -> processLeaf k t c = Ok c' -> boundsInv lo c'.
Proof.
  intros Hx. destruct k; simpl; try (intros [= <-]);
    unfold popFormatting, pushFormatting, pushList, popList;
    try exact Hx;
    eauto using bounds_headingOpen, bounds_headingClose, bounds_horizontalRule,
      bounds_paragraphOpen, bounds_paragraphClose, bounds_listItemOpen,
      bounds_listItemClose, bounds_textToken, bounds_codeInline, bounds_codeBlock,
      bounds_insertText.
  split_conditionals; intros [= <-]; exact Hx.
Qed.

Lemma mergeListRanges_within (lo hi : Z) (items : list PendingListItem) :
  Forall (fun item => lo <= li_startIndex item /\ li_startIndex item < endOf item
                      /\ endOf item <= hi) items ->
  Forall (fun m => lo <= m_startIndex m /\ m_startIndex m < m_endIndex m
                   /\ m_endIndex m <= hi) (mergeListRanges items).
Proof.
  unfold mergeListRanges.
  set (P := fun m => lo <= m_startIndex m /\ m_startIndex m < m_endIndex m
                     /\ m_endIndex m <= hi).
  assert (forall acc, Forall P acc ->
             Forall (fun item => lo <= li_startIndex item
                                 /\ li_startIndex item < endOf item
                                 /\ endOf item <= hi) items ->
             Forall P (fold_left mergeItem items acc)) as Hgen.
  { induction items as [|item items IH]; intros acc Hacc Hitems; [exact Hacc|].
    apply Forall_cons in Hitems as [Hitem Hitems]. simpl fold_left.
    apply IH; [|exact Hitems]. unfold mergeItem.
    destruct (lastOf acc) as [last|] eqn:E.
    - destruct (lastOf_Some _ _ E) as (acc' & ->).
      apply Forall_app in Hacc as [Hacc' Hlast].
      apply Forall_cons in Hlast as [Hlast _]. unfold P in Hlast.
      destruct (_ && _).
      + unfold pop. rewrite removelast_last. apply Forall_app. split; [exact Hacc'|].
        constructor; [|constructor]. unfold P. simpl. lia.
      + apply Forall_app. split.
        * apply Forall_app. split; [exact Hacc'|]. now constructor.
        * constructor; [|constructor]. exact Hitem.
    - apply Forall_app. split; [exact Hacc|]. constructor; [|constructor]. exact Hitem. }
  intros H. apply Hgen; [constructor | exact H].
Qed.

(** X12. Every range a successful compilation styles or bullets lies inside the
    text the same compilation inserts: it starts at or after the start
    offset, does not end before it starts, and ends at or before the start
    offset plus the total length of the inserted text. *)
Theorem ranges_stay_inside_the_inserted_text (tokens : list Token) (startIndex : Z)
    (tab : option string) (options : option ConversionOptions) (requests : list Request) :
  compileTokens tokens startIndex tab options = Ok requests ->
  Forall (rangeWithin startIndex
            (startIndex + insertedLength (List.filter isInsert requests)))
         requests.
Proof.
  intros H. destruct (compileTokens_Ok _ _ _ _ _ H) as (c & P & _ & _ & Hc & ->).
  destruct (chainFrom_sum _ _ _ Hc) as (Hend & _ & Hf).
  assert (boundsInv startIndex (initialContext startIndex tab options)) as Hi.
  { split; [simpl; lia|]. unfold bounded. simpl. repeat split; constructor. }
  pose proof (processTokens_preserves (boundsInv startIndex)
                (processLeaf_bounds startIndex) _ _ _ Hi P)
    as (_ & H1 & H2 & H3 & H4 & _).
  rewrite (filter_insert_output _ _ _ _ _ _ Hf), <- Hend.
  repeat (apply Forall_app; split).
  - rewrite <- Hf. apply Forall_forall. intros r Hin.
    apply list_elem_of_In, List.filter_In in Hin as [_ Hr]. now destruct r.
  - apply Forall_concat, Forall_fmap. eapply Forall_impl; [exact H1|].
    intros r Hr. unfold compose, textRangeRequests, buildUpdateTextStyleRequest.
    repeat match goal with
           | |- context [if ?b then _ else _] => destruct b
           | |- context [match ?b with Some _ => _ | None => _ end] => destruct b
           end; simpl; repeat (constructor; [exact Hr|]); constructor.
  - apply Forall_concat, Forall_fmap. eapply Forall_impl; [exact H2|].
    intros r Hr. unfold compose, paragraphRangeRequests.
    destruct (truthyString _); simpl; repeat (constructor; [exact Hr|]); constructor.
  - apply Forall_fmap. eapply Forall_impl; [exact H3|]. now intros h Hh.
  - apply Forall_fmap.
    assert (Forall (fun m => startIndex <= m_startIndex m
                             /\ m_startIndex m < m_endIndex m
                             /\ m_endIndex m <= currentIndex c) (mergedListRanges c))
      as Hm.
    { destruct (mergedListRanges_spec c) as (Pm & _). rewrite Pm.
      apply mergeListRanges_within.
      destruct (validListItems_spec c) as (Pv & _ & _). rewrite Pv.
      apply Forall_forall. intros item Hin.
      apply list_elem_of_In, List.filter_In in Hin as [Hin Hv].
      apply list_elem_of_In in Hin.
      pose proof (proj1 (Forall_forall _ _) H4 item Hin) as (A & B & C).
      unfold isValidListItem in Hv. unfold endOf.
      destruct (li_endIndex item); [lia | discriminate]. }
    eapply Forall_impl; [exact Hm|]. intros m Hm'. unfold compose, rangeWithin. simpl in *. lia.
Qed.

Lemma ranges_stay_inside_the_inserted_text_witness :
  exists requests,
    compileTokens Stream.interposed 1 None None = Ok requests
    /\ Forall (rangeWithin 1 (1 + insertedLength (List.filter isInsert requests)))
              requests.
Proof.
  destruct (compileTokens Stream.interposed 1 None None) as [requests|e] eqn:E;
    [|vm_compute in E; discriminate E].
  exists requests. split; [reflexivity|].
  exact (ranges_stay_inside_the_inserted_text _ _ _ _ _ E).
Defined.

End Bounds.

Section RendererMore.
Import JS DocsToMarkdown RenderSpec TableSpec.

(** *** Runs *)

Lemma endsWith_append_nonempty (a b : string) :
  b <> "" -> endsWith (a +:+ b) newline = endsWith b newline.
Proof.
  intros Hb. induction a as [|c a IH]; [reflexivity|].
  rewrite append_cons, endsWith_cons, IH.
  destruct (String.eqb_spec (String c (a +:+ b)) newline) as [E|_]; [|reflexivity].
  injection E as _ E. destruct a; [now rewrite append_empty_l in E | discriminate E].
Qed.


(** X13. A run's rendering ends with a line break exactly when its content does:
    the markers are put around the text before the break, never around it,
    and none is added. *)
Theorem run_keeps_its_line_break (run : TextRun) :
  endsWith (convertTextRun run) newline = endsWith (default "" (content run)) newline.
Proof.
  unfold convertTextRun. set (text := default "" (content run)).
  destruct (textStyle run) as [style|]; [|reflexivity].
  cbv zeta.
  destruct (isCodeStyled style).
  - destruct (truthy (stripFinalNewline text)); [|reflexivity].
    rewrite <- !append_assoc.
    destruct (endsWith text newline).
    + apply endsWith_append_newline.
    + rewrite append_empty_r. now rewrite endsWith_append_nonempty.
  - destruct (endsWith text newline) eqn:E.
    + destruct (negb _); [exact E|]. apply endsWith_append_newline.
    + destruct (negb (truthy text)) eqn:T; [exact E|].
      rewrite append_empty_r.
      destruct (linkUrl style).
      { rewrite <- !append_assoc. now rewrite endsWith_append_nonempty. }
      destruct (underline style && _).
      { rewrite <- !append_assoc. now rewrite endsWith_append_nonempty. }
      destruct (strikethrough style).
      { rewrite <- !append_assoc. now rewrite endsWith_append_nonempty. }
      destruct (bold style && italic style).
      { rewrite <- !append_assoc. now rewrite endsWith_append_nonempty. }
      destruct (bold style).
      { rewrite <- !append_assoc. now rewrite endsWith_append_nonempty. }
      destruct (italic style).
      { rewrite <- !append_assoc. now rewrite endsWith_append_nonempty. }
      exact E.
Qed.

(** *** Paragraph text *)

Lemma extract_from (elements : list ParagraphElement) (acc : string) :
  fold_left
    (fun result element =>
       match textRun element with
       | Some run => result +:+ convertTextRun run
       | None => result
       end) elements acc
  = acc +:+ extractFormattedText elements.
Proof.
  unfold extractFormattedText. revert acc.
  induction elements as [|e elements IH]; intros acc; simpl fold_left.
  - now rewrite append_empty_r.
  - rewrite IH, (IH (match textRun e with Some run => _ | None => _ end)).
    destruct (textRun e); [now rewrite append_empty_l, append_assoc | reflexivity].
Qed.

(** X14. The text of a paragraph is the renderings of its runs one after the
    other: each run is rendered on its own, whatever precedes or follows
    it, and an element that is not a text run contributes nothing. *)
Theorem paragraph_text_is_the_runs_in_order (elements : list ParagraphElement) :
  extractFormattedText elements = joinAll (convertTextRun <$> runsOf elements)
  /\ forall more,
       extractFormattedText (elements ++ more)
       = extractFormattedText elements +:+ extractFormattedText more.
Proof.
  split.
  - induction elements as [|e elements IH]; [reflexivity|].
    unfold extractFormattedText. simpl fold_left. rewrite extract_from.
    unfold runsOf. simpl omap. fold (runsOf elements).
    destruct (textRun e) as [run|]; simpl.
    + now rewrite append_empty_l, IH.
    + now rewrite append_empty_l.
  - intros more. unfold extractFormattedText at 1. rewrite fold_left_app.
    fold (extractFormattedText elements). apply extract_from.
Qed.

(** *** Paragraphs *)

Lemma endsWith_append_r (a b : string) :
  endsWith b newline = true -> endsWith (a +:+ b) newline = true.
Proof.
  intros H. rewrite endsWith_append_nonempty; [exact H|].
  intros ->. discriminate H.
Qed.

(** X15. Every paragraph renders to text that ends with a line break, and a
    paragraph whose text is blank renders to a lone line break whatever its
    heading style or bullet. *)
Theorem paragraph_rendering_ends_the_line (p : Paragraph) (lists : gmap string DocList) :
  endsWith (convertParagraph p lists) newline = true
  /\ (allWhiteSpace (extractFormattedText (default [] (elements p))) ->
      convertParagraph p lists = newline).
Proof.
  unfold convertParagraph. cbv zeta. split.
  - destruct (getHeadingLevel p) as [[|l]|];
      destruct (truthy (trim _));
      destruct (getListInfo p lists) as [info|];
      try reflexivity;
      repeat first [ apply endsWith_append_newline | apply endsWith_append_r ].
  - intros H. rewrite (trim_allWhiteSpace _ H). simpl.
    destruct (getHeadingLevel p) as [[|l]|];
      destruct (getListInfo p lists) as [info|]; reflexivity.
Qed.

Lemma paragraph_rendering_ends_the_line_witness :
  convertParagraph
    (mkParagraph (Some "HEADING_2") (Some (mkBullet None None))
       (Some [mkElement (Some (mkTextRun (Some "  ") None))])) ∅
  = newline.
Proof.
  refine (proj2 (paragraph_rendering_ends_the_line _ _) _). reflexivity.
Defined.

(** *** Tables *)

Lemma rowText_from (cells : list TableCell) (acc : string) :
  fold_left (fun rowText cell => rowText +:+ " " +:+ extractCellText cell +:+ " |")
            cells acc
  = acc +:+ joinAll (cellText <$> cells).
Proof.
  revert acc. induction cells as [|cell cells IH]; intros acc; simpl.
  - now rewrite append_empty_r.
  - rewrite IH. fold (cellText cell). now rewrite append_assoc.
Qed.

Lemma separator_from (cells : list TableCell) (acc : string) :
  fold_left (fun separator _ => separator +:+ " --- |") cells acc
  = acc +:+ repeat " --- |" (length cells).
Proof.
  revert acc. induction cells as [|cell cells IH]; intros acc; simpl.
  - now rewrite append_empty_r.
  - now rewrite IH, append_assoc.
Qed.

Lemma joinAll_app (a b : list string) : joinAll (a ++ b) = joinAll a +:+ joinAll b.
Proof.
  induction a as [|x a IH]; [reflexivity|].
  simpl. fold (joinAll (a ++ b)) (joinAll a). now rewrite IH, append_assoc.
Qed.

Lemma convertRow_cells (markdown : string) (isFirstRow : bool) (row : TableRow)
    (cells : list TableCell) :
  tableCells row = Some cells ->
  convertRow (markdown, isFirstRow) row
  = (markdown +:+ line (rowLine cells)
       +:+ (if isFirstRow then line (separatorLine cells) else ""), false && isFirstRow).
Proof.
  intros E. unfold convertRow. rewrite E. cbv zeta.
  rewrite rowText_from, separator_from. fold (rowLine cells) (separatorLine cells).
  unfold line. destruct isFirstRow.
  - now rewrite ?append_assoc.
  - now rewrite append_empty_r, ?append_assoc.
Qed.

Lemma rows_after_the_first (rows : list TableRow) (markdown : string) :
  fold_left convertRow rows (markdown, false)
  = (markdown +:+ joinAll (line <$> (rowLine <$> omap tableCells rows)), false).
Proof.
  revert markdown. induction rows as [|row rows IH]; intros markdown.
  - simpl. now rewrite append_empty_r.
  - change (fold_left convertRow (row :: rows) (markdown, false))
      with (fold_left convertRow rows (convertRow (markdown, false) row)).
    simpl omap. destruct (tableCells row) as [cells|] eqn:E.
    + rewrite (convertRow_cells _ _ _ _ E), append_empty_r, IH. simpl.
      now rewrite ?append_assoc.
    + unfold convertRow at 2. rewrite E. apply IH.
Qed.

Lemma rows_from_the_first (rows : list TableRow) (markdown : string) :
  fst (fold_left convertRow rows (markdown, true))
  = markdown +:+ joinAll (line <$> tableLines rows).
Proof.
  revert markdown. induction rows as [|row rows IH]; intros markdown.
  - simpl. now rewrite append_empty_r.
  - change (fold_left convertRow (row :: rows) (markdown, true))
      with (fold_left convertRow rows (convertRow (markdown, true) row)).
    unfold tableLines. simpl omap.
    destruct (tableCells row) as [cells|] eqn:E.
    + rewrite (convertRow_cells _ _ _ _ E), rows_after_the_first. simpl.
      now rewrite ?append_assoc.
    + unfold convertRow at 2. rewrite E. apply IH.
Qed.

(** X16. A table renders as a line break, one line per row that has cells, a
    separator line of as many columns as the first such row right after it,
    and a closing line break.  A row without cells is skipped and does not
    use up the separator; a table with no rows renders as nothing. *)
Theorem table_is_rows_with_one_separator (t : Table) :
  convertTable t
  = match tableRows t with
    | None | Some [] => ""
    | Some rows => newline +:+ joinAll (line <$> tableLines rows) +:+ newline
    end.
Proof.
  unfold convertTable. destruct (tableRows t) as [[|row rows]|]; try reflexivity.
  now rewrite rows_from_the_first, append_assoc.
Qed.

Lemma includes_newline_cons (c : ascii) (s : string) :
  includes (String c s) newline = Ascii.eqb LF c || includes s newline.
Proof.
  change (includes (String c s) newline)
    with (if Ascii.eqb LF c && startsWith s "" then true else includes s newline).
  assert (startsWith s "" = true) as -> by now destruct s.
  now destruct (Ascii.eqb LF c).
Qed.

Lemma includes_newline_append (a b : string) :
  includes (a +:+ b) newline = includes a newline || includes b newline.
Proof.
  induction a as [|c a IH]; [now destruct b|].
  now rewrite append_cons, !includes_newline_cons, IH, orb_assoc.
Qed.

Lemma replaceNewlines_oneLine (s : string) : includes (replaceNewlines s) newline = false.
Proof.
  induction s as [|c s IH]; [reflexivity|].
  simpl replaceNewlines. rewrite includes_newline_cons, IH, orb_false_r.
  destruct (Ascii.eqb_spec c LF) as [->|N]; [reflexivity|].
  destruct (Ascii.eqb_spec LF c); congruence.
Qed.

Lemma trimStart_oneLine (s : string) :
  includes s newline = false -> includes (trimStart s) newline = false.
Proof.
  induction s as [|c s IH]; [reflexivity|]. intros H. simpl trimStart.
  destruct (isWhiteSpace c); [|exact H].
  rewrite includes_newline_cons in H. apply orb_false_iff in H as [_ H]. exact (IH H).
Qed.

Lemma trimEnd_oneLine (s : string) :
  includes s newline = false -> includes (trimEnd s) newline = false.
Proof.
  induction s as [|c s IH]; [reflexivity|]. intros H.
  rewrite includes_newline_cons in H. apply orb_false_iff in H as [Hc H].
  specialize (IH H). simpl trimEnd. destruct (trimEnd s) as [|d r].
  - destruct (isWhiteSpace c); [reflexivity|].
    now rewrite includes_newline_cons, Hc.
  - now rewrite includes_newline_cons, Hc, IH.
Qed.

(** X17. The text of a table cell never holds a line break, so a row stays on
    its line: every line break of the runs is replaced by a space before
    the runs are joined. *)
Theorem cell_text_is_one_line (cell : TableCell) :
  includes (extractCellText cell) newline = false.
Proof.
  unfold extractCellText. destruct (cell_content cell) as [content|]; [|reflexivity].
  assert (includes "" newline = false) as Hacc by reflexivity.
  revert Hacc. generalize "". induction content as [|element content IH];
    intros acc Hacc; [exact Hacc|].
  simpl fold_left. apply IH.
  destruct (cell_paragraph element) as [p|]; [|exact Hacc].
  destruct (elements p) as [pes|]; [|exact Hacc].
  clear IH. revert acc Hacc. induction pes as [|pe pes IH]; intros acc Hacc; [exact Hacc|].
  simpl fold_left. apply IH.
  destruct (textRun pe) as [run|]; [|exact Hacc].
  destruct (DocsToMarkdown.content run) as [c|]; [|exact Hacc].
  destruct (truthy c); [|exact Hacc].
  rewrite includes_newline_append, Hacc. simpl. unfold trim.
  apply trimEnd_oneLine, trimStart_oneLine, replaceNewlines_oneLine.
Qed.

(** *** Lists *)

(** X18. A bulleted paragraph that is not a heading and has text renders as a
    list item: two spaces per nesting level (none when the level is
    missing), the marker, a space, the trimmed text and one line break.
    The marker is the unordered one when the bullet names no list or a list
    the registry does not hold. *)
Theorem unknown_list_renders_unordered (p : Paragraph) (b : Bullet)
    (lists : gmap string DocList) :
  getHeadingLevel p = None ->
  bullet p = Some b ->
  (forall id, listId b = Some id -> lists !! id = None) ->
  truthy (trim (extractFormattedText (default [] (elements p)))) = true ->
  convertParagraph p lists
  = repeat "  " (default 0%nat (nestingLevel b)) +:+ "- "
      +:+ trim (extractFormattedText (default [] (elements p))) +:+ newline.
Proof.
  intros Hh Hb Hmissing Ht. unfold convertParagraph, getListInfo. cbv zeta.
  rewrite Hh, Hb, Ht. simpl.
  destruct (listId b) as [id|]; [|reflexivity].
  rewrite (Hmissing id eq_refl). now destruct (truthy id).
Qed.

Lemma unknown_list_renders_unordered_witness :
  convertParagraph
    (mkParagraph None (Some (mkBullet (Some 2%nat) (Some "kix.gone")))
       (Some [mkElement (Some (mkTextRun (Some "milk") None))]))
    ∅
  = "    - milk" +:+ newline.
Proof.
  refine (unknown_list_renders_unordered
            (mkParagraph None (Some (mkBullet (Some 2%nat) (Some "kix.gone")))
               (Some [mkElement (Some (mkTextRun (Some "milk") None))]))
            (mkBullet (Some 2%nat) (Some "kix.gone")) ∅
            eq_refl eq_refl _ eq_refl).
  intros id _. apply lookup_empty.
Defined.

End RendererMore.

Section BothDirections.
Import JS MarkdownToDocs.

Lemma matchHDigit_digit (s : string) (d : ascii) :
  matchHDigit s = Some d -> isDigit d = true.
Proof.
  induction s as [|c s IH]; [discriminate|].
  simpl. destruct s as [|d' s']; [discriminate|].
  destruct (Ascii.eqb c "h" && isDigit d') eqn:E; [|exact IH].
  intros [= <-]. now apply andb_true_iff in E as [_ E].
Qed.

Lemma getHeadingLevel_digit (token : Token) (n : nat) :
  getHeadingLevel token = Some n -> (n <= 9)%nat.
Proof.
  unfold getHeadingLevel. destruct (negb _); [discriminate|].
  destruct (matchHDigit (tag token)) as [d|] eqn:E; [|discriminate].
  intros [= <-]. apply matchHDigit_digit in E. unfold isDigit in E. unfold digitValue.
  apply andb_true_iff in E as [_ E]. apply Nat.leb_le in E. lia.
Qed.

Lemma headingStyleName_level (n : nat) (b : option DocsToMarkdown.Bullet)
    (es : option (list DocsToMarkdown.ParagraphElement)) :
  (n <= 9)%nat ->
  DocsToMarkdown.getHeadingLevel
    (DocsToMarkdown.mkParagraph (Some (headingStyleName n)) b es) = Some n.
Proof.
  intros H. do 10 (destruct n as [|n]; [reflexivity|]). lia.
Qed.

(** X19. The paragraph style the compiler records for a heading reads back, in
    the renderer, as the level of the heading's opening tag: HEADING_n as n,
    and the TITLE of a promoted first heading as 1.  A paragraph with that
    style and some text therefore renders with as many hashes as the
    heading had, six at most. *)
Theorem heading_style_reads_back_its_level (opening : Token) (inner : list Token)
    (c c1 : ConversionContext) (l : nat)
    (es : list DocsToMarkdown.ParagraphElement)
    (lists : gmap string DocsToMarkdown.DocList) :
  getHeadingLevel opening = Some (S l) ->
  Forall (fun t => isInlineKind (kindOf (type t)) = true) inner ->
  processLeaves inner (handleHeadingOpen opening c) = Ok c1 ->
  truthy (trim (DocsToMarkdown.extractFormattedText es)) = true ->
  exists r,
    lastOf (paragraphRanges (handleHeadingClose c1)) = Some r
    /\ DocsToMarkdown.getHeadingLevel
         (DocsToMarkdown.mkParagraph (namedStyleType r) None (Some es)) = Some (S l)
    /\ DocsToMarkdown.convertParagraph
         (DocsToMarkdown.mkParagraph (namedStyleType r) None (Some es)) lists
       = repeat "#" (Nat.min (S l) 6) +:+ " "
           +:+ trim (DocsToMarkdown.extractFormattedText es) +:+ newline +:+ newline.
Proof.
  intros Hlevel Hinner Hrun Htext.
  pose proof (getHeadingLevel_digit _ _ Hlevel) as Hdigit.
  destruct (processLeaves_sameHeading _ _ _ Hinner Hrun) as (A1 & A2 & A3 & A4).
  unfold handleHeadingOpen in A1, A2, A3, A4. rewrite Hlevel in *.
  simpl in A1, A2, A3, A4.
  unfold handleHeadingClose. rewrite A1, A2. cbv zeta.
  set (useTitle := firstHeadingAsTitle c1 && negb (titleConsumed _) && Nat.eqb (S l) 1).
  assert (DocsToMarkdown.getHeadingLevel
            (DocsToMarkdown.mkParagraph
               (Some (if useTitle then "TITLE" else headingStyleName (S l))) None (Some es))
          = Some (S l)) as Hback.
  { destruct useTitle eqn:U; [|now apply headingStyleName_level].
    subst useTitle. apply andb_true_iff in U as [_ U]. apply Nat.eqb_eq in U.
    now rewrite U. }
  eexists. split; [|split].
  - simpl. apply lastOf_app.
  - exact Hback.
  - unfold DocsToMarkdown.convertParagraph. cbv zeta.
    cbv beta iota delta [namedStyleType] in Hback |- *. rewrite Hback.
    simpl DocsToMarkdown.elements. simpl default. now rewrite Htext.
Qed.

Lemma heading_style_reads_back_its_level_witness :
  exists r,
    lastOf (paragraphRanges
              (handleHeadingClose
                 (handleTextToken (Stream.txt "Plan")
                    (handleHeadingOpen (Stream.tok "heading_open" "h3")
                       (initialContext 1 None None))))) = Some r
    /\ DocsToMarkdown.convertParagraph
         (DocsToMarkdown.mkParagraph (namedStyleType r) None
            (Some [DocsToMarkdown.mkElement
                     (Some (DocsToMarkdown.mkTextRun (Some ("Plan" +:+ newline)) None))]))
         ∅
       = "### Plan" +:+ newline +:+ newline.
Proof.
  destruct (heading_style_reads_back_its_level
              (Stream.tok "heading_open" "h3") [Stream.txt "Plan"]
              (initialContext 1 None None) _ 2
              [DocsToMarkdown.mkElement
                 (Some (DocsToMarkdown.mkTextRun (Some ("Plan" +:+ newline)) None))]
              ∅ eq_refl
              ltac:(repeat constructor) eq_refl eq_refl)
    as (r & Hr & _ & Hrender).
  exists r. split; [exact Hr | exact Hrender].
Defined.

(** X20. Markdown that is empty or only white space compiles to no request at
    all, whatever the start offset, the tab and the options, and whatever
    the parser would have made of it. *)
Theorem blank_markdown_compiles_to_nothing (parse : string -> list Token)
    (markdown : string) (startIndex : option Z) (tabId : option string)
    (options : option ConversionOptions) :
  allWhiteSpace markdown ->
  convertMarkdownToRequests parse markdown startIndex tabId options = Ok [].
Proof.
  intros H. unfold convertMarkdownToRequests.
  rewrite (trim_allWhiteSpace _ H). simpl. now rewrite orb_true_r.
Qed.

Lemma blank_markdown_compiles_to_nothing_witness :
  convertMarkdownToRequests (fun _ => Stream.interposed) (" " +:+ newline) None None None
  = Ok [].
Proof.
  apply (blank_markdown_compiles_to_nothing (fun _ => Stream.interposed)).
  reflexivity.
Defined.

End BothDirections.

Section RequestCount.
Import MarkdownToDocs InsertMarkdown.

Lemma requestsByType_snoc (requests : list Request) (r : Request) :
  requestsByType (requests ++ [r]) = countRequest (requestsByType requests) r.
Proof. unfold requestsByType. now rewrite fold_left_app. Qed.

(** X21. The breakdown by type that [insertMarkdown] reports holds, for each
    request type that occurs, the number of requests of that type, and no
    entry for a type that does not occur. *)
Theorem breakdown_counts_each_type (requests : list Request) (type : string) :
  requestsByType requests !! type
  = match length (List.filter (hasType type) requests) with
    | O => None
    | n => Some n
    end.
Proof.
  induction requests as [|r requests IH] using rev_ind; [apply lookup_empty|].
  rewrite requestsByType_snoc, List.filter_app, length_app. unfold countRequest.
  cbv zeta. simpl List.filter. unfold hasType at 2.
  destruct (String.eqb_spec (typeKey r) type) as [->|N].
  - rewrite lookup_insert_eq, IH. simpl length.
    now destruct (length (List.filter (hasType type) requests)) as [|n].
  - rewrite lookup_insert_ne by exact N. rewrite IH. simpl length.
    now rewrite Nat.add_0_r.
Qed.

End RequestCount.

Section PlainText.
Import JS MarkdownToDocs.

Lemma unstyled_update (f : PendingListItem -> PendingListItem) (x : ConversionContext) :
  unstyled x -> unstyled (updateCurrentOpenListItem f x).
Proof.
  intros H. unfold updateCurrentOpenListItem. split_conditionals; exact H.
Qed.

Lemma unstyled_emitText (t : string) (x : ConversionContext) :
  unstyled x -> unstyled (emitText t x).
Proof.
  intros [F T]. unfold emitText. cbv zeta. simpl formattingStack. rewrite F.
  split; simpl; assumption.
Qed.

Lemma unstyled_pop (k : FormattingKey) (x : ConversionContext) :
  unstyled x -> unstyled (popFormatting x k).
Proof.
  intros [F T]. unfold popFormatting. split; simpl; [now rewrite F | exact T].
Qed.

Lemma processLeaf_unstyled (k : TokenKind) (t : Token) (c c' : ConversionContext) :
  opensFormatting k = false -> unstyled c -> processLeaf k t c = Ok c' -> unstyled c'.
Proof.
  destruct k; try discriminate; intros _ Hv; simpl;
    try (intros [= <-]; now apply unstyled_pop);
    unfold handleListItemOpen, handleListItemClose; intros H; split_result H.
  all: unfold handleHeadingOpen, handleHeadingClose, handleHorizontalRule,
         handleParagraphOpen, handleParagraphClose, handleTextToken, pushList, popList;
    split_conditionals;
    repeat first [ apply unstyled_update | apply unstyled_emitText
                 | progress strip_assignments ];
    exact Hv.
Qed.

Lemma processLeaves_unstyled (leaves : list Token) (c c' : ConversionContext) :
  Forall (fun t => opensFormatting (kindOf (type t)) = false) leaves ->
  unstyled c -> processLeaves leaves c = Ok c' -> unstyled c'.
Proof.
  intros Hall. revert c. induction Hall as [|t leaves Ht _ IH]; intros c Hc H.
  - now injection H as <-.
  - simpl in H. destruct (processLeaf _ t c) as [c1|] eqn:E; [|discriminate].
    exact (IH _ (processLeaf_unstyled _ _ _ _ Ht Hc E) H).
Qed.

(** X22. Markdown without emphasis, strikethrough, links or code is never given
    a text style: when no token, at any depth, opens a formatting span or is
    code, the output has no text-style request. *)
Theorem plain_text_is_never_styled (tokens : list Token) (startIndex : Z)
    (tab : option string) (options : option ConversionOptions) (requests : list Request) :
  Forall (fun t => opensFormatting (kindOf (type t)) = false) (flattenAll tokens) ->
  compileTokens tokens startIndex tab options = Ok requests ->
  List.filter isTextStyle requests = [].
Proof.
  intros Hplain H. destruct (compileTokens_Ok _ _ _ _ _ H) as (c & P & _ & _ & Hc & ->).
  destruct (chainFrom_sum _ _ _ Hc) as (_ & _ & Hf).
  rewrite processTokens_flatten in P.
  assert (unstyled (initialContext startIndex tab options)) as Hi by (split; reflexivity).
  destruct (processLeaves_unstyled _ _ _ Hplain Hi P) as [_ T]. rewrite T.
  rewrite !List.filter_app. simpl concat. simpl List.filter at 2.
  assert (List.filter isTextStyle (insertRequests c) = []) as ->.
  { rewrite <- Hf. clear. induction (insertRequests c) as [|r rs IH]; [reflexivity|].
    destruct r; simpl; auto. }
  rewrite (filter_concat_nil isTextStyle), !filter_fmap_nil; try reflexivity.
  intros r. unfold paragraphRangeRequests, buildUpdateParagraphStyleRequest.
  now destruct (truthyString _).
Qed.

Lemma plain_text_is_never_styled_witness :
  exists requests,
    compileTokens Stream.threeItems 1 None None = Ok requests
    /\ List.filter isTextStyle requests = [].
Proof.
  destruct (compileTokens Stream.threeItems 1 None None) as [requests|e] eqn:E;
    [|vm_compute in E; discriminate E].
  exists requests. split; [reflexivity|].
  refine (plain_text_is_never_styled _ _ _ _ _ _ E).
  apply Forall_forall. intros t Ht. apply list_elem_of_In in Ht.
  revert t Ht. apply List.Forall_forall. vm_compute. repeat constructor.
Defined.

End PlainText.

Section QuietStreams.
Import JS MarkdownToDocs.

Lemma emitText_nonempty (t : string) (x : ConversionContext) :
  insertRequests (emitText t x) <> [].
Proof.
  unfold emitText. split_conditionals; strip_assignments; apply insertText_nonempty.
Qed.

Lemma quietState_update (f : PendingListItem -> PendingListItem) (q : Quiet)
    (c : ConversionContext) (item : PendingListItem) :
  quietState q c ->
  getCurrentOpenListItem c = Some item ->
  quietState (mkQuiet (q_heading q) (q_lists q) (Some (taskPrefixProcessed (f item))))
             (updateCurrentOpenListItem f c).
Proof.
  intros (H1 & H2 & H3 & H4 & H5 & H6) Hitem.
  destruct (update_current f c item Hitem) as (U & _).
  unfold quietState. rewrite U. simpl.
  unfold getCurrentOpenListItem in Hitem. unfold updateCurrentOpenListItem.
  destruct (lastOf (openListItemStack c)) as [i|]; [|discriminate].
  rewrite Hitem. repeat split; assumption.
Qed.

Lemma quiet_text (token : Token) (q : Quiet) (c : ConversionContext) :
  quietState q c ->
  match quietText (content token) q with
  | Some q' => quietState q' (handleTextToken token c)
  | None => insertRequests (handleTextToken token c) <> []
  end.
Proof.
  intros Hq. pose proof Hq as (_ & _ & _ & _ & _ & Hitem).
  unfold quietText, handleTextToken. cbv zeta.
  destruct (negb (truthy (content token))); [exact Hq|].
  rewrite Hitem.
  destruct (getCurrentOpenListItem c) as [item|] eqn:E; simpl;
    [|apply emitText_nonempty].
  destruct (taskPrefixProcessed item) eqn:F; simpl; [apply emitText_nonempty|].
  destruct (matchTaskPrefix (content token)) as [n|]; [|apply emitText_nonempty].
  destruct (truthy (sliceFrom n (content token))); simpl; [apply emitText_nonempty|].
  pose proof (quietState_update set_taskPrefixProcessed q c item Hq E) as Hq1.
  destruct (update_current set_taskPrefixProcessed c item E) as (E1 & _).
  exact (quietState_update (set_bulletPreset BULLET_CHECKBOX) _ _ _ Hq1 E1).
Qed.

Lemma quiet_step (k : TokenKind) (token : Token) (q : Quiet)
    (c c' : ConversionContext) :
  quietState q c ->
  processLeaf k token c = Ok c' ->
  match quietStep k token q with
  | Some q' => quietState q' c'
  | None => insertRequests c' <> []
  end.
Proof.
  intros Hq. pose proof Hq as (H1 & H2 & H3 & H4 & H5 & H6).
  destruct k; simpl; try (intros [= <-]; exact Hq);
    try (intros [= <-]; apply insertText_nonempty);
    try (intros [= <-]; rewrite handleCodeBlockToken_eq; apply insertText_nonempty).
  - (* heading_open *)
    intros [= <-]. unfold handleHeadingOpen.
    destruct (getHeadingLevel token) as [[|l]|]; try exact Hq.
    unfold quietState. simpl. repeat split; eauto.
  - (* heading_close *)
    intros [= <-]. unfold handleHeadingClose. rewrite H2 in *.
    destruct (currentHeadingLevel c) as [[|l]|]; try exact Hq.
    destruct (H3 eq_refl) as [p ->]. cbv zeta. strip_assignments.
    apply insertText_nonempty.
  - (* paragraph_open *)
    intros [= <-]. unfold handleParagraphOpen.
    destruct (Nat.eqb _ _); [|exact Hq].
    unfold quietState. simpl. repeat split; eauto.
  - (* paragraph_close *)
    intros E. exact (processLeaf_alwaysInserts paragraph_close token c c' eq_refl E).
  - (* text *)
    intros [= <-]. now apply quiet_text.
  - (* code_inline *)
    intros [= <-]. unfold handleCodeInlineToken, popFormatting, pushFormatting.
    cbv zeta.
    pose proof (quiet_text token q (set_formattingStack
                  (formattingStack c ++ [mkFormatting None None None None (Some true)]) c)
                  Hq) as Ht.
    destruct (quietText (content token) q); [|exact Ht]. exact Ht.
  - (* link_open *)
    destruct (getLinkHref token) as [href|]; [destruct (truthy href)|];
      intros [= <-]; exact Hq.
  - (* bullet_list_open *)
    intros [= <-]. unfold quietState, pushList. simpl. rewrite length_app. simpl.
    repeat split; try assumption; try lia. now apply (levels_push bullet).
  - (* bullet_list_close *)
    intros [= <-]. unfold quietState, popList. simpl.
    repeat split; try assumption; [|now apply levels_pop].
    rewrite H4. unfold pop. destruct (listStack c) as [|x st] using rev_ind;
      [reflexivity|]. rewrite removelast_last, length_app. simpl. lia.
  - (* ordered_list_open *)
    intros [= <-]. unfold quietState, pushList. simpl. rewrite length_app. simpl.
    repeat split; try assumption; try lia. now apply (levels_push ordered).
  - (* ordered_list_close *)
    intros [= <-]. unfold quietState, popList. simpl.
    repeat split; try assumption; [|now apply levels_pop].
    rewrite H4. unfold pop. destruct (listStack c) as [|x st] using rev_ind;
      [reflexivity|]. rewrite removelast_last, length_app. simpl. lia.
  - (* list_item_open *)
    intros Hopen.
    destruct (handleListItemOpen_current _ _ Hopen) as (item & Hitem & Hflag & _).
    unfold handleListItemOpen in Hopen.
    destruct (lastOf (listStack c)) as [currentList|] eqn:E; [|discriminate].
    destruct (lastOf_Some _ _ E) as (st & Est).
    assert (level currentList = length st) as Hlevel.
    { apply H5. rewrite Est. now rewrite lookup_app_r, Nat.sub_diag by lia. }
    cbv zeta in Hopen. rewrite Hlevel in Hopen.
    rewrite H4, Est, length_app. simpl. rewrite Nat.add_1_r.
    destruct (length st) as [|d] eqn:Ed.
    + injection Hopen as <-. unfold quietState. rewrite Hitem. simpl.
      rewrite Hflag. repeat split; try assumption.
      rewrite Est, length_app, Ed. reflexivity.
    + injection Hopen as <-. change (0 <? S d)%nat with true. cbv iota.
      strip_assignments. apply insertText_nonempty.
  - (* list_item_close *)
    intros Hclose. rewrite H6. unfold handleListItemClose in Hclose.
    unfold getCurrentOpenListItem.
    destruct (lastOf (openListItemStack c)) as [i|]; [|now injection Hclose as <-].
    cbv zeta in Hclose. simpl in Hclose.
    destruct (pendingListItems c !! i) as [item|]; [|discriminate Hclose].
    simpl. injection Hclose as <-.
    match goal with
    | |- insertRequests (if negb (lastInsertEndsWithNewline ?y) then _ else _) <> [] =>
        assert (lastInsertEndsWithNewline y = false) as ->
    end.
    { destruct (lastInsertEndsWithNewline _) eqn:L; [|reflexivity].
      apply lastInsertEndsWithNewline_nonempty in L. destruct L.
      destruct (li_endIndex item); [exact H1|].
      destruct (_ <? _); exact H1. }
    apply insertText_nonempty.
Qed.

Lemma quiet_run (leaves : list Token) (q : Quiet) (c c' : ConversionContext) :
  quietState q c ->
  processLeaves leaves c = Ok c' ->
  (insertRequests c' = [] <-> quiet q leaves = true).
Proof.
  revert q c. induction leaves as [|t leaves IH]; intros q c Hq H.
  - injection H as <-. destruct Hq as (H1 & _). now split.
  - simpl in H. destruct (processLeaf _ t c) as [c1|] eqn:E; [|discriminate].
    simpl in H. pose proof (quiet_step _ _ _ _ _ Hq E) as Hstep. simpl quiet.
    destruct (quietStep (kindOf (type t)) t q) as [q'|]; [exact (IH _ _ Hstep H)|].
    split; [|discriminate]. intros Hnil.
    now destruct (advances_nonempty _ _ (processLeaves_advances _ _ _ H) Hstep).
Qed.

Lemma quietState_initial (startIndex : Z) (tab : option string)
    (options : option ConversionOptions) :
  quietState quietStart (initialContext startIndex tab options).
Proof.
  unfold quietState. simpl. repeat split; discriminate.
Qed.

(** C2, as amended.  Every token step moves the cursor by insertions
    appended to the insertion list and by nothing else, each insertion
    placed at the cursor and moving it by the length of its text, so the
    cursor never decreases.  For a compilation that succeeds, the
    insertions of the output start at [startIndex], each begins where the
    one before ended, and the final cursor is [startIndex] plus the sum of
    the inserted lengths.  The output has no insertion exactly when the
    stream is quiet, that is, when none of its tokens, at any depth of
    [inline] nesting, is: a paragraph_close, softbreak, hardbreak, hr, fence
    or code_block; a text or code_inline with content, other than a bare
    task prefix met as the first text of an open list item; the
    heading_close of an open heading; a list_item_open under two or more
    open lists; or the list_item_close of an open item.  So ["# T"], a
    table cell with text and a list of one empty item each give an
    insertion, and the empty block quote [>] gives none.  A document that is
    not blank is compiled from the tokens the parser gives for it, from the
    start index given or from 1. *)
Theorem cursor_advances_by_insertions :
  (forall token c c',
      processToken token c = Ok c' ->
      advances c c' /\ currentIndex c <= currentIndex c')
  /\ (forall tokens startIndex tab options requests,
         compileTokens tokens startIndex tab options = Ok requests ->
         exists c,
           processTokens tokens (initialContext startIndex tab options) = Ok c
           /\ List.filter isInsert requests = insertRequests c
           /\ chainFrom startIndex (insertRequests c) = Some (currentIndex c)
           /\ currentIndex c = startIndex + insertedLength (List.filter isInsert requests)
           /\ startIndex <= currentIndex c
           /\ (Exists (fun t => alwaysInserts (kindOf (type t)) = true)
                      (flattenAll tokens) ->
               (1 <= length (List.filter isInsert requests))%nat)
           /\ (List.filter isInsert requests = []
               <-> quiet quietStart (flattenAll tokens) = true)
           /\ ((1 <= length (List.filter isInsert requests))%nat
               <-> quiet quietStart (flattenAll tokens) = false))
  /\ (forall parse markdown startIndex tab options,
         trim markdown <> "" ->
         convertMarkdownToRequests parse markdown startIndex tab options
         = compileTokens (parse markdown) (default 1 startIndex) tab options)
  /\ (quiet quietStart (flattenAll (Stream.heading "h1" "T")) = false
      /\ quiet quietStart (flattenAll Stream.emptyHeading) = false
      /\ quiet quietStart (flattenAll oneCellTable) = false
      /\ quiet quietStart (flattenAll emptyItem) = false
      /\ quiet quietStart (flattenAll Stream.emptyQuote) = true
      /\ compileTokens (Stream.heading "h1" "T") 1 None None
         = Ok [InsertTextRequest (mkLocation 1 None) "T";
               InsertTextRequest (mkLocation 2 None) newline;
               UpdateParagraphStyleRequest (mkRange 1 2 None) (NamedStyle "HEADING_1")]
      /\ compileTokens oneCellTable 1 None None
         = Ok [InsertTextRequest (mkLocation 1 None) "a"]
      /\ compileTokens emptyItem 1 None None
         = Ok [InsertTextRequest (mkLocation 1 None) newline]).
Proof.
  split; [|split; [|split; [exact convertMarkdownToRequests_nonblank|]]].
  - intros token c c' H. pose proof (processToken_advances _ _ _ H) as A.
    split; [exact A | exact (advances_cursor _ _ A)].
  - intros tokens startIndex tab options requests H.
    destruct (compileTokens_Ok _ _ _ _ _ H) as (c & P & _ & _ & Hc & ->).
    destruct (chainFrom_sum _ _ _ Hc) as (Hsum & Hle & Hf).
    exists c. rewrite (filter_insert_output _ _ _ _ _ _ Hf).
    pose proof P as P'. rewrite processTokens_flatten in P'.
    pose proof (quiet_run _ _ _ _ (quietState_initial startIndex tab options) P') as Hq.
    repeat split; try assumption; try (apply Hq).
    + intros Hex.
      pose proof (processLeaves_alwaysInserts _ _ _ Hex P') as Hne.
      destruct (insertRequests c); [congruence | simpl; lia].
    + intros Hlen. destruct (quiet quietStart (flattenAll tokens)); [|reflexivity].
      rewrite (proj2 Hq eq_refl) in Hlen. simpl in Hlen. lia.
    + intros Hno. destruct (insertRequests c) as [|r rs]; [|simpl; lia].
      rewrite (proj1 Hq eq_refl) in Hno. discriminate.
  - repeat split; vm_compute; reflexivity.
Qed.

Lemma cursor_advances_by_insertions_witness :
  exists requests c,
    compileTokens Stream.threeItems 1 None None = Ok requests
    /\ processTokens Stream.threeItems (initialContext 1 None None) = Ok c
    /\ currentIndex c = 1 + insertedLength (List.filter isInsert requests)
    /\ (1 <= length (List.filter isInsert requests))%nat
    /\ List.filter isInsert requests <> [].
Proof.
  destruct (compileTokens Stream.threeItems 1 None None) as [requests|e] eqn:E;
    [|vm_compute in E; discriminate E].
  destruct (proj1 (proj2 cursor_advances_by_insertions) Stream.threeItems 1 None None
              requests E) as (c & P & _ & _ & S & _ & N & Q & _).
  exists requests, c.
  split; [reflexivity|]. split; [exact P|]. split; [exact S|]. split.
  - apply N. apply (Exists_existsb (fun t => alwaysInserts (kindOf (type t)))).
    vm_compute. reflexivity.
  - intros Hnil. apply (proj1 Q) in Hnil. vm_compute in Hnil. discriminate Hnil.
Defined.

(** C2 as stated fails: the document [>] is neither empty nor blank, its
    token stream is not empty, and the compiler returns no operation. *)
Lemma empty_blockquote_inserts_nothing :
  trim ">" <> ""
  /\ Stream.emptyQuote <> []
  /\ convertMarkdownToRequests (fun _ => Stream.emptyQuote) ">" None None None = Ok []
  /\ compileTokens Stream.emptyQuote 1 None None = Ok [].
Proof.
  split; [vm_compute; discriminate|].
  split; [discriminate|].
  split; vm_compute; reflexivity.
Qed.

End QuietStreams.
